(** * Role-based access control and verse rotation: the stored procedures

    The logic of the application lives in SQL migrations: the tables
    [roles], [user_roles], [role_transitions], [user_invitations],
    [bible_verses] and [verse_history], the materialized view
    [auth_users_view], and the PL/pgSQL functions [has_role],
    [has_admin_access], [get_users], [invite_users], [bulk_create_users],
    [verify_user_email] and [get_daily_verse].

    The embedding is shallow.  A table is the list of its rows, a row is a
    record with one field per column, a nullable column is an [option].
    A PL/pgSQL body is a computation in a small monad [PG] that threads the
    database, the rows handed to [RETURN NEXT]/[RETURN QUERY] and the
    number of random draws made so far, and that can raise.  A
    [BEGIN ... EXCEPTION] block restores the database of its entry point
    before its handler runs; a call that ends in an error leaves the
    database as it found it. *)

From Stdlib Require Import List String Ascii ZArith NArith Bool Arith Lia Permutation.
Import ListNotations.
Local Open Scope string_scope.
Local Open Scope list_scope.
Local Open Scope nat_scope.

(** ** Column types *)

Definition uuid := nat.
Definition text := string.
Definition timestamptz := Z.            (* seconds, session time zone UTC *)
Bind Scope Z_scope with timestamptz.
Definition text_array := list (option text).   (* text[]: elements may be NULL *)

(** [interval '7 days'] *)
Definition interval_7_days : Z := 7 * 86400.

(** [a = b] in a WHERE or ON position: NULL on either side is not true. *)
Definition sql_eq {A : Type} (eqb : A -> A -> bool) (a b : option A) : bool :=
  match a, b with
  | Some x, Some y => eqb x y
  | _, _ => false
  end.

(** [b = true] on a nullable boolean column. *)
Definition is_true (b : option bool) : bool :=
  match b with Some true => true | _ => false end.

(** [raw_user_meta_data]: a JSON object whose fields hold scalars. *)
Inductive json_scalar :=
| JNull
| JBool (b : bool)
| JNumber (digits : text)
| JString (s : text).

Definition jsonb := list (text * json_scalar).

Fixpoint jsonb_field (o : jsonb) (key : text) : option json_scalar :=
  match o with
  | [] => None
  | (k, v) :: rest => if String.eqb k key then Some v else jsonb_field rest key
  end.

(** [o ->> key]: the field as text, NULL when absent or JSON null. *)
Definition json_get_text (o : option jsonb) (key : text) : option text :=
  match o with
  | None => None
  | Some obj =>
      match jsonb_field obj key with
      | None | Some JNull => None
      | Some (JBool true) => Some "true"
      | Some (JBool false) => Some "false"
      | Some (JNumber d) => Some d
      | Some (JString s) => Some s
      end
  end.

(** [jsonb_set(o, '{key}', v)] on a one-step path: replace the field, or
    add it when the object has none of that name. *)
Fixpoint jsonb_set (o : jsonb) (key : text) (v : json_scalar) : jsonb :=
  match o with
  | [] => [(key, v)]
  | (k, w) :: rest =>
      if String.eqb k key then (k, v) :: rest else (k, w) :: jsonb_set rest key v
  end.

(** ** Tables *)

(** [auth.users], the columns this layer reads or writes. *)
Record auth_user := {
  au_id : uuid;
  au_email : option text;
  au_raw_user_meta_data : option jsonb;
  au_created_at : option timestamptz;
  au_last_sign_in_at : option timestamptz;
  au_confirmed_at : option timestamptz }.

Record role := {
  r_id : uuid;
  r_name : text;
  r_description : option text;
  r_level : Z }.

Record user_role := {
  ur_id : uuid;
  ur_user_id : uuid;
  ur_role_id : uuid;
  ur_assigned_by : option uuid;
  ur_assigned_at : option timestamptz;
  ur_expires_at : option timestamptz;
  ur_is_active : option bool }.

Record role_transition := {
  rt_id : uuid;
  rt_user_id : uuid;
  rt_old_role_id : option uuid;
  rt_new_role_id : uuid;
  rt_changed_by : uuid;
  rt_reason : option text;
  rt_created_at : option timestamptz }.

Record user_invitation := {
  ui_id : uuid;
  ui_email : text;
  ui_invited_by : option uuid;
  ui_roles : text_array;
  ui_status : text;
  ui_invitation_token : text;
  ui_expires_at : timestamptz;
  ui_created_at : option timestamptz }.

Record bible_verse := {
  bv_id : uuid;
  bv_serial_number : text;
  bv_verse_text : text }.

Record verse_history_row := {
  vh_id : uuid;
  vh_user_id : uuid;
  vh_verse_id : uuid;
  vh_shown_at : option timestamptz }.

(** A row of the materialized view [auth_users_view]. *)
Record auth_users_view_row := {
  v_id : uuid;
  v_email : option text;
  v_user_metadata : option jsonb;
  v_created_at : option timestamptz;
  v_last_sign_in_at : option timestamptz;
  v_confirmed_at : option timestamptz;
  v_is_active : bool;
  v_roles : text_array;
  v_has_pending_invitation : bool }.

Record DB := {
  auth_users : list auth_user;
  roles : list role;
  user_roles : list user_role;
  role_transitions : list role_transition;
  user_invitations : list user_invitation;
  bible_verses : list bible_verse;
  verse_history : list verse_history_row;
  auth_users_view : list auth_users_view_row }.

Definition set_auth_users (x : list auth_user) (d : DB) : DB :=
  {| auth_users := x; roles := roles d; user_roles := user_roles d;
     role_transitions := role_transitions d;
     user_invitations := user_invitations d; bible_verses := bible_verses d;
     verse_history := verse_history d; auth_users_view := auth_users_view d |}.

Definition set_user_roles (x : list user_role) (d : DB) : DB :=
  {| auth_users := auth_users d; roles := roles d; user_roles := x;
     role_transitions := role_transitions d;
     user_invitations := user_invitations d; bible_verses := bible_verses d;
     verse_history := verse_history d; auth_users_view := auth_users_view d |}.

Definition set_role_transitions (x : list role_transition) (d : DB) : DB :=
  {| auth_users := auth_users d; roles := roles d; user_roles := user_roles d;
     role_transitions := x;
     user_invitations := user_invitations d; bible_verses := bible_verses d;
     verse_history := verse_history d; auth_users_view := auth_users_view d |}.

Definition set_user_invitations (x : list user_invitation) (d : DB) : DB :=
  {| auth_users := auth_users d; roles := roles d; user_roles := user_roles d;
     role_transitions := role_transitions d;
     user_invitations := x; bible_verses := bible_verses d;
     verse_history := verse_history d; auth_users_view := auth_users_view d |}.

Definition set_verse_history (x : list verse_history_row) (d : DB) : DB :=
  {| auth_users := auth_users d; roles := roles d; user_roles := user_roles d;
     role_transitions := role_transitions d;
     user_invitations := user_invitations d; bible_verses := bible_verses d;
     verse_history := x; auth_users_view := auth_users_view d |}.

Definition set_auth_users_view (x : list auth_users_view_row) (d : DB) : DB :=
  {| auth_users := auth_users d; roles := roles d; user_roles := user_roles d;
     role_transitions := role_transitions d;
     user_invitations := user_invitations d; bible_verses := bible_verses d;
     verse_history := verse_history d; auth_users_view := x |}.

(** ** Errors, sessions and the procedure monad *)

Inductive pg_error :=
| raise_exception (message : text)              (* RAISE EXCEPTION '...' *)
| not_null_violation (table column : text)
| unique_violation (constraint : text)
| foreign_key_violation (table constraint : text)
| check_violation (table constraint : text)
| ambiguous_column (name : text).

Inductive outcome (A : Type) :=
| Done (a : A)
| Raised (e : pg_error).
Arguments Done {A} a.
Arguments Raised {A} e.

(** What a call sees of its session: the caller ([auth.uid()]), the
    transaction time ([now()]) and the engine's source of randomness,
    read one draw at a time. *)
Record session := {
  auth_uid : option uuid;
  now : timestamptz;
  entropy : nat -> nat }.

Record state (R : Type) := {
  st_db : DB;
  st_draws : nat;
  st_out : list R }.
Arguments st_db {R} s.
Arguments st_draws {R} s.
Arguments st_out {R} s.

Definition PG (R A : Type) : Type := session -> state R -> outcome A * state R.

Definition ret {R A} (a : A) : PG R A := fun _ st => (Done a, st).

Definition bind {R A B} (m : PG R A) (k : A -> PG R B) : PG R B :=
  fun s st =>
    match m s st with
    | (Done a, st') => k a s st'
    | (Raised e, st') => (Raised e, st')
    end.

Declare Scope pg_scope.
Delimit Scope pg_scope with pg.
Notation "x <- m ;; k" := (bind m (fun x => k))
  (at level 61, m at next level, right associativity) : pg_scope.
Notation "m ;; k" := (bind m (fun _ => k))
  (at level 61, right associativity) : pg_scope.
Local Open Scope pg_scope.

Definition raise {R A} (e : pg_error) : PG R A := fun _ st => (Raised e, st).

(** A read-only query. *)
Definition query {R A} (q : session -> DB -> A) : PG R A :=
  fun s st => (Done (q s (st_db st)), st).

(** One INSERT, UPDATE or DELETE (with its RETURNING value, if any): it
    either takes effect as a whole or raises and changes nothing. *)
Definition statement {R A} (f : session -> DB -> outcome (A * DB)) : PG R A :=
  fun s st =>
    match f s (st_db st) with
    | Done (a, d) =>
        (Done a, {| st_db := d; st_draws := st_draws st; st_out := st_out st |})
    | Raised e => (Raised e, st)
    end.

(** The next value of the random source. *)
Definition draw {R} : PG R nat :=
  fun s st =>
    (Done (entropy s (st_draws st)),
     {| st_db := st_db st; st_draws := S (st_draws st); st_out := st_out st |}).

(** [RETURN QUERY]; [RETURN NEXT row] is [return_query [row]]. *)
Definition return_query {R} (rows : list R) : PG R unit :=
  fun _ st =>
    (Done tt, {| st_db := st_db st; st_draws := st_draws st; st_out := st_out st ++ rows |}).

(** [BEGIN body EXCEPTION WHEN others THEN handler END]: the handler runs
    on the database as it was when the block was entered. *)
Definition begin_exception {R A} (body : PG R A) (handler : pg_error -> PG R A) : PG R A :=
  fun s st =>
    match body s st with
    | (Done a, st') => (Done a, st')
    | (Raised e, st') =>
        handler e s {| st_db := st_db st; st_draws := st_draws st'; st_out := st_out st' |}
    end.

(** [FOREACH x IN ARRAY xs LOOP body END LOOP] *)
Fixpoint foreach {R A} (xs : list A) (body : A -> PG R unit) : PG R unit :=
  match xs with
  | [] => ret tt
  | x :: rest => body x ;; foreach rest body
  end.

(** A call from a client, or a DO block of a migration: one transaction.
    On success the value, the returned rows and the new database; on
    error the database is the one the call started from. *)
Definition rpc {R A} (f : PG R A) (s : session) (d : DB) : outcome (A * list R) * DB :=
  match f s {| st_db := d; st_draws := 0; st_out := [] |} with
  | (Done a, st) => (Done (a, st_out st), st_db st)
  | (Raised e, _) => (Raised e, d)
  end.

(** ** The directory view *)

Definition option_text_dec (a b : option text) : {a = b} + {a <> b}.
Proof. decide equality. apply string_dec. Defined.

(** The right-hand rows a LEFT JOIN pairs with one left-hand row: the
    matches, or a single all-NULL row when there is none. *)
Definition left_join_rows {B} (matches : list B) : list (option B) :=
  match matches with
  | [] => [None]
  | _ => map Some matches
  end.

(** The order in which [array_agg(DISTINCT x)] lists its values: the
    engine sorts them to find the distinct ones, ascending, NULL last.
    Texts are compared code by code; for the names the CHECK on [roles]
    admits every collation gives that order. *)
Definition text_le (a b : option text) : bool :=
  match a, b with
  | _, None => true
  | None, Some _ => false
  | Some x, Some y => String.leb x y
  end.

Fixpoint insert_sorted (x : option text) (xs : text_array) : text_array :=
  match xs with
  | [] => [x]
  | y :: rest => if text_le x y then x :: xs else y :: insert_sorted x rest
  end.

(** [array_agg(DISTINCT x)] *)
Definition array_agg_distinct (xs : text_array) : text_array :=
  fold_right insert_sorted [] (nodup option_text_dec xs).

(** [array_remove(xs, NULL)] *)
Definition array_remove_null (xs : text_array) : text_array :=
  filter (fun x => match x with Some _ => true | None => false end) xs.

(** [CASE WHEN m->>'is_active' = 'false' THEN false ELSE true END] *)
Definition view_is_active (au : auth_user) : bool :=
  negb (sql_eq String.eqb (json_get_text (au_raw_user_meta_data au) "is_active")
          (Some "false")).

(** [EXISTS (SELECT 1 FROM user_invitations ui
             WHERE ui.email = au.email AND ui.status = 'pending')] *)
Definition view_has_pending_invitation (d : DB) (au : auth_user) : bool :=
  existsb (fun ui =>
             sql_eq String.eqb (Some (ui_email ui)) (au_email au)
             && String.eqb (ui_status ui) "pending")
          (user_invitations d).

(** [auth.users au LEFT JOIN user_roles ur ON ur.user_id = au.id] for one
    row of [auth.users]. *)
Definition joined_user_roles (d : DB) (au : auth_user) : list (option user_role) :=
  left_join_rows (filter (fun ur => ur_user_id ur =? au_id au) (user_roles d)).

(** The view as the migration "Fix Materialized View for User Management"
    defines it (the definition that refers to every other object of the
    schema, hence the one in force):
    [LEFT JOIN roles r ON r.id = ur.role_id AND ur.is_active = true],
    roles [array_remove(array_agg(DISTINCT r.name), NULL)], one group per
    row of [auth.users] (grouped by its primary key). *)
Definition auth_users_view_query (d : DB) : list auth_users_view_row :=
  map (fun au =>
         let joined : list (option role) :=
           flat_map (fun our =>
                       left_join_rows
                         match our with
                         | None => []
                         | Some ur =>
                             filter (fun r => (r_id r =? ur_role_id ur)
                                              && is_true (ur_is_active ur))
                                    (roles d)
                         end)
                    (joined_user_roles d au) in
         {| v_id := au_id au;
            v_email := au_email au;
            v_user_metadata := au_raw_user_meta_data au;
            v_created_at := au_created_at au;
            v_last_sign_in_at := au_last_sign_in_at au;
            v_confirmed_at := au_confirmed_at au;
            v_is_active := view_is_active au;
            v_roles := array_remove_null
                         (array_agg_distinct (map (option_map r_name) joined));
            v_has_pending_invitation := view_has_pending_invitation d au |})
      (auth_users d).

(** The view as the migration "User Management System Enhancement" defines
    it: [LEFT JOIN roles r ON r.id = ur.role_id
         WHERE ur.is_active = true OR ur.is_active IS NULL],
    roles [array_agg(DISTINCT r.name)].  An identity all of whose joined
    rows are filtered out forms no group. *)
Definition auth_users_view_query_enhancement (d : DB) : list auth_users_view_row :=
  flat_map (fun au =>
         let joined : list (option user_role * option role) :=
           flat_map (fun our =>
                       map (fun r => (our, r))
                         (left_join_rows
                            match our with
                            | None => []
                            | Some ur => filter (fun r => r_id r =? ur_role_id ur) (roles d)
                            end))
                    (joined_user_roles d au) in
         let kept :=
           filter (fun row =>
                     match fst row with
                     | None => true
                     | Some ur =>
                         match ur_is_active ur with
                         | Some false => false
                         | _ => true
                         end
                     end) joined in
         match kept with
         | [] => []
         | _ =>
           [{| v_id := au_id au;
               v_email := au_email au;
               v_user_metadata := au_raw_user_meta_data au;
               v_created_at := au_created_at au;
               v_last_sign_in_at := au_last_sign_in_at au;
               v_confirmed_at := au_confirmed_at au;
               v_is_active := view_is_active au;
               v_roles := array_agg_distinct
                            (map (fun row => option_map r_name (snd row)) kept);
               v_has_pending_invitation := view_has_pending_invitation d au |}]
         end)
      (auth_users d).

(** [REFRESH MATERIALIZED VIEW auth_users_view], the body of the trigger
    function [refresh_auth_users_view]: the stored rows are recomputed.
    The triggers [refresh_auth_users_view_users] and
    [refresh_auth_users_view_roles] run it after every statement on
    [auth.users] and on [user_roles].  The trigger function reports a
    failed refresh and goes on; the refresh is taken to succeed. *)
Definition refresh_auth_users_view (d : DB) : DB :=
  set_auth_users_view (auth_users_view_query d) d.

(** ** Access checks *)

(** [has_role(user_id, role_name)] *)
Definition has_role {R} (user_id : option uuid) (role_name : text) : PG R bool :=
  query (fun s d =>
    existsb (fun ur =>
      existsb (fun r =>
                 (r_id r =? ur_role_id ur)
                 && sql_eq Nat.eqb (Some (ur_user_id ur)) user_id
                 && String.eqb (r_name r) role_name
                 && is_true (ur_is_active ur)
                 && match ur_expires_at ur with
                    | None => true
                    | Some t => (now s <? t)%Z
                    end)
              (roles d))
      (user_roles d)).

(** [has_admin_access()] *)
Definition has_admin_access {R} : PG R bool :=
  query (fun s d =>
    existsb (fun ur =>
      existsb (fun r =>
                 (r_id r =? ur_role_id ur)
                 && sql_eq Nat.eqb (Some (ur_user_id ur)) (auth_uid s)
                 && String.eqb (r_name r) "admin"
                 && is_true (ur_is_active ur))
              (roles d))
      (user_roles d)).

(** [get_users()] *)
Definition get_users : PG auth_users_view_row unit :=
  admin <- has_admin_access ;;
  if admin : bool then
    rows <- query (fun _ d => auth_users_view d) ;;
    return_query rows
  else
    raise (raise_exception "Access denied").

(** ** Engine services used by the procedures *)

(** [SQLERRM]: the message of the error being handled. *)
Definition quoted (name : text) : text :=
  String (ascii_of_nat 34) (name ++ String (ascii_of_nat 34) EmptyString)%string.

Definition SQLERRM (e : pg_error) : text :=
  match e with
  | raise_exception m => m
  | not_null_violation t c =>
      ("null value in column " ++ quoted c ++ " of relation " ++ quoted t
       ++ " violates not-null constraint")%string
  | unique_violation c =>
      ("duplicate key value violates unique constraint " ++ quoted c)%string
  | foreign_key_violation t c =>
      ("insert or update on table " ++ quoted t
       ++ " violates foreign key constraint " ++ quoted c)%string
  | check_violation t c =>
      ("new row for relation " ++ quoted t ++ " violates check constraint "
       ++ quoted c)%string
  | ambiguous_column c => ("column reference " ++ quoted c ++ " is ambiguous")%string
  end.

(** An SQL command embedded in a function body.  [variables] are the names
    the function declares (parameters, the output columns of RETURNS
    TABLE, DECLAREd variables); [column_refs] are the unqualified names
    in the command that are columns of a table in its scope.  A name that
    is both is rejected when the command is prepared (PL/pgSQL's
    [variable_conflict = error], the default; no function here changes
    it).  The migrations "Fix Daily Verse Function" removed such
    references from [get_daily_verse]. *)
Definition sql {R A} (variables column_refs : list text) (m : PG R A) : PG R A :=
  match find (fun c => existsb (String.eqb c) variables) column_refs with
  | Some c => raise (ambiguous_column c)
  | None => m
  end.

(** [gen_random_uuid()] *)
Definition gen_random_uuid {R} : PG R uuid := draw.

Definition hex_digit (n : N) : ascii :=
  nth (N.to_nat n)
      ["0"; "1"; "2"; "3"; "4"; "5"; "6"; "7"; "8"; "9"; "a"; "b"; "c"; "d"; "e"; "f"]%char
      "0"%char.

Fixpoint encode_hex (digits : nat) (n : N) : text :=
  match digits with
  | 0 => EmptyString
  | S k => (encode_hex k (n / 16)%N ++ String (hex_digit (n mod 16)%N) EmptyString)%string
  end.

(** [encode(gen_random_bytes(32), 'hex')] *)
Definition gen_random_token {R} : PG R text :=
  n <- draw ;;
  ret (encode_hex 64 (N.of_nat n)).

(** [ORDER BY RANDOM() LIMIT 1]: one of the rows, whichever the random
    source designates; no row when there is none. *)
Definition random_row {A} (r : nat) (rows : list A) : option A :=
  nth_error rows (r mod List.length rows).

(** ** Data-changing statements, with their constraints and triggers *)

Definition user_exists (d : DB) (id : uuid) : bool :=
  existsb (fun au => au_id au =? id) (auth_users d).

Definition role_exists (d : DB) (id : uuid) : bool :=
  existsb (fun r => r_id r =? id) (roles d).

Definition verse_exists (d : DB) (id : uuid) : bool :=
  existsb (fun v => bv_id v =? id) (bible_verses d).

(** [INSERT INTO verse_history (user_id, verse_id) VALUES (...)];
    [id] and [shown_at] take their defaults. *)
Definition insert_verse_history (id user_id verse_id : uuid)
  : session -> DB -> outcome (unit * DB) :=
  fun s d =>
    if existsb (fun h => (vh_user_id h =? user_id) && (vh_verse_id h =? verse_id))
               (verse_history d)
    then Raised (unique_violation "verse_history_user_id_verse_id_key")
    else if negb (user_exists d user_id)
    then Raised (foreign_key_violation "verse_history" "verse_history_user_id_fkey")
    else if negb (verse_exists d verse_id)
    then Raised (foreign_key_violation "verse_history" "verse_history_verse_id_fkey")
    else
      Done (tt, set_verse_history
                  (verse_history d
                   ++ [{| vh_id := id; vh_user_id := user_id; vh_verse_id := verse_id;
                          vh_shown_at := Some (now s) |}]) d).

(** [DELETE FROM verse_history WHERE verse_history.user_id = ...] *)
Definition delete_verse_history (user_id : uuid)
  : session -> DB -> outcome (unit * DB) :=
  fun _ d =>
    Done (tt, set_verse_history
                (filter (fun h => negb (vh_user_id h =? user_id)) (verse_history d)) d).

(** [INSERT INTO user_invitations (...) VALUES (...) RETURNING *];
    [expires_at] and [created_at] take their defaults, [status] too when
    the column is not listed. *)
Definition insert_user_invitations (id : uuid) (email : option text)
    (invited_by : option uuid) (roles : text_array) (invitation_token : text)
    (status : option text)
  : session -> DB -> outcome (user_invitation * DB) :=
  fun s d =>
    match email with
    | None => Raised (not_null_violation "user_invitations" "email")
    | Some e =>
        let st := match status with Some x => x | None => "pending" end in
        if negb (existsb (String.eqb st) ["pending"; "accepted"; "expired"])
        then Raised (check_violation "user_invitations" "valid_status")
        else if match invited_by with
                | Some u => negb (user_exists d u)
                | None => false
                end
        then Raised (foreign_key_violation "user_invitations"
                                           "user_invitations_invited_by_fkey")
        else
          let row := {| ui_id := id; ui_email := e; ui_invited_by := invited_by;
                        ui_roles := roles; ui_status := st;
                        ui_invitation_token := invitation_token;
                        ui_expires_at := (now s + interval_7_days)%Z;
                        ui_created_at := Some (now s) |} in
          Done (row, set_user_invitations (user_invitations d ++ [row]) d)
    end.

(** The constraints of [user_roles] on one new row. *)
Definition user_roles_violation (d : DB) (row : user_role) : option pg_error :=
  if existsb (fun ur => (ur_user_id ur =? ur_user_id row)
                        && (ur_role_id ur =? ur_role_id row)) (user_roles d)
  then Some (unique_violation "user_roles_user_id_role_id_key")
  else if negb (user_exists d (ur_user_id row))
  then Some (foreign_key_violation "user_roles" "user_roles_user_id_fkey")
  else if negb (role_exists d (ur_role_id row))
  then Some (foreign_key_violation "user_roles" "user_roles_role_id_fkey")
  else if match ur_assigned_by row with
          | Some u => negb (user_exists d u)
          | None => false
          end
  then Some (foreign_key_violation "user_roles" "user_roles_assigned_by_fkey")
  else None.

Fixpoint insert_user_roles_rows (rows : list user_role) (d : DB) : outcome DB :=
  match rows with
  | [] => Done d
  | row :: rest =>
      match user_roles_violation d row with
      | Some e => Raised e
      | None => insert_user_roles_rows rest (set_user_roles (user_roles d ++ [row]) d)
      end
  end.

(** [INSERT INTO user_roles ...], one statement for all its rows, followed
    by the statement trigger [refresh_auth_users_view_roles]. *)
Definition insert_user_roles (rows : list user_role)
  : session -> DB -> outcome (unit * DB) :=
  fun _ d =>
    match insert_user_roles_rows rows d with
    | Done d' => Done (tt, refresh_auth_users_view d')
    | Raised e => Raised e
    end.

(** [DELETE FROM user_roles WHERE user_id = ...], with its trigger. *)
Definition delete_user_roles (user_id : uuid)
  : session -> DB -> outcome (unit * DB) :=
  fun _ d =>
    Done (tt, refresh_auth_users_view
                (set_user_roles
                   (filter (fun ur => negb (ur_user_id ur =? user_id)) (user_roles d)) d)).

(** [INSERT INTO role_transitions (...) VALUES (...)] *)
Definition insert_role_transitions (row : role_transition)
  : session -> DB -> outcome (unit * DB) :=
  fun _ d =>
    if negb (user_exists d (rt_user_id row))
    then Raised (foreign_key_violation "role_transitions" "role_transitions_user_id_fkey")
    else if match rt_old_role_id row with
            | Some r => negb (role_exists d r)
            | None => false
            end
    then Raised (foreign_key_violation "role_transitions" "role_transitions_old_role_id_fkey")
    else if negb (role_exists d (rt_new_role_id row))
    then Raised (foreign_key_violation "role_transitions" "role_transitions_new_role_id_fkey")
    else if negb (user_exists d (rt_changed_by row))
    then Raised (foreign_key_violation "role_transitions" "role_transitions_changed_by_fkey")
    else Done (tt, set_role_transitions (role_transitions d ++ [row]) d).

(** ** Verse rotation *)

(** What one call of [get_daily_verse] selected, and whether it went
    through the reset branch.  The procedure hands the text to its caller
    with RETURN QUERY; this record is kept beside it so that statements
    about successive calls can name the row that was chosen. *)
Record verse_pick := {
  selected_verse_id : uuid;
  selected_verse : text;
  history_reset : bool }.

Definition pick_of (verses : bible_verse) (reset : bool) : verse_pick :=
  {| selected_verse_id := bv_id verses;
     selected_verse := bv_verse_text verses;
     history_reset := reset |}.

(** [NOT EXISTS (SELECT 1 FROM verse_history history
                 WHERE history.verse_id = verses.id
                 AND history.user_id = current_user_id)] *)
Definition unshown (d : DB) (current_user_id : uuid) (verses : bible_verse) : bool :=
  negb (existsb (fun history =>
                   (vh_verse_id history =? bv_id verses)
                   && (vh_user_id history =? current_user_id))
                (verse_history d)).

(** [get_daily_verse()], as the last migration "Fix Daily Verse Function"
    leaves it.  Every column reference in it is qualified.  [verse_text]
    is NOT NULL, so a selected row has both [selected_verse_id] and
    [selected_verse], and the test before the INSERT fails exactly when no
    row was selected. *)
Definition get_daily_verse : PG text verse_pick :=
  begin_exception
    (current_user_id <- query (fun s _ => auth_uid s) ;;
     match current_user_id with
     | None => raise (raise_exception "User not authenticated")
     | Some current_user_id =>
         r <- draw ;;
         first <- query (fun _ d =>
                    random_row r (filter (unshown d current_user_id) (bible_verses d))) ;;
         selected <-
           match first with
           | Some verses => ret (Some verses, false)
           | None =>
               statement (delete_verse_history current_user_id) ;;
               r <- draw ;;
               again <- query (fun _ d => random_row r (bible_verses d)) ;;
               ret (again, true)
           end ;;
         match fst selected with
         | None => raise (raise_exception "No verses available")
         | Some verses =>
             id <- gen_random_uuid ;;
             statement (insert_verse_history id current_user_id (bv_id verses)) ;;
             return_query [bv_verse_text verses] ;;
             ret (pick_of verses (snd selected))
         end
     end)
    (fun e => (* RAISE NOTICE; RAISE *) raise e).

(** ** Invitations *)

(** The body of the loop of [invite_users] for one email. *)
Definition invite_users_iteration (roles : text_array) (v_email : option text)
  : PG user_invitation unit :=
  id <- gen_random_uuid ;;
  token <- gen_random_token ;;
  uid <- query (fun s _ => auth_uid s) ;;
  v_invitation <- statement (insert_user_invitations id v_email uid roles token None) ;;
  return_query [v_invitation].

(** [invite_users(emails, roles)].  Its variables are [emails], [roles],
    [v_email] and [v_invitation]; the INSERT names no column in an
    expression. *)
Definition invite_users (emails roles : text_array) : PG user_invitation unit :=
  admin <- has_admin_access ;;
  (if negb admin then raise (raise_exception "Access denied") else ret tt) ;;
  foreach emails (invite_users_iteration roles).

(** A row of [bulk_create_users]'s RETURNS TABLE. *)
Record bulk_create_users_row := {
  email : option text;
  status : text;
  message : text }.

Definition bulk_create_users_variables : list text :=
  ["user_emails"; "user_roles"; "email"; "status"; "message";
   "v_email"; "v_result"; "v_invitation"].

(** The body of the loop of [bulk_create_users] for one email: a block
    with its own exception handler.  The test
    [EXISTS (SELECT 1 FROM auth.users WHERE email = v_email)] names the
    column [email] without a qualifier. *)
Definition bulk_create_users_iteration (user_roles : text_array) (v_email : option text)
  : PG bulk_create_users_row unit :=
  begin_exception
    (already <- sql bulk_create_users_variables ["email"]
                  (query (fun _ d =>
                     existsb (fun au => sql_eq String.eqb (au_email au) v_email)
                             (auth_users d))) ;;
     if already : bool then
       return_query [{| email := v_email; status := "error";
                        message := "User already exists" |}]
       (* CONTINUE *)
     else
       id <- gen_random_uuid ;;
       token <- gen_random_token ;;
       uid <- query (fun s _ => auth_uid s) ;;
       v_invitation <- statement (insert_user_invitations id v_email uid user_roles
                                    token (Some "pending")) ;;
       return_query [{| email := v_email; status := "success";
                        message := "Invitation sent" |}])
    (fun e =>
       return_query [{| email := v_email; status := "error";
                        message := SQLERRM e |}]).

(** [bulk_create_users(user_emails, user_roles)] *)
Definition bulk_create_users (user_emails user_roles : text_array)
  : PG bulk_create_users_row unit :=
  admin <- has_admin_access ;;
  (if negb admin then raise (raise_exception "Access denied") else ret tt) ;;
  foreach user_emails (bulk_create_users_iteration user_roles).

(** ** Invitation verification *)

Definition with_raw_user_meta_data (m : option jsonb) (au : auth_user) : auth_user :=
  {| au_id := au_id au; au_email := au_email au; au_raw_user_meta_data := m;
     au_created_at := au_created_at au; au_last_sign_in_at := au_last_sign_in_at au;
     au_confirmed_at := au_confirmed_at au |}.

Definition with_status (st : text) (ui : user_invitation) : user_invitation :=
  {| ui_id := ui_id ui; ui_email := ui_email ui; ui_invited_by := ui_invited_by ui;
     ui_roles := ui_roles ui; ui_status := st;
     ui_invitation_token := ui_invitation_token ui;
     ui_expires_at := ui_expires_at ui; ui_created_at := ui_created_at ui |}.

(** The row trigger [user_verification_trigger] (function
    [handle_user_verification]) for one updated row. *)
Definition handle_user_verification (OLD NEW : auth_user) (d : DB) : DB :=
  if sql_eq String.eqb (json_get_text (au_raw_user_meta_data NEW) "email_verified")
            (Some "true")
     && match json_get_text (au_raw_user_meta_data OLD) "email_verified" with
        | None => true
        | Some v => String.eqb v "false"
        end
  then refresh_auth_users_view d
  else d.

(** [UPDATE auth.users
     SET raw_user_meta_data = jsonb_set(COALESCE(raw_user_meta_data, '{}'),
                                        '{email_verified}', 'true')
     WHERE id = user_id], then its row triggers, then the statement
    trigger [refresh_auth_users_view_users]. *)
Definition verified (au : auth_user) : auth_user :=
  with_raw_user_meta_data
    (Some (jsonb_set match au_raw_user_meta_data au with
                     | Some m => m
                     | None => []
                     end "email_verified" (JBool true))) au.

Definition update_auth_users_email_verified (user_id : uuid)
  : session -> DB -> outcome (unit * DB) :=
  fun _ d =>
    let d1 := set_auth_users
                (map (fun au => if au_id au =? user_id then verified au else au)
                     (auth_users d)) d in
    let d2 := fold_left (fun acc au =>
                           if au_id au =? user_id
                           then handle_user_verification au (verified au) acc
                           else acc)
                        (auth_users d) d1 in
    Done (tt, refresh_auth_users_view d2).

(** [UPDATE user_invitations SET status = 'accepted' WHERE id = ...] *)
Definition update_user_invitations_accepted (id : uuid)
  : session -> DB -> outcome (unit * DB) :=
  fun _ d =>
    Done (tt, set_user_invitations
                (map (fun ui => if ui_id ui =? id then with_status "accepted" ui else ui)
                     (user_invitations d)) d).

Fixpoint draw_many {R} (n : nat) : PG R (list nat) :=
  match n with
  | 0 => ret []
  | S k => x <- draw ;; xs <- draw_many k ;; ret (x :: xs)
  end.

(** The invitation [verify_user_email] looks for:
    [SELECT * FROM user_invitations
     WHERE email = (SELECT email FROM auth.users WHERE id = user_id)
     AND invitation_token = verification_token
     AND status = 'pending' AND expires_at > now()]
    ([auth.users.id] is a primary key: the inner query has at most one
    row). *)
Definition matching_invitation (user_id : uuid) (verification_token : text)
    (s : session) (d : DB) : option user_invitation :=
  let user_email :=
    match find (fun au => au_id au =? user_id) (auth_users d) with
    | Some au => au_email au
    | None => None
    end in
  find (fun ui =>
          sql_eq String.eqb (Some (ui_email ui)) user_email
          && String.eqb (ui_invitation_token ui) verification_token
          && String.eqb (ui_status ui) "pending"
          && (now s <? ui_expires_at ui)%Z)
       (user_invitations d).

(** [unnest(v_invitation.roles) role_name JOIN roles r ON r.name = role_name] *)
Definition invited_roles (d : DB) (names : text_array) : list role :=
  flat_map (fun role_name =>
              filter (fun r => sql_eq String.eqb (Some (r_name r)) role_name) (roles d))
           names.

(** The rows [INSERT INTO user_roles (user_id, role_id, is_active)
    SELECT user_id, r.id, true ...] adds; the other columns take their
    defaults. *)
Definition granted_rows (user_id : uuid) (at_time : timestamptz)
    (ids : list uuid) (granted : list role) : list user_role :=
  map (fun p => {| ur_id := fst p; ur_user_id := user_id; ur_role_id := r_id (snd p);
                   ur_assigned_by := None; ur_assigned_at := Some at_time;
                   ur_expires_at := None; ur_is_active := Some true |})
      (combine ids granted).

Definition verify_user_email_variables : list text :=
  ["user_id"; "verification_token"; "v_invitation"].

(** [verify_user_email(user_id, verification_token)] *)
Definition verify_user_email {R} (user_id : uuid) (verification_token : text) : PG R bool :=
  v_invitation <- sql verify_user_email_variables
                    ["email"; "id"; "invitation_token"; "status"; "expires_at"]
                    (query (matching_invitation user_id verification_token)) ;;
  match v_invitation with
  | Some v_invitation =>   (* FOUND *)
      sql verify_user_email_variables ["status"; "id"]
        (statement (update_user_invitations_accepted (ui_id v_invitation))) ;;
      sql verify_user_email_variables ["raw_user_meta_data"; "id"]
        (statement (update_auth_users_email_verified user_id)) ;;
      sql verify_user_email_variables ["role_name"]
        (granted <- query (fun _ d => invited_roles d (ui_roles v_invitation)) ;;
         ids <- draw_many (List.length granted) ;;
         statement (fun s =>
           insert_user_roles (granted_rows user_id (now s) ids granted) s)) ;;
      ret true
  | None => ret false
  end.

(** ** The role assignment of the migration "Assign Admin Role to User" *)

Definition assign_admin_role_variables : list text := ["v_user_id"; "v_admin_role_id"].

(** [SELECT id FROM auth.users WHERE email = ...] into a variable: the
    first row found, NULL when there is none. *)
Definition select_user_id_by_email (mail : text) (d : DB) : option uuid :=
  option_map au_id
    (find (fun au => sql_eq String.eqb (au_email au) (Some mail)) (auth_users d)).

(** [SELECT id FROM roles WHERE name = ...] into a variable. *)
Definition select_role_id_by_name (name : text) (d : DB) : option uuid :=
  option_map r_id (find (fun r => String.eqb (r_name r) name) (roles d)).

Definition assign_admin_role {R} : PG R unit :=
  v_user_id <- sql assign_admin_role_variables ["id"; "email"]
                 (query (fun _ d => select_user_id_by_email "sam@reachloud.com" d)) ;;
  v_admin_role_id <- sql assign_admin_role_variables ["id"; "name"]
                       (query (fun _ d => select_role_id_by_name "admin" d)) ;;
  match v_user_id with
  | None => raise (raise_exception "User not found")
  | Some v_user_id =>
      match v_admin_role_id with
      | None => raise (raise_exception "Admin role not found")
      | Some v_admin_role_id =>
          (* Remove any existing role assignments for this user *)
          sql assign_admin_role_variables ["user_id"]
            (statement (delete_user_roles v_user_id)) ;;
          id <- gen_random_uuid ;;
          statement (fun s =>
            insert_user_roles
              [{| ur_id := id; ur_user_id := v_user_id; ur_role_id := v_admin_role_id;
                  ur_assigned_by := None; ur_assigned_at := Some (now s);
                  ur_expires_at := None; ur_is_active := Some true |}] s) ;;
          id <- gen_random_uuid ;;
          statement (fun s =>
            insert_role_transitions
              {| rt_id := id; rt_user_id := v_user_id; rt_old_role_id := None;
                 rt_new_role_id := v_admin_role_id; rt_changed_by := v_user_id;
                 rt_reason := Some "Initial admin role assignment";
                 rt_created_at := Some (now s) |} s)
      end
  end.

(** ** Successive calls *)

(** The history rows of one user, and the verses they record. *)
Definition history_of (u : uuid) (d : DB) : list verse_history_row :=
  filter (fun h => vh_user_id h =? u) (verse_history d).

Definition shown_ids (u : uuid) (d : DB) : list uuid :=
  map vh_verse_id (history_of u d).

(** Calls of [get_daily_verse] one after the other, each in its own
    transaction, by whichever callers the sessions name.  Every call is
    listed with its outcome. *)
Fixpoint daily_verse_calls (calls : list session) (d : DB)
  : list (session * outcome (verse_pick * list text)) * DB :=
  match calls with
  | [] => ([], d)
  | s :: rest =>
      let (o, d') := rpc get_daily_verse s d in
      let (evs, d'') := daily_verse_calls rest d' in
      ((s, o) :: evs, d'')
  end.

(** ** Closed forms *)

(** The invitations [invite_users] inserts for the addresses [es] when the
    first of them is processed after [start] random draws: two draws per
    address, the id and the token. *)
Fixpoint invitation_rows (s : session) (roles : text_array) (start : nat)
    (es : list text) : list user_invitation :=
  match es with
  | [] => []
  | e :: rest =>
      {| ui_id := entropy s start; ui_email := e; ui_invited_by := auth_uid s;
         ui_roles := roles; ui_status := "pending";
         ui_invitation_token := encode_hex 64 (N.of_nat (entropy s (S start)));
         ui_expires_at := (now s + interval_7_days)%Z;
         ui_created_at := Some (now s) |}
      :: invitation_rows s roles (S (S start)) rest
  end.

(** The inviter named by the session satisfies the foreign key
    [user_invitations.invited_by -> auth.users]. *)
Definition inviter_ok (s : session) (d : DB) : Prop :=
  forall u, auth_uid s = Some u -> user_exists d u = true.

(** The row [bulk_create_users] reports for an email whose block raised
    on the unqualified [email]. *)
Definition ambiguity_row (v_email : option text) : bulk_create_users_row :=
  {| email := v_email; status := "error";
     message := SQLERRM (ambiguous_column "email") |}.

(** What the two UPDATEs of [verify_user_email] and their triggers leave
    as it was. *)
Definition untouched_by_verification (d d' : DB) : Prop :=
  roles d' = roles d /\ user_roles d' = user_roles d
  /\ role_transitions d' = role_transitions d
  /\ forall u, user_exists d' u = user_exists d u.

(** ** Statements of the specification that the procedures are compared with *)

(** has_pending_invitation as the specification words it: true exactly
    when a pending invitation for the row's email exists that has not
    expired at time [t]. *)
Definition pending_flag_ignores_expired (view : DB -> list auth_users_view_row)
    (t : timestamptz) (d : DB) : Prop :=
  forall row, In row (view d) ->
    (v_has_pending_invitation row = true <->
     exists ui, In ui (user_invitations d) /\ Some (ui_email ui) = v_email row
                /\ ui_status ui = "pending" /\ (t < ui_expires_at ui)%Z).

(** Role change as the specification words it: every assignment of [u]
    that was active in [d] is still a row of [d'], now inactive. *)
Definition deactivated_not_deleted (u : uuid) (d d' : DB) : Prop :=
  forall ur, In ur (user_roles d) -> ur_user_id ur = u -> ur_is_active ur = Some true ->
    exists ur', In ur' (user_roles d') /\ ur_id ur' = ur_id ur
                /\ ur_is_active ur' = Some false.

(** Bulk invitation as the specification words it: the call completes and
    every email that names an address has its invitation in the database
    afterwards, whatever happens to the other emails. *)
Definition invited_independently (emails roles : text_array) (s : session) (d : DB)
  : Prop :=
  exists rows d',
    rpc (invite_users emails roles) s d = (Done (tt, rows), d')
    /\ forall e, In (Some e) emails ->
                 exists ui, In ui (user_invitations d') /\ ui_email ui = e.

(** ** Sample data

    The seed rows of the migrations and a few identities, for concrete
    runs. *)

Definition identity (id : uuid) (mail : text) : auth_user :=
  {| au_id := id; au_email := Some mail; au_raw_user_meta_data := None;
     au_created_at := Some 0%Z; au_last_sign_in_at := None;
     au_confirmed_at := Some 0%Z |}.

Definition alice : auth_user := identity 1 "alice@example.com".
Definition sam : auth_user := identity 2 "sam@reachloud.com".

Definition seeded_roles : list role :=
  [ {| r_id := 10; r_name := "admin"; r_description := Some "Full system access";
       r_level := 100 |};
    {| r_id := 11; r_name := "staff"; r_description := Some "Support access";
       r_level := 50 |};
    {| r_id := 12; r_name := "user"; r_description := Some "Standard user access";
       r_level := 10 |};
    {| r_id := 13; r_name := "guest"; r_description := Some "Limited access";
       r_level := 0 |} ].

Definition verse_001 : bible_verse :=
  {| bv_id := 21; bv_serial_number := "001";
     bv_verse_text := "Have I not commanded you? Be strong and courageous. Do not be afraid; do not be discouraged, for the Lord your God will be with you wherever you go. | Joshua 1:9" |}.

Definition verse_002 : bible_verse :=
  {| bv_id := 22; bv_serial_number := "002";
     bv_verse_text := "I can do all this through him who gives me strength. | Philippians 4:13" |}.

Definition verse_003 : bible_verse :=
  {| bv_id := 23; bv_serial_number := "003";
     bv_verse_text := "But those who hope in the Lord will renew their strength. They will soar on wings like eagles; they will run and not grow weary, they will walk and not be faint. | Isaiah 40:31" |}.

Definition seeded_verses : list bible_verse := [verse_001; verse_002; verse_003].

Definition assignment (id user_id role_id : uuid) (expires_at : option timestamptz)
  : user_role :=
  {| ur_id := id; ur_user_id := user_id; ur_role_id := role_id;
     ur_assigned_by := None; ur_assigned_at := Some 0%Z;
     ur_expires_at := expires_at; ur_is_active := Some true |}.

(** Two identities, the seeded roles and verses, the given assignments and
    invitations, no history, and the view as a refresh computes it. *)
Definition sample_db (assignments : list user_role) (invitations : list user_invitation)
  : DB :=
  refresh_auth_users_view
    {| auth_users := [alice; sam]; roles := seeded_roles; user_roles := assignments;
       role_transitions := []; user_invitations := invitations;
       bible_verses := seeded_verses; verse_history := []; auth_users_view := [] |}.

(** A pending invitation for alice that expired at time 50. *)
Definition stale_invitation : user_invitation :=
  {| ui_id := 61; ui_email := "alice@example.com"; ui_invited_by := Some 2;
     ui_roles := [Some "user"]; ui_status := "pending";
     ui_invitation_token := "5f2c"; ui_expires_at := 50;
     ui_created_at := Some (50 - interval_7_days)%Z |}.

(** Alice's row of the view once that invitation exists. *)
Definition alice_row : auth_users_view_row :=
  {| v_id := 1; v_email := Some "alice@example.com"; v_user_metadata := None;
     v_created_at := Some 0%Z; v_last_sign_in_at := None; v_confirmed_at := Some 0%Z;
     v_is_active := true; v_roles := []; v_has_pending_invitation := true |}.

(** A pending invitation for alice, valid until time 604800, that lists
    the role 'user' and a role name the [roles] table does not have. *)
Definition fresh_invitation : user_invitation :=
  {| ui_id := 62; ui_email := "alice@example.com"; ui_invited_by := Some 2;
     ui_roles := [Some "user"; Some "moderator"]; ui_status := "pending";
     ui_invitation_token := "c0ffee"; ui_expires_at := interval_7_days;
     ui_created_at := Some 0%Z |}.

(** A session of the given caller at the given time. *)
Definition session_of (caller : option uuid) (t : timestamptz) : session :=
  {| auth_uid := caller; now := t; entropy := fun n => 40 + n |}.

(** * More of the schema and its callers *)

(** ** Earlier definitions of [get_daily_verse], and [get_random_verse] *)

(** [INSERT INTO verse_history (user_id, verse_id) VALUES (...)] when the
    values may be NULL: both columns are NOT NULL. *)
Definition insert_verse_history_values (id : uuid) (user_id verse_id : option uuid)
  : session -> DB -> outcome (unit * DB) :=
  fun s d =>
    match user_id, verse_id with
    | None, _ => Raised (not_null_violation "verse_history" "user_id")
    | Some _, None => Raised (not_null_violation "verse_history" "verse_id")
    | Some u, Some v => insert_verse_history id u v s d
    end.

(** [NOT EXISTS (SELECT 1 FROM verse_history vh
                 WHERE vh.verse_id = bv.id AND vh.user_id = ...)]
    for a caller id that may be NULL. *)
Definition unshown_to (d : DB) (user_id : option uuid) (bv : bible_verse) : bool :=
  negb (existsb (fun vh =>
                   (vh_verse_id vh =? bv_id bv)
                   && sql_eq Nat.eqb (Some (vh_user_id vh)) user_id)
                (verse_history d)).

(** [DELETE FROM verse_history vh WHERE vh.user_id = ...] for a caller id
    that may be NULL. *)
Definition delete_verse_history_of (user_id : option uuid)
  : session -> DB -> outcome (unit * DB) :=
  fun _ d =>
    Done (tt, set_verse_history
                (filter (fun vh => negb (sql_eq Nat.eqb (Some (vh_user_id vh)) user_id))
                        (verse_history d)) d).

Definition get_daily_verse_tracking_variables : list text :=
  ["verse_text"; "user_id"; "selected_verse_id"; "selected_verse"].

(** [get_daily_verse()] as the migration "Verse Tracking System" first
    defines it.  Its variable [user_id] has the name of a column of
    [verse_history]: the first SELECT compares [vh.user_id] with an
    unqualified [user_id], and the DELETE is [WHERE user_id = user_id].
    It returns the selected text, NULL when nothing was selected. *)
Definition get_daily_verse_tracking : PG (option text) unit :=
  user_id <- query (fun s _ => auth_uid s) ;;
  r <- draw ;;
  first <- sql get_daily_verse_tracking_variables ["user_id"]
             (query (fun _ d =>
                random_row r (filter (unshown_to d user_id) (bible_verses d)))) ;;
  selected <-
    match first with
    | Some bv => ret (Some bv)
    | None =>
        sql get_daily_verse_tracking_variables ["user_id"; "user_id"]
          (statement (delete_verse_history_of user_id)) ;;
        r <- draw ;;
        query (fun _ d => random_row r (bible_verses d))
    end ;;
  id <- gen_random_uuid ;;
  statement (insert_verse_history_values id user_id (option_map bv_id selected)) ;;
  return_query [option_map bv_verse_text selected].

(** [get_daily_verse()] as the first migration "Fix Daily Verse Function"
    redefines it: the variable is renamed [current_user_id] and every
    column is qualified.  There is no test of the caller and none of the
    selected verse, and no exception handler. *)
Definition get_daily_verse_renamed : PG (option text) unit :=
  current_user_id <- query (fun s _ => auth_uid s) ;;
  r <- draw ;;
  first <- query (fun _ d =>
             random_row r (filter (unshown_to d current_user_id) (bible_verses d))) ;;
  selected <-
    match first with
    | Some bv => ret (Some bv)
    | None =>
        statement (delete_verse_history_of current_user_id) ;;
        r <- draw ;;
        query (fun _ d => random_row r (bible_verses d))
    end ;;
  id <- gen_random_uuid ;;
  statement (insert_verse_history_values id current_user_id
               (option_map bv_id selected)) ;;
  return_query [option_map bv_verse_text selected].

(** What a caller of the final [get_daily_verse] sees, in the shape of the
    earlier definitions: the rows as nullable text, no record of the
    selection. *)
Definition as_nullable_rows (r : outcome (verse_pick * list text) * DB)
  : outcome (unit * list (option text)) * DB :=
  match r with
  | (Done (_, out), d') => (Done (tt, map Some out), d')
  | (Raised e, d') => (Raised e, d')
  end.

(** [get_random_verse()], an SQL function:
    [SELECT verse_text FROM bible_verses
     OFFSET floor(random() * (SELECT COUNT(...) FROM bible_verses)) LIMIT 1].
    [random()] is below 1, so the offset is a row number below the count,
    whichever the random source designates. *)
Definition get_random_verse : PG text unit :=
  r <- draw ;;
  rows <- query (fun _ d =>
            firstn 1 (skipn (r mod List.length (bible_verses d))
                            (map bv_verse_text (bible_verses d)))) ;;
  return_query rows.

(** ** Integrity of the verse history *)

(** UNIQUE(user_id, verse_id) on [verse_history]. *)
Definition history_unique (d : DB) : Prop :=
  NoDup (map (fun h => (vh_user_id h, vh_verse_id h)) (verse_history d)).

(** The two foreign keys of [verse_history]. *)
Definition history_references (d : DB) : Prop :=
  forall h, In h (verse_history d) ->
            user_exists d (vh_user_id h) = true /\ verse_exists d (vh_verse_id h) = true.

(** Every table but [verse_history] is the same in both databases. *)
Definition only_verse_history_differs (d d' : DB) : Prop :=
  auth_users d' = auth_users d /\ roles d' = roles d
  /\ user_roles d' = user_roles d /\ role_transitions d' = role_transitions d
  /\ user_invitations d' = user_invitations d /\ bible_verses d' = bible_verses d
  /\ auth_users_view d' = auth_users_view d.

(** ** Row-level security on [user_roles] *)

(** The rows of [user_roles] a SELECT through the table API shows to the
    caller.  Two permissive policies apply to SELECT and are joined by OR:
    "Admins can manage user roles" (FOR ALL,
    [USING (has_role(auth.uid(), 'admin'))]) and "Users can view their own
    roles" ([USING (user_id = auth.uid())]). *)
Definition select_user_roles {R} : PG R (list user_role) :=
  uid <- query (fun s _ => auth_uid s) ;;
  admin <- has_role uid "admin" ;;
  query (fun _ d =>
    filter (fun ur => admin || sql_eq Nat.eqb (Some (ur_user_id ur)) uid)
           (user_roles d)).

(** ** The stored view and the tables it is computed from *)

(** The stored rows of [auth_users_view] are what a refresh would
    compute. *)
Definition view_fresh (d : DB) : Prop :=
  auth_users_view d = auth_users_view_query d.

(** The assignments of an identity, and whether one of them passes the
    filter [ur.is_active = true OR ur.is_active IS NULL]. *)
Definition assignments_of (d : DB) (id : uuid) : list user_role :=
  filter (fun ur => ur_user_id ur =? id) (user_roles d).

Definition not_inactive (ur : user_role) : bool :=
  match ur_is_active ur with
  | Some false => false
  | _ => true
  end.

(** ** Storage buckets *)

(** [storage.buckets], the columns the migrations write. *)
Record bucket := {
  b_id : text;
  b_name : text;
  b_public : option bool }.

(** [INSERT INTO storage.buckets (id, name, public) VALUES (...)];
    [id] is the primary key. *)
Definition insert_bucket (id name : text) (public : bool) (buckets : list bucket)
  : outcome (list bucket) :=
  if existsb (fun b => String.eqb (b_id b) id) buckets
  then Raised (unique_violation "buckets_pkey")
  else Done (buckets ++ [{| b_id := id; b_name := name; b_public := Some public |}]).

(** The migration "Add profile pictures support":
    [INSERT INTO storage.buckets (id, name, public)
     VALUES ('profile-pictures', 'profile-pictures', false)]. *)
Definition add_profile_pictures_bucket (buckets : list bucket) : outcome (list bucket) :=
  insert_bucket "profile-pictures" "profile-pictures" false buckets.

(** The block of the migrations "Storage configuration for profile
    pictures", "Fix Storage Policies for Book Covers" and "Add Audio
    Storage Configuration", for their bucket:
    [IF NOT EXISTS (SELECT 1 FROM storage.buckets WHERE id = ...) THEN
       INSERT INTO storage.buckets (id, name, public) VALUES (..., ..., true);
     END IF]. *)
Definition create_bucket_if_missing (id : text) (buckets : list bucket)
  : outcome (list bucket) :=
  if negb (existsb (fun b => String.eqb (b_id b) id) buckets)
  then insert_bucket id id true buckets
  else Done buckets.

(** The block of the migrations "Profile Pictures Storage Setup" and
    "Storage Configuration for Profile Pictures":
    [IF NOT EXISTS (...) THEN INSERT ... VALUES (..., ..., true);
     ELSE UPDATE storage.buckets SET public = true WHERE id = ...;
     END IF]. *)
Definition create_or_publish_bucket (id : text) (buckets : list bucket)
  : outcome (list bucket) :=
  if negb (existsb (fun b => String.eqb (b_id b) id) buckets)
  then insert_bucket id id true buckets
  else Done (map (fun b => if String.eqb (b_id b) id
                           then {| b_id := b_id b; b_name := b_name b;
                                   b_public := Some true |}
                           else b) buckets).

(** Whether a bucket of that id exists and is public. *)
Definition bucket_public (id : text) (buckets : list bucket) : bool :=
  existsb (fun b => String.eqb (b_id b) id && is_true (b_public b)) buckets.

(** ** The database after a successful verification *)

(** What [verify_user_email] leaves when it finds [v_invitation] and can
    insert the assignments [rows]: the invitation accepted, the identity
    marked verified, the assignments added, the view refreshed. *)
Definition after_verification (user_id : uuid) (v_invitation : user_invitation)
    (rows : list user_role) (d : DB) : DB :=
  refresh_auth_users_view
    (set_user_roles (user_roles d ++ rows)
       (set_auth_users
          (map (fun au => if au_id au =? user_id then verified au else au)
               (auth_users d))
          (set_user_invitations
             (map (fun ui => if ui_id ui =? ui_id v_invitation
                             then with_status "accepted" ui else ui)
                  (user_invitations d)) d))).

(** The assignments [verify_user_email] inserts for [v_invitation], with
    the ids the session's random source gives them. *)
Definition grants_of (user_id : uuid) (v_invitation : user_invitation)
    (s : session) (d : DB) : list user_role :=
  let granted := invited_roles d (ui_roles v_invitation) in
  granted_rows user_id (now s) (map (entropy s) (seq 0 (List.length granted))) granted.

(** * The application code around the procedures *)

(** ** The daily verse on the home screen *)

(** [getDailyVerse()]:
    [const { data, error } = await supabase.rpc('get_daily_verse').single()].
    [single()] gives the one row of the result as [data], and an [error]
    when the call raised or the result is not exactly one row.  An error
    is thrown and caught, and the function returns null; otherwise it
    returns [data?.verse_text || null], which is null for an empty text. *)
Definition getDailyVerse (s : session) (d : DB) : option text :=
  match fst (rpc get_daily_verse s d) with
  | Done (_, [verse_text]) =>
      match verse_text with
      | EmptyString => None
      | _ => Some verse_text
      end
  | _ => None
  end.

(** ** JavaScript strings and regular expressions *)

Module JS.

(** A JavaScript string: its UTF-16 code units. *)
Definition js_string := list N.

(** The code units [String.prototype.trim] strips and [\s] matches:
    WhiteSpace and LineTerminator. *)
Definition is_white_space (c : N) : bool :=
  ((9 <=? c) && (c <=? 13) || (c =? 32) || (c =? 160) || (c =? 5760)
   || (8192 <=? c) && (c <=? 8202) || (c =? 8232) || (c =? 8233) || (c =? 8239)
   || (c =? 8287) || (c =? 12288) || (c =? 65279))%N.

Fixpoint trim_start (s : js_string) : js_string :=
  match s with
  | c :: rest => if is_white_space c then trim_start rest else s
  | [] => []
  end.

(** [s.trim()] *)
Definition trim (s : js_string) : js_string :=
  rev (trim_start (rev (trim_start s))).

(** [s.split(sep)] for a separator of one code unit: the pieces between
    the separators, one piece more than there are separators. *)
Fixpoint split (sep : N) (s : js_string) : list js_string :=
  match s with
  | [] => [[]]
  | c :: rest =>
      if (c =? sep)%N then [] :: split sep rest
      else match split sep rest with
           | piece :: pieces => (c :: piece) :: pieces
           | [] => [[c]]
           end
  end.

(** A regular expression without groups or references. *)
Inductive regex :=
| Never
| Empty
| Unit (accepts : N -> bool)
| Seq (r1 r2 : regex)
| Alt (r1 r2 : regex)
| Star (r : regex).

(** [r+] *)
Definition Plus (r : regex) : regex := Seq r (Star r).

Fixpoint nullable (r : regex) : bool :=
  match r with
  | Never => false
  | Empty => true
  | Unit _ => false
  | Seq r1 r2 => nullable r1 && nullable r2
  | Alt r1 r2 => nullable r1 || nullable r2
  | Star _ => true
  end.

(** What is left of [r] to match once [c] has been read. *)
Fixpoint after_unit (c : N) (r : regex) : regex :=
  match r with
  | Never | Empty => Never
  | Unit accepts => if accepts c then Empty else Never
  | Seq r1 r2 =>
      if nullable r1
      then Alt (Seq (after_unit c r1) r2) (after_unit c r2)
      else Seq (after_unit c r1) r2
  | Alt r1 r2 => Alt (after_unit c r1) (after_unit c r2)
  | Star r1 => Seq (after_unit c r1) (Star r1)
  end.

(** [/^r$/.test(s)]: the whole of [s] matches [r]. *)
Definition test (r : regex) (s : js_string) : bool :=
  nullable (fold_left (fun r c => after_unit c r) s r).

(** The strings a regular expression matches in full. *)
Inductive matches : regex -> js_string -> Prop :=
| matches_empty : matches Empty []
| matches_unit accepts c : accepts c = true -> matches (Unit accepts) [c]
| matches_seq r1 r2 s1 s2 :
    matches r1 s1 -> matches r2 s2 -> matches (Seq r1 r2) (s1 ++ s2)
| matches_left r1 r2 s : matches r1 s -> matches (Alt r1 r2) s
| matches_right r1 r2 s : matches r2 s -> matches (Alt r1 r2) s
| matches_none r : matches (Star r) []
| matches_more r s1 s2 :
    matches r s1 -> matches (Star r) s2 -> matches (Star r) (s1 ++ s2).

End JS.

(** What [formatVerse] returns; a field that the destructuring leaves
    undefined is [None]. *)
Record verse_parts := {
  vp_text : option JS.js_string;
  vp_reference : option JS.js_string }.

(** [formatVerse(verse)]:
    [if (!verse) return { text: '', reference: '' };
     const [text, reference] = verse.split('|').map(s => s.trim());
     return { text, reference };] *)
Definition formatVerse (verse : option JS.js_string) : verse_parts :=
  match verse with
  | None | Some [] => {| vp_text := Some []; vp_reference := Some [] |}
  | Some v =>
      let parts := map JS.trim (JS.split 124 v) in
      {| vp_text := nth_error parts 0; vp_reference := nth_error parts 1 |}
  end.

(** ** The bulk invitation screen *)

(** The form of the screen. *)
Record BulkUserForm := {
  form_emails : JS.js_string;
  form_roles : list text }.

(** [toggleRole(role)], as the update of the form:
    [roles: prev.roles.includes(role)
       ? prev.roles.filter(r => r !== role) : [...prev.roles, role]]. *)
Definition toggleRole (role : text) (prev : BulkUserForm) : BulkUserForm :=
  {| form_emails := form_emails prev;
     form_roles :=
       if existsb (String.eqb role) (form_roles prev)
       then filter (fun r => negb (String.eqb r role)) (form_roles prev)
       else form_roles prev ++ [role] |}.

(** [[^\s@]] *)
Definition not_space_or_at (c : N) : bool :=
  negb (JS.is_white_space c) && negb (c =? 64)%N.

(** [emailRegex = /^[^\s@]+@[^\s@]+\.[^\s@]+$/] *)
Definition emailRegex : JS.regex :=
  JS.Seq (JS.Plus (JS.Unit not_space_or_at))
    (JS.Seq (JS.Unit (N.eqb 64))
       (JS.Seq (JS.Plus (JS.Unit not_space_or_at))
          (JS.Seq (JS.Unit (N.eqb 46)) (JS.Plus (JS.Unit not_space_or_at))))).

(** [validateEmails(emails)]:
    [emails.every(email => emailRegex.test(email.trim()))] *)
Definition validateEmails (emails : list JS.js_string) : bool :=
  forallb (fun email => JS.test emailRegex (JS.trim email)) emails.

(** The start of [handleCreateUsers]:
    [formData.emails.split('\n').map(email => email.trim())
       .filter(email => email.length > 0)]. *)
Definition entered_emails (form : BulkUserForm) : list JS.js_string :=
  filter (fun email => 0 <? List.length email)
         (map JS.trim (JS.split 10 (form_emails form))).

(** What [handleCreateUsers] does with the form before it contacts the
    server: one of its two error messages, or the addresses it goes on to
    process. *)
Inductive submission :=
| Refused (error : text)
| Submitted (emails : list JS.js_string).

Definition handleCreateUsers_checks (form : BulkUserForm) : submission :=
  let emails := entered_emails form in
  if List.length emails =? 0
  then Refused "Please enter at least one email address"
  else if negb (validateEmails emails)
       then Refused "One or more email addresses are invalid"
       else Submitted emails.

(** [AVAILABLE_ROLES], the roles the screen offers, and the form it
    starts with. *)
Definition AVAILABLE_ROLES : list text := ["admin"; "editor"; "user"].

Definition initial_form : BulkUserForm :=
  {| form_emails := []; form_roles := ["user"] |}.

(** What the user does on the screen before sending: press the button of
    a role, or edit the addresses
    ([setFormData(prev => ({ ...prev, emails: text }))]). *)
Inductive form_action :=
| PressRole (role : text)
| ChangeText (emails : JS.js_string).

Definition form_step (prev : BulkUserForm) (a : form_action) : BulkUserForm :=
  match a with
  | PressRole role => toggleRole role prev
  | ChangeText emails => {| form_emails := emails; form_roles := form_roles prev |}
  end.

Definition form_after (actions : list form_action) : BulkUserForm :=
  fold_left form_step actions initial_form.

(** [CONSTRAINT valid_role_name CHECK (name IN ('admin', 'staff', 'user',
    'guest'))] on [roles]. *)
Definition valid_role_name (name : text) : bool :=
  existsb (String.eqb name) ["admin"; "staff"; "user"; "guest"].

Definition roles_valid (d : DB) : Prop :=
  forall r, In r (roles d) -> valid_role_name (r_name r) = true.

(** * Properties *)

(** ** The monad *)

(** Running a procedure on an explicit state: unfold the monad. *)
Ltac pg_run :=
  cbv beta iota delta
    [rpc bind ret raise query statement draw return_query begin_exception
     gen_random_uuid st_db st_draws st_out fst snd].

(** Resolving the column references of the embedded commands of a
    function whose variables are [vars]. *)
Ltac sql_run vars :=
  cbv beta iota fix delta
    [sql vars find existsb String.eqb Ascii.eqb Bool.eqb orb andb].

Lemma rpc_query {R A} (q : session -> DB -> A) s d :
  rpc (R := R) (query q) s d = (Done (q s d, []), d).
Proof. reflexivity. Qed.

(** ** Access checks *)

(** [has_admin_access] looks for an active admin assignment of the caller
    and reads nothing else of the row. *)
Lemma has_admin_access_true_iff {R} s d :
  rpc (R := R) has_admin_access s d = (Done (true, []), d) <->
  exists ur r,
    In ur (user_roles d) /\ In r (roles d) /\ r_id r = ur_role_id ur
    /\ auth_uid s = Some (ur_user_id ur) /\ r_name r = "admin"
    /\ ur_is_active ur = Some true.
Proof.
  unfold has_admin_access. rewrite rpc_query. split.
  - intros H. injection H as H. apply existsb_exists in H as (ur & Hur & H).
    apply existsb_exists in H as (r & Hr & H).
    repeat (apply andb_prop in H as [H ?]).
    exists ur, r. repeat split; auto.
    + now apply Nat.eqb_eq.
    + destruct (auth_uid s) as [u|]; simpl in *; try discriminate.
      f_equal. symmetry. now apply Nat.eqb_eq.
    + now apply String.eqb_eq.
    + destruct (ur_is_active ur) as [[|]|]; simpl in *; congruence.
  - intros (ur & r & Hur & Hr & E1 & E2 & E3 & E4).
    do 2 f_equal. f_equal.
    apply existsb_exists. exists ur. split; auto.
    apply existsb_exists. exists r. split; auto.
    rewrite E2, E3, E4, E1. simpl. now rewrite !Nat.eqb_refl.
Qed.

(** [has_role] also requires the assignment to be unexpired. *)
Lemma has_role_true_iff {R} u name s d :
  rpc (R := R) (has_role (Some u) name) s d = (Done (true, []), d) <->
  exists ur r,
    In ur (user_roles d) /\ In r (roles d) /\ r_id r = ur_role_id ur
    /\ ur_user_id ur = u /\ r_name r = name
    /\ ur_is_active ur = Some true
    /\ (ur_expires_at ur = None \/ exists t, ur_expires_at ur = Some t /\ (now s < t)%Z).
Proof.
  unfold has_role. rewrite rpc_query. split.
  - intros H. injection H as H. apply existsb_exists in H as (ur & Hur & H).
    apply existsb_exists in H as (r & Hr & H).
    repeat (apply andb_prop in H as [H ?]).
    exists ur, r. repeat split; auto.
    + now apply Nat.eqb_eq.
    + simpl in *. now apply Nat.eqb_eq.
    + now apply String.eqb_eq.
    + destruct (ur_is_active ur) as [[|]|]; simpl in *; congruence.
    + destruct (ur_expires_at ur) as [t|]; [right | now left].
      exists t. split; auto. now apply Z.ltb_lt.
  - intros (ur & r & Hur & Hr & E1 & E2 & E3 & E4 & E5).
    do 2 f_equal. f_equal.
    apply existsb_exists. exists ur. split; auto.
    apply existsb_exists. exists r. split; auto.
    rewrite E2, E3, E4, E1. simpl. rewrite !Nat.eqb_refl, String.eqb_refl. simpl.
    destruct E5 as [-> | (t & -> & Ht)]; auto. now apply Z.ltb_lt.
Qed.

(** [get_users] is gated by [has_admin_access] and by nothing else. *)
Lemma get_users_gate s d :
  rpc get_users s d =
  match rpc (R := auth_users_view_row) has_admin_access s d with
  | (Done (true, _), _) => (Done (tt, auth_users_view d), d)
  | _ => (Raised (raise_exception "Access denied"), d)
  end.
Proof.
  unfold get_users, has_admin_access, rpc, bind, query. simpl.
  destruct (existsb _ _); reflexivity.
Qed.

(** An unexpired active admin assignment passes both checks. *)
Lemma effective_admin_has_access {R} s d :
  rpc (R := R) (has_role (auth_uid s) "admin") s d = (Done (true, []), d) ->
  rpc (R := R) has_admin_access s d = (Done (true, []), d).
Proof.
  destruct (auth_uid s) as [u|] eqn:Hu.
  - intros H. apply has_role_true_iff in H as (ur & r & H1 & H2 & H3 & H4 & H5 & H6 & _).
    apply has_admin_access_true_iff. exists ur, r. repeat split; auto. congruence.
  - unfold has_role. rewrite rpc_query. intros H. injection H as H.
    apply existsb_exists in H as (ur & _ & H). apply existsb_exists in H as (r & _ & H).
    rewrite andb_false_r in H. simpl in H. discriminate.
Qed.

Lemma get_users_effective_admin s d :
  rpc (R := auth_users_view_row) (has_role (auth_uid s) "admin") s d
  = (Done (true, []), d) ->
  rpc get_users s d = (Done (tt, auth_users_view d), d).
Proof.
  intros H. apply effective_admin_has_access in H. now rewrite get_users_gate, H.
Qed.

Lemma get_users_no_active_admin s d :
  rpc (R := auth_users_view_row) has_admin_access s d = (Done (false, []), d) ->
  rpc get_users s d = (Raised (raise_exception "Access denied"), d).
Proof. intros H. now rewrite get_users_gate, H. Qed.

(** C1. An admin assignment whose [expires_at] is in the past still counts
    toward [has_admin_access()] when [is_active] is true.  Alice's only
    assignment is the admin role, active, expired at 50; at time 100
    [has_admin_access()] answers true for her, where
    [has_role(auth.uid(), 'admin')] answers false. *)
Theorem has_admin_access_counts_expired_assignment :
  let d := sample_db [assignment 31 1 10 (Some 50%Z)] [] in
  let s := session_of (Some 1) 100 in
  (forall ur, In ur (user_roles d) ->
              exists t, ur_expires_at ur = Some t /\ (t < now s)%Z)
  /\ rpc (R := unit) has_admin_access s d = (Done (true, []), d)
  /\ rpc (R := unit) (has_role (auth_uid s) "admin") s d = (Done (false, []), d).
Proof.
  intros d s. split; [|split]; try reflexivity.
  intros ur [<-|[]]. exists 50%Z. split; [reflexivity | simpl; lia].
Qed.

(** C4. [get_users()] serves a caller who has no effective admin role.
    With alice's only admin assignment expired (as above) the call does
    not raise 'Access denied': it returns every row of the view. *)
Theorem get_users_serves_expired_admin :
  let d := sample_db [assignment 31 1 10 (Some 50%Z)] [] in
  let s := session_of (Some 1) 100 in
  rpc (R := auth_users_view_row) (has_role (auth_uid s) "admin") s d
  = (Done (false, []), d)
  /\ rpc get_users s d = (Done (tt, auth_users_view d), d)
  /\ List.length (auth_users_view d) = 2.
Proof. intros d s. repeat split. Qed.

(** ** The directory view *)

Lemma view_has_pending_invitation_iff d au :
  view_has_pending_invitation d au = true <->
  exists ui, In ui (user_invitations d) /\ Some (ui_email ui) = au_email au
             /\ ui_status ui = "pending".
Proof.
  unfold view_has_pending_invitation. rewrite existsb_exists.
  split; intros (ui & H & E); exists ui; split; auto.
  - apply andb_prop in E as [E1 E2]. apply String.eqb_eq in E2. split; auto.
    destruct (au_email au) as [m|]; simpl in E1; [|discriminate].
    apply String.eqb_eq in E1. now subst.
  - destruct E as [E1 E2]. rewrite <- E1, E2. simpl. now rewrite !String.eqb_refl.
Qed.

(** Every row of either definition of the view carries the email of its
    identity and the pending flag computed for it. *)
Lemma view_row_origin d row :
  In row (auth_users_view_query d) \/ In row (auth_users_view_query_enhancement d) ->
  exists au, In au (auth_users d) /\ v_email row = au_email au
             /\ v_has_pending_invitation row = view_has_pending_invitation d au.
Proof.
  intros [H|H].
  - unfold auth_users_view_query in H. apply in_map_iff in H as (au & <- & Hau).
    exists au. simpl. auto.
  - unfold auth_users_view_query_enhancement in H.
    apply in_flat_map in H as (au & Hau & H).
    destruct (filter _ _); [destruct H|].
    destruct H as [<-|[]]. exists au. simpl. auto.
Qed.

(** What the view computes, in both of its definitions: in every row
    [has_pending_invitation] is true exactly when an invitation with
    status 'pending' exists for the row's email; [expires_at] is not
    consulted. *)
Theorem has_pending_invitation_iff_pending_status :
  forall (d : DB) (row : auth_users_view_row),
    In row (auth_users_view (refresh_auth_users_view d))
    \/ In row (auth_users_view_query_enhancement d) ->
    (v_has_pending_invitation row = true <->
     exists ui, In ui (user_invitations d) /\ Some (ui_email ui) = v_email row
                /\ ui_status ui = "pending").
Proof.
  intros d row H.
  destruct (view_row_origin d row H) as (au & _ & -> & ->).
  apply view_has_pending_invitation_iff.
Qed.

Lemma has_pending_invitation_iff_pending_status_witness :
  v_has_pending_invitation alice_row = true <->
  exists ui, In ui (user_invitations (sample_db [] [stale_invitation]))
             /\ Some (ui_email ui) = v_email alice_row
             /\ ui_status ui = "pending".
Proof.
  apply (has_pending_invitation_iff_pending_status
           (sample_db [] [stale_invitation]) alice_row).
  left. vm_compute. left. reflexivity.
Defined.

(** C9. An invitation whose [expires_at] is in the past still sets
    [has_pending_invitation].  Alice's only invitation is pending and
    expired at 50; at time 100 her row of the rebuilt view has the flag
    set, so the view does not compute the flag from the invitations that
    have not expired: its EXISTS tests the email and the status and never
    reads [expires_at], where [verify_user_email] adds
    [expires_at > now()] to the same tests and refuses that
    invitation. *)
Lemma has_pending_invitation_counts_expired :
  ~ pending_flag_ignores_expired
      (fun d => auth_users_view (refresh_auth_users_view d)) 100
      (sample_db [] [stale_invitation]).
Proof.
  intros H. destruct (H alice_row) as [H1 _].
  { vm_compute. left. reflexivity. }
  destruct (H1 eq_refl) as (ui & Hin & _ & _ & Ht).
  destruct Hin as [<-|[]]. simpl in Ht. lia.
Qed.

(** ** Verse rotation *)

(** One call of [get_daily_verse], branch by branch. *)
Lemma get_daily_verse_rpc s d :
  rpc get_daily_verse s d =
  match auth_uid s with
  | None => (Raised (raise_exception "User not authenticated"), d)
  | Some u =>
      match random_row (entropy s 0) (filter (unshown d u) (bible_verses d)) with
      | Some v =>
          match insert_verse_history (entropy s 1) u (bv_id v) s d with
          | Done (_, d') => (Done (pick_of v false, [bv_verse_text v]), d')
          | Raised e => (Raised e, d)
          end
      | None =>
          match random_row (entropy s 1) (bible_verses d) with
          | None => (Raised (raise_exception "No verses available"), d)
          | Some v =>
              match insert_verse_history (entropy s 2) u (bv_id v) s
                      (set_verse_history
                         (filter (fun h => negb (vh_user_id h =? u)) (verse_history d)) d)
              with
              | Done (_, d') => (Done (pick_of v true, [bv_verse_text v]), d')
              | Raised e => (Raised e, d)
              end
          end
      end
  end.
Proof.
  unfold get_daily_verse, delete_verse_history. pg_run.
  destruct (auth_uid s) as [u|]; [|reflexivity].
  destruct (random_row (entropy s 0) _) as [v|].
  - destruct (insert_verse_history _ _ _ _ _) as [[[] d']|e]; reflexivity.
  - destruct (random_row (entropy s 1) _) as [v|].
    + destruct (insert_verse_history _ _ _ _ _) as [[[] d']|e]; reflexivity.
    + reflexivity.
Qed.

Lemma random_row_In {A} r (rows : list A) x : random_row r rows = Some x -> In x rows.
Proof. apply nth_error_In. Qed.

Lemma random_row_some {A} r (rows : list A) :
  rows <> [] -> exists x, random_row r rows = Some x.
Proof.
  intros H. unfold random_row.
  destruct (nth_error rows (r mod List.length rows)) as [x|] eqn:E; [now exists x|].
  apply nth_error_None in E. destruct rows as [|a rows]; [congruence|].
  pose proof (Nat.mod_upper_bound r (List.length (a :: rows))) as B.
  simpl in *. lia.
Qed.

Lemma random_row_nil {A} r : random_row r (@nil A) = None.
Proof. unfold random_row. now destruct (r mod _). Qed.

Lemma In_shown_ids u d x :
  In x (shown_ids u d) <->
  exists h, In h (verse_history d) /\ vh_user_id h = u /\ vh_verse_id h = x.
Proof.
  unfold shown_ids, history_of. rewrite in_map_iff. split.
  - intros (h & E & H). apply filter_In in H as [H1 H2]. apply Nat.eqb_eq in H2. eauto.
  - intros (h & H & E1 & E2). exists h. split; auto.
    apply filter_In. split; auto. now apply Nat.eqb_eq.
Qed.

(** The UNIQUE(user_id, verse_id) test finds exactly the recorded verses. *)
Lemma unique_test_shown d u x :
  existsb (fun h => (vh_user_id h =? u) && (vh_verse_id h =? x)) (verse_history d) = true
  <-> In x (shown_ids u d).
Proof.
  rewrite In_shown_ids, existsb_exists. split.
  - intros (h & H & E). apply andb_prop in E as [E1 E2].
    apply Nat.eqb_eq in E1, E2. eauto.
  - intros (h & H & E1 & E2). exists h. split; auto.
    subst. now rewrite !Nat.eqb_refl.
Qed.

(** The selection query keeps exactly the verses not yet recorded. *)
Lemma unshown_iff d u v : unshown d u v = true <-> ~ In (bv_id v) (shown_ids u d).
Proof.
  unfold unshown. rewrite negb_true_iff, <- not_true_iff_false.
  rewrite In_shown_ids, existsb_exists. split; intros H C; apply H.
  - destruct C as (h & Hh & E1 & E2). exists h. split; auto.
    subst. rewrite E2. now rewrite !Nat.eqb_refl.
  - destruct C as (h & Hh & E). apply andb_prop in E as [E1 E2].
    apply Nat.eqb_eq in E1, E2. eauto.
Qed.

Lemma shown_ids_insert u d row :
  shown_ids u (set_verse_history (verse_history d ++ [row]) d) =
  if vh_user_id row =? u then shown_ids u d ++ [vh_verse_id row] else shown_ids u d.
Proof.
  unfold shown_ids, history_of. simpl. rewrite filter_app. simpl.
  destruct (vh_user_id row =? u); [now rewrite map_app | now rewrite app_nil_r].
Qed.

Lemma shown_ids_delete_same u d :
  shown_ids u (set_verse_history
                 (filter (fun h => negb (vh_user_id h =? u)) (verse_history d)) d) = [].
Proof.
  unfold shown_ids, history_of. simpl.
  induction (verse_history d) as [|h l IH]; simpl; auto.
  destruct (vh_user_id h =? u) eqn:E; simpl; auto. now rewrite E.
Qed.

Lemma shown_ids_delete_other u u' d :
  u' <> u ->
  shown_ids u' (set_verse_history
                  (filter (fun h => negb (vh_user_id h =? u)) (verse_history d)) d)
  = shown_ids u' d.
Proof.
  intros N. unfold shown_ids, history_of. simpl. f_equal.
  induction (verse_history d) as [|h l IH]; simpl; auto.
  destruct (vh_user_id h =? u) eqn:E; simpl.
  - apply Nat.eqb_eq in E. destruct (vh_user_id h =? u') eqn:E'; auto.
    apply Nat.eqb_eq in E'. congruence.
  - destruct (vh_user_id h =? u'); simpl; now rewrite IH.
Qed.

Lemma verse_exists_In d v : In v (bible_verses d) -> verse_exists d (bv_id v) = true.
Proof.
  intros H. apply existsb_exists. exists v. split; auto. apply Nat.eqb_refl.
Qed.

(** What a successful INSERT into [verse_history] did. *)
Lemma insert_verse_history_done id u x s d d' :
  insert_verse_history id u x s d = Done (tt, d') ->
  ~ In x (shown_ids u d)
  /\ d' = set_verse_history
            (verse_history d
             ++ [{| vh_id := id; vh_user_id := u; vh_verse_id := x;
                    vh_shown_at := Some (now s) |}]) d.
Proof.
  unfold insert_verse_history.
  destruct (existsb _ (verse_history d)) eqn:E; [discriminate|].
  destruct (user_exists d u); [|discriminate].
  destruct (verse_exists d x); [|discriminate].
  simpl. intros H. injection H as <-. split; auto.
  intros C. apply unique_test_shown in C. congruence.
Qed.

(** When it succeeds. *)
Lemma insert_verse_history_ok id u x s d :
  ~ In x (shown_ids u d) -> user_exists d u = true -> verse_exists d x = true ->
  exists d', insert_verse_history id u x s d = Done (tt, d').
Proof.
  intros H1 H2 H3. unfold insert_verse_history.
  destruct (existsb _ (verse_history d)) eqn:E.
  - apply unique_test_shown in E. contradiction.
  - rewrite H2, H3. simpl. eauto.
Qed.

(** The UNIQUE(user_id, verse_id) constraint: a verse already recorded for
    a user cannot be recorded again. *)
Lemma insert_verse_history_duplicate id u x s d :
  In x (shown_ids u d) ->
  insert_verse_history id u x s d
  = Raised (unique_violation "verse_history_user_id_verse_id_key").
Proof.
  intros H. apply unique_test_shown in H. unfold insert_verse_history. now rewrite H.
Qed.

(** A successful call, seen from the history of every user. *)
Lemma get_daily_verse_step s d u p out d' :
  auth_uid s = Some u ->
  rpc get_daily_verse s d = (Done (p, out), d') ->
  (exists v, In v (bible_verses d) /\ p = pick_of v (history_reset p)
             /\ out = [bv_verse_text v])
  /\ bible_verses d' = bible_verses d
  /\ auth_users d' = auth_users d
  /\ (forall u', u' <> u -> shown_ids u' d' = shown_ids u' d)
  /\ (if history_reset p
      then filter (unshown d u) (bible_verses d) = []
           /\ shown_ids u d' = [selected_verse_id p]
      else ~ In (selected_verse_id p) (shown_ids u d)
           /\ shown_ids u d' = shown_ids u d ++ [selected_verse_id p]).
Proof.
  intros Hu. rewrite get_daily_verse_rpc, Hu.
  destruct (random_row (entropy s 0) _) as [v|] eqn:E1.
  - destruct (insert_verse_history _ _ _ _ _) as [[[] d1]|e] eqn:E2; [|discriminate].
    intros H. injection H as <- <- <-.
    apply insert_verse_history_done in E2 as [N ->].
    apply random_row_In, filter_In in E1 as [I _].
    repeat split; simpl; eauto.
    + intros u' Hn. rewrite shown_ids_insert. simpl.
      destruct (u =? u') eqn:E; auto. apply Nat.eqb_eq in E. congruence.
    + rewrite shown_ids_insert. simpl. now rewrite Nat.eqb_refl.
  - destruct (random_row (entropy s 1) _) as [v|] eqn:E3; [|discriminate].
    destruct (insert_verse_history _ _ _ _ _) as [[[] d1]|e] eqn:E2; [|discriminate].
    intros H. injection H as <- <- <-.
    apply insert_verse_history_done in E2 as [N E2].
    apply random_row_In in E3.
    set (dx := set_verse_history _ d) in *.
    assert (Hs : forall w, shown_ids w d1 =
                           if u =? w then shown_ids w dx ++ [bv_id v] else shown_ids w dx).
    { intros w. rewrite E2. apply shown_ids_insert. }
    repeat split; simpl; eauto; try (rewrite E2; reflexivity).
    + intros u' Hn. rewrite Hs.
      destruct (u =? u') eqn:E; [apply Nat.eqb_eq in E; congruence|].
      now apply shown_ids_delete_other.
    + destruct (filter (unshown d u) (bible_verses d)) as [|a l] eqn:F; auto.
      destruct (random_row_some (entropy s 0) (a :: l)) as [x Hx]; congruence.
    + rewrite Hs, Nat.eqb_refl. unfold dx.
      now rewrite shown_ids_delete_same.
Qed.

Lemma filter_nil_iff {A} (f : A -> bool) l :
  filter f l = [] <-> forall x, In x l -> f x = false.
Proof.
  induction l as [|a l IH]; simpl.
  - split; auto. intros _ x [].
  - destruct (f a) eqn:E; split.
    + discriminate.
    + intros H. specialize (H a (or_introl eq_refl)). congruence.
    + intros H x [<-|Hx]; auto. now apply IH.
    + intros H. apply IH. auto.
Qed.

(** While some verse is unrecorded the first SELECT finds one and the call
    succeeds without touching the reset branch. *)
Lemma get_daily_verse_unshown s d u :
  auth_uid s = Some u -> user_exists d u = true ->
  filter (unshown d u) (bible_verses d) <> [] ->
  exists v d',
    In v (bible_verses d) /\ ~ In (bv_id v) (shown_ids u d)
    /\ rpc get_daily_verse s d = (Done (pick_of v false, [bv_verse_text v]), d').
Proof.
  intros Hu He Hf. rewrite get_daily_verse_rpc, Hu.
  destruct (random_row_some (entropy s 0) _ Hf) as [v Hv]. rewrite Hv.
  apply random_row_In, filter_In in Hv as [Hv1 Hv2]. apply unshown_iff in Hv2.
  destruct (insert_verse_history_ok (entropy s 1) u (bv_id v) s d) as [d' Hd]; auto.
  { now apply verse_exists_In. }
  rewrite Hd. eauto.
Qed.

(** Once every verse is recorded the call deletes the caller's history,
    selects from the whole table and succeeds. *)
Lemma get_daily_verse_exhausted s d u :
  auth_uid s = Some u -> user_exists d u = true ->
  bible_verses d <> [] ->
  filter (unshown d u) (bible_verses d) = [] ->
  exists v d',
    random_row (entropy s 1) (bible_verses d) = Some v
    /\ rpc get_daily_verse s d = (Done (pick_of v true, [bv_verse_text v]), d').
Proof.
  intros Hu He Hn Hf. rewrite get_daily_verse_rpc, Hu, Hf, random_row_nil.
  destruct (random_row_some (entropy s 1) _ Hn) as [v Hv]. rewrite Hv.
  set (dx := set_verse_history _ d).
  destruct (insert_verse_history_ok (entropy s 2) u (bv_id v) s dx) as [d' Hd]; auto.
  - unfold dx. rewrite shown_ids_delete_same. auto.
  - apply random_row_In in Hv. now apply (verse_exists_In d).
  - rewrite Hd. eauto.
Qed.

Lemma unshown_nonempty d u :
  NoDup (map bv_id (bible_verses d)) ->
  List.length (shown_ids u d) < List.length (bible_verses d) ->
  filter (unshown d u) (bible_verses d) <> [].
Proof.
  intros Hnd Hlt Hf.
  assert (I : incl (map bv_id (bible_verses d)) (shown_ids u d)).
  { intros x Hx. apply in_map_iff in Hx as (v & <- & Hv).
    pose proof (proj1 (filter_nil_iff _ _) Hf v Hv) as F.
    destruct (in_dec Nat.eq_dec (bv_id v) (shown_ids u d)) as [|N]; auto.
    apply unshown_iff in N. congruence. }
  apply NoDup_incl_length in I; auto. rewrite length_map in I. lia.
Qed.

Lemma unshown_empty d u :
  NoDup (shown_ids u d) ->
  incl (shown_ids u d) (map bv_id (bible_verses d)) ->
  List.length (shown_ids u d) = List.length (bible_verses d) ->
  filter (unshown d u) (bible_verses d) = [].
Proof.
  intros Hnd Hin Hlen. apply filter_nil_iff. intros v Hv.
  assert (I : incl (map bv_id (bible_verses d)) (shown_ids u d)).
  { apply NoDup_length_incl; auto. rewrite length_map. lia. }
  destruct (unshown d u v) eqn:E; auto.
  apply unshown_iff in E. exfalso. apply E, I, in_map, Hv.
Qed.

(** Filling a cycle: as long as the calls fit in what is left of the verse
    table, each one succeeds, none resets, and each adds one new verse to
    the caller's history. *)
Lemma cycle_fill u calls : forall d,
  NoDup (map bv_id (bible_verses d)) ->
  user_exists d u = true ->
  Forall (fun s => auth_uid s = Some u) calls ->
  NoDup (shown_ids u d) ->
  incl (shown_ids u d) (map bv_id (bible_verses d)) ->
  List.length (shown_ids u d) + List.length calls <= List.length (bible_verses d) ->
  exists evs d',
    daily_verse_calls calls d = (evs, d')
    /\ Forall (fun ev => exists p txt,
                   snd ev = Done (p, [txt]) /\ history_reset p = false) evs
    /\ bible_verses d' = bible_verses d
    /\ user_exists d' u = true
    /\ NoDup (shown_ids u d')
    /\ incl (shown_ids u d') (map bv_id (bible_verses d))
    /\ List.length (shown_ids u d') = List.length (shown_ids u d) + List.length calls.
Proof.
  induction calls as [|s rest IH]; intros d Hnd Hex Hcalls Hsh Hin Hlen.
  - exists [], d. simpl. repeat split; auto.
  - inversion Hcalls as [|? ? Hs Hrest]; subst. simpl in Hlen.
    destruct (get_daily_verse_unshown s d u Hs Hex) as (v & d1 & Hv & Hnv & Hrun).
    { apply unshown_nonempty; auto. lia. }
    destruct (get_daily_verse_step s d u _ _ _ Hs Hrun)
      as (_ & Hbv & Hau & _ & _ & Hshown).
    simpl in Hshown.
    destruct (IH d1) as (evs & d2 & Hrun2 & Hev & Hbv2 & Hex2 & Hnd2 & Hin2 & Hlen2); auto.
    + now rewrite Hbv.
    + unfold user_exists in *. now rewrite Hau.
    + rewrite Hshown. apply NoDup_app; repeat split; auto.
      * constructor; [intros []|constructor].
      * intros x Hx [<-|[]]. contradiction.
    + rewrite Hshown, Hbv. intros x Hx. apply in_app_or in Hx as [Hx|[<-|[]]]; auto.
      now apply in_map.
    + rewrite Hshown, Hbv, length_app. simpl. lia.
    + exists ((s, Done (pick_of v false, [bv_verse_text v])) :: evs), d2.
      simpl. rewrite Hrun, Hrun2. repeat split; auto.
      * constructor; auto. simpl. eauto.
      * congruence.
      * now rewrite <- Hbv.
      * rewrite Hlen2, Hshown, length_app. simpl. lia.
Qed.

Lemma rpc_raised {R A} (f : PG R A) s d e d' : rpc f s d = (Raised e, d') -> d' = d.
Proof.
  unfold rpc. destruct (f s _) as [[a|e'] st]; intros H; now inversion H.
Qed.

(** Calls that do not reset the history of [u] keep every verse recorded
    for [u]. *)
Lemma calls_keep_shown u between : forall d evs d',
  daily_verse_calls between d = (evs, d') ->
  (forall s p out, In (s, Done (p, out)) evs -> auth_uid s = Some u ->
                   history_reset p = false) ->
  forall x, In x (shown_ids u d) -> In x (shown_ids u d').
Proof.
  induction between as [|s rest IH]; intros d evs d' Hrun Hno x Hx; simpl in Hrun.
  - inversion Hrun; subst. exact Hx.
  - destruct (rpc get_daily_verse s d) as [o d1] eqn:E1.
    destruct (daily_verse_calls rest d1) as [evs1 d2] eqn:E2.
    inversion Hrun; subst; clear Hrun.
    apply (IH d1 evs1); auto.
    { intros s' p out Hin. apply (Hno s' p out). now right. }
    destruct o as [[p out]|e].
    + destruct (auth_uid s) as [w|] eqn:Hw.
      * destruct (get_daily_verse_step s d w p out d1 Hw E1) as (_ & _ & _ & Ho & Hb).
        destruct (Nat.eq_dec w u) as [->|Hne].
        -- rewrite (Hno s p out (or_introl eq_refl) Hw) in Hb.
           destruct Hb as [_ ->]. apply in_or_app. now left.
        -- rewrite Ho; auto.
      * rewrite get_daily_verse_rpc, Hw in E1. discriminate.
    + apply rpc_raised in E1. now subst.
Qed.

(** A call of [get_daily_verse] leaves [auth.users] and [bible_verses] as
    they were, and a call that succeeds was made by an identity that
    exists. *)
Lemma get_daily_verse_keeps_tables s d o d' :
  rpc get_daily_verse s d = (o, d') ->
  auth_users d' = auth_users d /\ bible_verses d' = bible_verses d.
Proof.
  rewrite get_daily_verse_rpc.
  destruct (auth_uid s) as [w|]; [|intros H; inversion H; subst; auto].
  destruct (random_row (entropy s 0) _) as [v|].
  - destruct (insert_verse_history _ _ _ _ _) as [[[] d1]|e] eqn:E;
      intros H; inversion H; subst; auto.
    apply insert_verse_history_done in E as [_ ->]. auto.
  - destruct (random_row (entropy s 1) _) as [v|]; [|intros H; inversion H; subst; auto].
    destruct (insert_verse_history _ _ _ _ _) as [[[] d1]|e] eqn:E;
      intros H; inversion H; subst; auto.
    apply insert_verse_history_done in E as [_ ->]. auto.
Qed.

Lemma daily_verse_calls_keep_tables calls : forall d evs d',
  daily_verse_calls calls d = (evs, d') ->
  auth_users d' = auth_users d /\ bible_verses d' = bible_verses d.
Proof.
  induction calls as [|s rest IH]; intros d evs d' H; simpl in H.
  - inversion H; subst. auto.
  - destruct (rpc get_daily_verse s d) as [o d1] eqn:E1.
    destruct (daily_verse_calls rest d1) as [evs1 d2] eqn:E2.
    inversion H; subst; clear H.
    destruct (get_daily_verse_keeps_tables s d o d1 E1) as [H1 H2].
    destruct (IH d1 evs1 d' E2) as [H3 H4]. split; congruence.
Qed.

Lemma get_daily_verse_done_user s d u p out d' :
  auth_uid s = Some u ->
  rpc get_daily_verse s d = (Done (p, out), d') ->
  user_exists d u = true.
Proof.
  intros Hu. rewrite get_daily_verse_rpc, Hu. unfold insert_verse_history.
  destruct (random_row (entropy s 0) _) as [v|].
  - destruct (existsb _ (verse_history d)); [discriminate|].
    destruct (user_exists d u); [reflexivity|discriminate].
  - destruct (random_row (entropy s 1) _) as [v|]; [|discriminate].
    destruct (existsb _ _); [discriminate|].
    unfold user_exists. cbn [auth_users set_verse_history].
    destruct (existsb _ (auth_users d)); [reflexivity|discriminate].
Qed.

(** C3. Within one cycle [get_daily_verse] never gives the same verse
    twice to the same user.  Take a successful call [s_i] by [u], any
    calls after it (by anyone, failed ones included) none of which resets
    the history of [u], and then a call [s_j] by [u].  The verse of [s_i]
    is still recorded when [s_j] runs.  The selection of [s_j] excludes
    the recorded verses: as long as a verse is left that [u] has not been
    shown, [s_j] succeeds without a reset and selects a verse that is not
    recorded, so it never proposes a verse the UNIQUE(user_id, verse_id)
    constraint would refuse.  Whenever [s_j] succeeds without a reset,
    its verse id differs from that of [s_i].  And the constraint rejects
    recording the verse of [s_i] a second time. *)
Theorem get_daily_verse_no_repeat_within_cycle :
  forall (u : uuid) (d : DB) (s_i s_j : session) (between : list session)
         (p_i : verse_pick) (out_i : list text) (d_i d_m : DB)
         (evs : list (session * outcome (verse_pick * list text))),
    auth_uid s_i = Some u ->
    auth_uid s_j = Some u ->
    rpc get_daily_verse s_i d = (Done (p_i, out_i), d_i) ->
    daily_verse_calls between d_i = (evs, d_m) ->
    (forall s p out, In (s, Done (p, out)) evs -> auth_uid s = Some u ->
                     history_reset p = false) ->
    In (selected_verse_id p_i) (shown_ids u d_m)
    /\ ((exists v, In v (bible_verses d_m) /\ ~ In (bv_id v) (shown_ids u d_m)) ->
        exists v_j d_j,
          rpc get_daily_verse s_j d_m
          = (Done (pick_of v_j false, [bv_verse_text v_j]), d_j)
          /\ In v_j (bible_verses d_m)
          /\ ~ In (bv_id v_j) (shown_ids u d_m)
          /\ bv_id v_j <> selected_verse_id p_i)
    /\ (forall p_j out_j d_j,
          rpc get_daily_verse s_j d_m = (Done (p_j, out_j), d_j) ->
          history_reset p_j = false ->
          selected_verse_id p_i <> selected_verse_id p_j
          /\ ~ In (selected_verse_id p_j) (shown_ids u d_m))
    /\ (forall id s,
          insert_verse_history id u (selected_verse_id p_i) s d_m
          = Raised (unique_violation "verse_history_user_id_verse_id_key")).
Proof.
  intros u d s_i s_j between p_i out_i d_i d_m evs Hi Hj Ei Eb Hno.
  assert (Hin : In (selected_verse_id p_i) (shown_ids u d_m)).
  { apply (calls_keep_shown u between d_i evs d_m Eb Hno).
    destruct (get_daily_verse_step s_i d u p_i out_i d_i Hi Ei) as (_ & _ & _ & _ & Hb).
    destruct (history_reset p_i).
    - destruct Hb as [_ ->]. now left.
    - destruct Hb as [_ ->]. apply in_or_app. right. now left. }
  assert (Hex : user_exists d_m u = true).
  { pose proof (get_daily_verse_done_user s_i d u p_i out_i d_i Hi Ei) as H.
    destruct (get_daily_verse_keeps_tables s_i d _ d_i Ei) as [H1 _].
    destruct (daily_verse_calls_keep_tables between d_i evs d_m Eb) as [H2 _].
    unfold user_exists in *. now rewrite H2, H1. }
  split; [exact Hin|]. split; [|split].
  - intros (v & Hv & Hnew).
    destruct (get_daily_verse_unshown s_j d_m u Hj Hex) as (v_j & d_j & H1 & H2 & H3).
    { intros C. apply (proj1 (filter_nil_iff _ _)) with (x := v) in C; auto.
      assert (unshown d_m u v = true) by now apply unshown_iff. congruence. }
    exists v_j, d_j. repeat split; auto.
    intros E. rewrite E in H2. contradiction.
  - intros p_j out_j d_j Ej Hrj.
    destruct (get_daily_verse_step s_j d_m u p_j out_j d_j Hj Ej) as (_ & _ & _ & _ & Hb).
    rewrite Hrj in Hb. destruct Hb as [Hnot _]. split; auto.
    intros E. rewrite E in Hin. contradiction.
  - intros id s. now apply insert_verse_history_duplicate.
Qed.

Lemma map_singleton {A B} (f : A -> B) l y :
  map f l = [y] -> exists x, l = [x] /\ f x = y.
Proof.
  destruct l as [|x [|x' l]]; simpl; intros H; inversion H. eauto.
Qed.

(** C2. Exhaustion cycle.  Over a verse table of N >= 1 rows with distinct
    ids, a user who exists and has no history makes N calls: all succeed
    without a reset, and the history then holds exactly N rows with N
    distinct verse ids.  The next call takes the reset branch: it returns
    a verse selected from the whole table, and afterwards the history of
    the user is the single row recording that verse. *)
Theorem get_daily_verse_exhaustion_cycle :
  forall (d : DB) (u : uuid) (calls : list session) (next : session),
    1 <= List.length (bible_verses d) ->
    NoDup (map bv_id (bible_verses d)) ->
    user_exists d u = true ->
    history_of u d = [] ->
    List.length calls = List.length (bible_verses d) ->
    Forall (fun s => auth_uid s = Some u) calls ->
    auth_uid next = Some u ->
    exists evs dN v d' row,
      daily_verse_calls calls d = (evs, dN)
      /\ Forall (fun ev => exists p txt,
                     snd ev = Done (p, [txt]) /\ history_reset p = false) evs
      /\ List.length (history_of u dN) = List.length (bible_verses d)
      /\ NoDup (map vh_verse_id (history_of u dN))
      /\ rpc get_daily_verse next dN = (Done (pick_of v true, [bv_verse_text v]), d')
      /\ random_row (entropy next 1) (bible_verses d) = Some v
      /\ In v (bible_verses d)
      /\ history_of u d' = [row]
      /\ vh_verse_id row = bv_id v.
Proof.
  intros d u calls next HN Hnd Hex Hh Hlen Hcalls Hnext.
  assert (Hs0 : shown_ids u d = []) by (unfold shown_ids; now rewrite Hh).
  destruct (cycle_fill u calls d) as (evs & dN & Hrun & Hev & Hbv & HexN & HndN & HinN & HlenN);
    auto.
  { rewrite Hs0. constructor. }
  { rewrite Hs0. intros x []. }
  { rewrite Hs0. simpl. lia. }
  rewrite Hs0 in HlenN. simpl in HlenN.
  destruct (get_daily_verse_exhausted next dN u) as (v & d' & Hv & Hrun'); auto.
  { rewrite Hbv. destruct (bible_verses d); simpl in *; [lia|discriminate]. }
  { apply unshown_empty; auto; rewrite Hbv; auto. lia. }
  destruct (get_daily_verse_step next dN u _ _ _ Hnext Hrun') as (_ & _ & _ & _ & Hb).
  simpl in Hb. destruct Hb as [_ Hb].
  apply map_singleton in Hb as (row & Hrow & Hid).
  rewrite Hbv in Hv.
  exists evs, dN, v, d', row. repeat split; auto.
  - unfold shown_ids in HlenN. rewrite length_map in HlenN. lia.
  - now apply random_row_In in Hv.
Qed.

(** C5. [get_daily_verse] raises in the two exceptional conditions and
    only handles exhaustion.  Without a caller it raises
    'User not authenticated' at once: no draw, no statement and no row
    precede the error, whatever the state.  With a caller and an empty
    verse table it raises 'No verses available' and the database is left
    as it was.  With a caller who exists, a non-empty verse table and
    every verse already recorded for the caller, it does not raise: it
    resets the history and returns a verse of the table. *)
Theorem get_daily_verse_raises_or_resets :
  forall (s : session) (d : DB),
    (auth_uid s = None ->
     (forall st, get_daily_verse s st
                 = (Raised (raise_exception "User not authenticated"), st))
     /\ rpc get_daily_verse s d
        = (Raised (raise_exception "User not authenticated"), d))
    /\ (forall u, auth_uid s = Some u -> bible_verses d = [] ->
        rpc get_daily_verse s d = (Raised (raise_exception "No verses available"), d))
    /\ (forall u, auth_uid s = Some u -> user_exists d u = true ->
        bible_verses d <> [] ->
        (forall v, In v (bible_verses d) -> In (bv_id v) (shown_ids u d)) ->
        exists v d',
          In v (bible_verses d)
          /\ rpc get_daily_verse s d = (Done (pick_of v true, [bv_verse_text v]), d')
          /\ shown_ids u d' = [bv_id v]).
Proof.
  intros s d. repeat split.
  - intros st. unfold get_daily_verse. pg_run. rewrite H. destruct st; reflexivity.
  - rewrite get_daily_verse_rpc. now rewrite H.
  - intros u Hu He. rewrite get_daily_verse_rpc, Hu, He. simpl.
    now rewrite !random_row_nil.
  - intros u Hu Hex Hne Hall.
    destruct (get_daily_verse_exhausted s d u) as (v & d' & Hv & Hrun); auto.
    { apply filter_nil_iff. intros v Hv. destruct (unshown d u v) eqn:E; auto.
      apply unshown_iff in E. exfalso. auto. }
    exists v, d'. repeat split; auto.
    + now apply random_row_In in Hv.
    + destruct (get_daily_verse_step s d u _ _ _ Hu Hrun) as (_ & _ & _ & _ & Hb).
      simpl in Hb. tauto.
Qed.

(** Three calls by alice over the three seeded verses, then a fourth. *)
Lemma get_daily_verse_exhaustion_cycle_witness :
  exists evs dN v d' row,
    daily_verse_calls
      [session_of (Some 1) 100; session_of (Some 1) 200; session_of (Some 1) 300]
      (sample_db [] []) = (evs, dN)
    /\ Forall (fun ev => exists p txt,
                   snd ev = Done (p, [txt]) /\ history_reset p = false) evs
    /\ List.length (history_of 1 dN) = List.length (bible_verses (sample_db [] []))
    /\ NoDup (map vh_verse_id (history_of 1 dN))
    /\ rpc get_daily_verse (session_of (Some 1) 400) dN
       = (Done (pick_of v true, [bv_verse_text v]), d')
    /\ random_row (entropy (session_of (Some 1) 400) 1) (bible_verses (sample_db [] []))
       = Some v
    /\ In v (bible_verses (sample_db [] []))
    /\ history_of 1 d' = [row]
    /\ vh_verse_id row = bv_id v.
Proof.
  apply (get_daily_verse_exhaustion_cycle (sample_db [] []) 1
           [session_of (Some 1) 100; session_of (Some 1) 200; session_of (Some 1) 300]
           (session_of (Some 1) 400)).
  - simpl. lia.
  - simpl. repeat constructor; simpl; intuition discriminate.
  - reflexivity.
  - reflexivity.
  - reflexivity.
  - repeat constructor.
  - reflexivity.
Defined.

(** Alice is shown verse 22; sam and an anonymous caller call in between;
    alice calls again and is shown verse 21. *)
Lemma get_daily_verse_no_repeat_within_cycle_witness :
  let d := sample_db [] [] in
  let d_i := snd (rpc get_daily_verse (session_of (Some 1) 100) d) in
  let d_m := snd (daily_verse_calls [session_of (Some 2) 150; session_of None 160] d_i) in
  In 22 (shown_ids 1 d_m)
  /\ (exists v_j d_j,
        rpc get_daily_verse (session_of (Some 1) 200) d_m
        = (Done (pick_of v_j false, [bv_verse_text v_j]), d_j)
        /\ In v_j (bible_verses d_m)
        /\ ~ In (bv_id v_j) (shown_ids 1 d_m)
        /\ bv_id v_j <> 22)
  /\ (22 <> 21 /\ ~ In 21 (shown_ids 1 d_m))
  /\ (forall id s,
        insert_verse_history id 1 22 s d_m
        = Raised (unique_violation "verse_history_user_id_verse_id_key")).
Proof.
  intros d d_i d_m.
  destruct (get_daily_verse_no_repeat_within_cycle 1 d
              (session_of (Some 1) 100) (session_of (Some 1) 200)
              [session_of (Some 2) 150; session_of None 160]
              (pick_of verse_002 false) [bv_verse_text verse_002] d_i d_m
              (fst (daily_verse_calls [session_of (Some 2) 150; session_of None 160] d_i)))
    as (H1 & H2 & H3 & H4).
  - reflexivity.
  - reflexivity.
  - reflexivity.
  - reflexivity.
  - intros s p out H _. vm_compute in H.
    destruct H as [H|[H|[]]]; inversion H; reflexivity.
  - split; [exact H1|]. split; [|split; [|exact H4]].
    + apply H2. exists verse_001. split; [left; reflexivity|].
      vm_compute. intros [H|[]]. discriminate H.
    + apply (H3 (pick_of verse_001 false) [bv_verse_text verse_001]
                (snd (rpc get_daily_verse (session_of (Some 1) 200) d_m)));
        reflexivity.
Defined.

(** No caller; alice over an empty verse table; alice after one full cycle. *)
Lemma get_daily_verse_raises_or_resets_witness :
  rpc get_daily_verse (session_of None 100) (sample_db [] [])
  = (Raised (raise_exception "User not authenticated"), sample_db [] [])
  /\ rpc get_daily_verse (session_of (Some 1) 100)
         (set_verse_history
            [{| vh_id := 90; vh_user_id := 1; vh_verse_id := 21; vh_shown_at := None |}]
            {| auth_users := [alice]; roles := []; user_roles := [];
               role_transitions := []; user_invitations := []; bible_verses := [];
               verse_history := []; auth_users_view := [] |})
     = (Raised (raise_exception "No verses available"),
        set_verse_history
          [{| vh_id := 90; vh_user_id := 1; vh_verse_id := 21; vh_shown_at := None |}]
          {| auth_users := [alice]; roles := []; user_roles := [];
             role_transitions := []; user_invitations := []; bible_verses := [];
             verse_history := []; auth_users_view := [] |})
  /\ (let dN := snd (daily_verse_calls
                        [session_of (Some 1) 100; session_of (Some 1) 200;
                         session_of (Some 1) 300] (sample_db [] [])) in
      exists v d',
        In v (bible_verses dN)
        /\ rpc get_daily_verse (session_of (Some 1) 400) dN
           = (Done (pick_of v true, [bv_verse_text v]), d')
        /\ shown_ids 1 d' = [bv_id v]).
Proof.
  split; [|split].
  - apply (proj1 (get_daily_verse_raises_or_resets (session_of None 100)
                    (sample_db [] []))). reflexivity.
  - apply (proj1 (proj2 (get_daily_verse_raises_or_resets (session_of (Some 1) 100) _))
             1); reflexivity.
  - intros dN.
    apply (proj2 (proj2 (get_daily_verse_raises_or_resets (session_of (Some 1) 400) dN))
             1).
    + reflexivity.
    + reflexivity.
    + discriminate.
    + intros v Hv. vm_compute in Hv. vm_compute.
      destruct Hv as [<-|[<-|[<-|[]]]]; simpl; auto.
Defined.

(** ** Role assignment *)

Lemma user_exists_In d au : In au (auth_users d) -> user_exists d (au_id au) = true.
Proof. intros H. apply existsb_exists. exists au. split; auto. apply Nat.eqb_refl. Qed.

Lemma role_exists_In d r : In r (roles d) -> role_exists d (r_id r) = true.
Proof. intros H. apply existsb_exists. exists r. split; auto. apply Nat.eqb_refl. Qed.

Lemma select_user_id_exists mail d u :
  select_user_id_by_email mail d = Some u -> user_exists d u = true.
Proof.
  unfold select_user_id_by_email. destruct (find _ _) as [au|] eqn:E; [|discriminate].
  intros H. injection H as <-. apply find_some in E as [E _]. now apply user_exists_In.
Qed.

Lemma select_role_id_exists name d r :
  select_role_id_by_name name d = Some r -> role_exists d r = true.
Proof.
  unfold select_role_id_by_name. destruct (find _ _) as [x|] eqn:E; [|discriminate].
  intros H. injection H as <-. apply find_some in E as [E _]. now apply role_exists_In.
Qed.

Lemma no_assignment_after_delete u r l :
  existsb (fun ur => (ur_user_id ur =? u) && (ur_role_id ur =? r))
          (filter (fun ur => negb (ur_user_id ur =? u)) l) = false.
Proof.
  induction l as [|x l IH]; simpl; auto.
  destruct (ur_user_id x =? u) eqn:E; simpl; auto. now rewrite E.
Qed.

(** C6, as the source assigns a role.  The only assignment that writes an
    audit record is the block of the migration "Assign Admin Role to
    User".  When the user and the admin role are found it deletes every
    assignment row of the user, inserts one new active assignment and
    appends one [role_transitions] row whose [old_role_id] is NULL, whose
    [new_role_id] is the admin role, whose [changed_by] is the user itself
    and whose reason is the fixed text.  When either is missing it raises
    and the database is unchanged: the assignment and the audit record
    are committed together or not at all. *)
Theorem assign_admin_role_replaces_and_audits :
  forall (s : session) (d : DB),
    match select_user_id_by_email "sam@reachloud.com" d,
          select_role_id_by_name "admin" d with
    | Some v_user_id, Some v_admin_role_id =>
        exists d',
          rpc (R := unit) assign_admin_role s d = (Done (tt, []), d')
          /\ user_roles d'
             = filter (fun ur => negb (ur_user_id ur =? v_user_id)) (user_roles d)
               ++ [{| ur_id := entropy s 0; ur_user_id := v_user_id;
                      ur_role_id := v_admin_role_id; ur_assigned_by := None;
                      ur_assigned_at := Some (now s); ur_expires_at := None;
                      ur_is_active := Some true |}]
          /\ role_transitions d'
             = role_transitions d
               ++ [{| rt_id := entropy s 1; rt_user_id := v_user_id;
                      rt_old_role_id := None; rt_new_role_id := v_admin_role_id;
                      rt_changed_by := v_user_id;
                      rt_reason := Some "Initial admin role assignment";
                      rt_created_at := Some (now s) |}]
    | None, _ =>
        rpc (R := unit) assign_admin_role s d
        = (Raised (raise_exception "User not found"), d)
    | Some _, None =>
        rpc (R := unit) assign_admin_role s d
        = (Raised (raise_exception "Admin role not found"), d)
    end.
Proof.
  intros s d. unfold assign_admin_role.
  sql_run assign_admin_role_variables. pg_run.
  destruct (select_user_id_by_email _ d) as [u|] eqn:Eu; [|reflexivity].
  destruct (select_role_id_by_name _ d) as [r|] eqn:Er; [|reflexivity].
  apply select_user_id_exists in Eu. apply select_role_id_exists in Er.
  unfold delete_user_roles, insert_user_roles, insert_user_roles_rows,
    user_roles_violation, insert_role_transitions.
  cbn [user_roles refresh_auth_users_view set_auth_users_view set_user_roles
       ur_user_id ur_role_id ur_assigned_by
       rt_user_id rt_old_role_id rt_new_role_id rt_changed_by].
  rewrite no_assignment_after_delete.
  unfold user_exists, role_exists in *.
  cbn [auth_users roles set_user_roles set_auth_users_view refresh_auth_users_view].
  rewrite Eu, Er. cbn [negb].
  cbn [auth_users roles set_user_roles set_auth_users_view refresh_auth_users_view].
  rewrite Eu, Er. cbn [negb].
  eexists. repeat split.
Qed.

(** Sam holds the active role 'user' (row 32).  After the block that row
    is gone, not deactivated, and the audit row records no prior role. *)
Lemma assign_admin_role_deletes_prior_assignment :
  let d := sample_db [assignment 32 2 12 None] [] in
  exists d',
    rpc (R := unit) assign_admin_role (session_of None 100) d = (Done (tt, []), d')
    /\ ~ deactivated_not_deleted 2 d d'
    /\ map rt_old_role_id (role_transitions d') = [None].
Proof.
  intros d. eexists. split; [reflexivity|]. split; [|reflexivity].
  intros H. destruct (H (assignment 32 2 12 None)) as (ur' & Hin & Hid & _);
    try reflexivity.
  { left. reflexivity. }
  vm_compute in Hin. destruct Hin as [<-|[]]. discriminate Hid.
Qed.

(** ** Bulk invitation *)

Lemma invite_users_iteration_address roles e s (st : state user_invitation) :
  inviter_ok s (st_db st) ->
  invite_users_iteration roles (Some e) s st =
  (Done tt,
   {| st_db := set_user_invitations
                 (user_invitations (st_db st)
                  ++ invitation_rows s roles (st_draws st) [e]) (st_db st);
      st_draws := S (S (st_draws st));
      st_out := st_out st ++ invitation_rows s roles (st_draws st) [e] |}).
Proof.
  destruct st as [d n o]. cbn [st_db st_draws st_out]. intros Hok.
  unfold invite_users_iteration, gen_random_token. pg_run.
  unfold insert_user_invitations.
  cbn [existsb String.eqb Ascii.eqb Bool.eqb orb andb negb invitation_rows].
  destruct (auth_uid s) as [u|] eqn:Hu.
  - rewrite (Hok u Hu). reflexivity.
  - reflexivity.
Qed.

Lemma invite_users_iteration_null roles s (st : state user_invitation) :
  exists st',
    invite_users_iteration roles None s st
    = (Raised (not_null_violation "user_invitations" "email"), st').
Proof.
  destruct st as [d n o].
  unfold invite_users_iteration, gen_random_token. pg_run.
  unfold insert_user_invitations. eexists. reflexivity.
Qed.

Lemma invite_users_loop_addresses roles s es : forall (st : state user_invitation),
  inviter_ok s (st_db st) ->
  foreach (map Some es) (invite_users_iteration roles) s st =
  (Done tt,
   {| st_db := set_user_invitations
                 (user_invitations (st_db st)
                  ++ invitation_rows s roles (st_draws st) es) (st_db st);
      st_draws := 2 * List.length es + st_draws st;
      st_out := st_out st ++ invitation_rows s roles (st_draws st) es |}).
Proof.
  induction es as [|e es IH]; intros st Hok.
  - simpl. unfold ret. rewrite !app_nil_r. destruct st as [d n o]. now destruct d.
  - cbn [map foreach]. unfold bind at 1.
    rewrite invite_users_iteration_address by assumption.
    rewrite IH by exact Hok. cbn [st_db st_draws st_out invitation_rows].
    f_equal. f_equal.
    + cbn [user_invitations set_user_invitations]. rewrite <- app_assoc. reflexivity.
    + cbn [List.length]. lia.
    + rewrite <- app_assoc. reflexivity.
Qed.

Lemma invite_users_loop_null roles s emails : forall (st : state user_invitation),
  inviter_ok s (st_db st) ->
  In None emails ->
  exists st',
    foreach emails (invite_users_iteration roles) s st
    = (Raised (not_null_violation "user_invitations" "email"), st').
Proof.
  induction emails as [|[e|] emails IH]; intros st Hok Hin.
  - destruct Hin.
  - destruct Hin as [Hin|Hin]; [discriminate|].
    cbn [foreach]. unfold bind at 1.
    rewrite invite_users_iteration_address by assumption.
    apply IH; auto.
  - cbn [foreach]. unfold bind at 1.
    destruct (invite_users_iteration_null roles s st) as [st' ->]. eauto.
Qed.

Lemma invitation_rows_emails s roles es : forall n,
  map ui_email (invitation_rows s roles n es) = es.
Proof. induction es as [|e es IH]; intros n; simpl; now rewrite ?IH. Qed.

Lemma invitation_rows_pending s roles es : forall n,
  Forall (fun r => ui_status r = "pending"
                   /\ ui_expires_at r = (now s + interval_7_days)%Z
                   /\ ui_roles r = roles /\ ui_invited_by r = auth_uid s)
         (invitation_rows s roles n es).
Proof. induction es as [|e es IH]; intros n; simpl; constructor; auto. Qed.

Lemma admin_gate {R} (m : PG R unit) s d :
  rpc (admin <- has_admin_access ;;
       (if negb admin then raise (raise_exception "Access denied") else ret tt) ;;
       m) s d
  = match rpc (R := R) has_admin_access s d with
    | (Done (true, _), _) => rpc m s d
    | _ => (Raised (raise_exception "Access denied"), d)
    end.
Proof.
  unfold has_admin_access, rpc, bind, query, raise, ret. cbn [st_db].
  destruct (existsb _ _); reflexivity.
Qed.

(** C7, as [invite_users] processes its emails.  For a caller who passes
    the admin check (and exists), the emails are processed in order inside
    the one transaction of the call, with no handler around an email.
    When every email names an address, one pending invitation per email
    is inserted and returned, in order, each expiring seven days after
    the call.  When some email is NULL its INSERT fails, the call raises
    that error, and the database is the one the call started from: no
    invitation of any email remains and no row is returned. *)
Theorem invite_users_all_or_nothing :
  forall (s : session) (d : DB) (emails roles : text_array),
    rpc (R := user_invitation) has_admin_access s d = (Done (true, []), d) ->
    (forall u, auth_uid s = Some u -> user_exists d u = true) ->
    (forall es, emails = map Some es ->
       rpc (invite_users emails roles) s d
       = (Done (tt, invitation_rows s roles 0 es),
          set_user_invitations (user_invitations d ++ invitation_rows s roles 0 es) d)
       /\ map ui_email (invitation_rows s roles 0 es) = es
       /\ Forall (fun r => ui_status r = "pending"
                           /\ ui_expires_at r = (now s + interval_7_days)%Z
                           /\ ui_roles r = roles /\ ui_invited_by r = auth_uid s)
                 (invitation_rows s roles 0 es))
    /\ (In None emails ->
        rpc (invite_users emails roles) s d
        = (Raised (not_null_violation "user_invitations" "email"), d)).
Proof.
  intros s d emails roles Hadmin Hok.
  unfold invite_users. rewrite admin_gate, Hadmin. split.
  - intros es ->. split; [|split].
    + unfold rpc. rewrite invite_users_loop_addresses by exact Hok. reflexivity.
    + apply invitation_rows_emails.
    + apply invitation_rows_pending.
  - intros Hin. unfold rpc.
    destruct (invite_users_loop_null roles s emails
                {| st_db := d; st_draws := 0; st_out := [] |} Hok Hin) as [st' ->].
    reflexivity.
Qed.

(** Alice, an admin, invites two addresses; then an address and a NULL. *)
Lemma invite_users_all_or_nothing_witness :
  let d := sample_db [assignment 31 1 10 None] [] in
  let s := session_of (Some 1) 100 in
  let es := ["new@example.com"; "other@example.com"] in
  (rpc (invite_users (map Some es) [Some "user"]) s d
   = (Done (tt, invitation_rows s [Some "user"] 0 es),
      set_user_invitations
        (user_invitations d ++ invitation_rows s [Some "user"] 0 es) d)
   /\ map ui_email (invitation_rows s [Some "user"] 0 es) = es
   /\ Forall (fun r => ui_status r = "pending"
                       /\ ui_expires_at r = (now s + interval_7_days)%Z
                       /\ ui_roles r = [Some "user"] /\ ui_invited_by r = auth_uid s)
             (invitation_rows s [Some "user"] 0 es))
  /\ rpc (invite_users [Some "new@example.com"; None] [Some "user"]) s d
     = (Raised (not_null_violation "user_invitations" "email"), d).
Proof.
  intros d s es.
  assert (Hok : forall u, auth_uid s = Some u -> user_exists d u = true).
  { intros u H. injection H as <-. reflexivity. }
  split.
  - apply (proj1 (invite_users_all_or_nothing s d (map Some es) [Some "user"]
                    eq_refl Hok)).
    reflexivity.
  - apply (proj2 (invite_users_all_or_nothing s d [Some "new@example.com"; None]
                    [Some "user"] eq_refl Hok)).
    right. left. reflexivity.
Defined.

(** The address before the NULL is not invited either. *)
Lemma invite_users_null_email_aborts_all :
  ~ invited_independently [Some "new@example.com"; None] [Some "user"]
      (session_of (Some 1) 100) (sample_db [assignment 31 1 10 None] []).
Proof.
  intros (rows & d' & H & _). vm_compute in H. discriminate H.
Qed.

(** ** Bulk creation *)

Lemma bulk_create_users_iteration_run user_roles v_email s
    (st : state bulk_create_users_row) :
  bulk_create_users_iteration user_roles v_email s st =
  (Done tt, {| st_db := st_db st; st_draws := st_draws st;
               st_out := st_out st ++ [ambiguity_row v_email] |}).
Proof.
  destruct st as [d n o]. unfold bulk_create_users_iteration.
  sql_run bulk_create_users_variables. pg_run. reflexivity.
Qed.

Lemma bulk_create_users_loop user_roles s user_emails :
  forall (st : state bulk_create_users_row),
    foreach user_emails (bulk_create_users_iteration user_roles) s st =
    (Done tt, {| st_db := st_db st; st_draws := st_draws st;
                 st_out := st_out st ++ map ambiguity_row user_emails |}).
Proof.
  induction user_emails as [|e l IH]; intros [d n o].
  - simpl. unfold ret. now rewrite app_nil_r.
  - cbn [foreach map]. unfold bind at 1.
    rewrite bulk_create_users_iteration_run, IH. cbn [st_db st_draws st_out].
    now rewrite <- app_assoc.
Qed.

(** For an admin caller every email is answered, in order, nothing is
    raised and nothing is written: each block stops at the test for an
    existing identity, whose [email] is both the output column of RETURNS
    TABLE and the column of [auth.users], and its handler reports the
    error. *)
Lemma bulk_create_users_reports_ambiguity s d user_emails user_roles :
  rpc (R := bulk_create_users_row) has_admin_access s d = (Done (true, []), d) ->
  rpc (bulk_create_users user_emails user_roles) s d
  = (Done (tt, map ambiguity_row user_emails), d).
Proof.
  intros Hadmin. unfold bulk_create_users. rewrite admin_gate, Hadmin.
  unfold rpc. now rewrite bulk_create_users_loop.
Qed.

(** C8.  Alice, an admin, submits sam's address, for which an identity
    exists, and a new one.  Both rows come back (one per email, the call
    does not abort), both with status 'error'; the message for sam's
    address is the engine's complaint about the ambiguous column
    reference, not 'User already exists', and the new address gets no
    invitation. *)
Theorem bulk_create_users_existing_identity_message :
  let d := sample_db [assignment 31 1 10 None] [] in
  let s := session_of (Some 1) 100 in
  existsb (fun au => sql_eq String.eqb (au_email au) (Some "sam@reachloud.com"))
          (auth_users d) = true
  /\ rpc (bulk_create_users [Some "sam@reachloud.com"; Some "new@example.com"]
                            [Some "user"]) s d
     = (Done (tt, [ {| email := Some "sam@reachloud.com"; status := "error";
                       message := SQLERRM (ambiguous_column "email") |};
                    {| email := Some "new@example.com"; status := "error";
                       message := SQLERRM (ambiguous_column "email") |} ]), d)
  /\ SQLERRM (ambiguous_column "email") <> "User already exists"
  /\ user_invitations d = [].
Proof.
  intros d s. split; [reflexivity|]. split; [|split].
  - apply (bulk_create_users_reports_ambiguity s d). reflexivity.
  - discriminate.
  - reflexivity.
Qed.

(** ** Invitation verification *)

Lemma draw_many_run {R} s n : forall (d : DB) (k : nat) (o : list R),
  draw_many n s {| st_db := d; st_draws := k; st_out := o |}
  = (Done (map (entropy s) (seq k n)), {| st_db := d; st_draws := k + n; st_out := o |}).
Proof.
  induction n as [|n IH]; intros d k o.
  - simpl. unfold ret. now rewrite Nat.add_0_r.
  - cbn [draw_many seq map]. unfold bind at 1, draw at 1. cbn [st_db st_draws st_out].
    unfold bind at 1. rewrite IH. unfold ret.
    replace (k + S n) with (S k + n) by lia. reflexivity.
Qed.

Lemma set_user_roles_twice x y d : set_user_roles x (set_user_roles y d) = set_user_roles x d.
Proof. reflexivity. Qed.

(** A batch of new assignments goes in when every row refers to an
    existing user and role, names no assigner, and no two rows, old or
    new, share (user_id, role_id). *)
Lemma insert_user_roles_rows_ok rows : forall d,
  (forall row, In row rows ->
     user_exists d (ur_user_id row) = true /\ role_exists d (ur_role_id row) = true
     /\ ur_assigned_by row = None) ->
  NoDup (map (fun row => (ur_user_id row, ur_role_id row)) rows) ->
  (forall row ur, In row rows -> In ur (user_roles d) ->
     ~ (ur_user_id ur = ur_user_id row /\ ur_role_id ur = ur_role_id row)) ->
  insert_user_roles_rows rows d = Done (set_user_roles (user_roles d ++ rows) d).
Proof.
  induction rows as [|row rest IH]; intros d Hfk Hnd Hnew.
  - simpl. rewrite app_nil_r. now destruct d.
  - cbn [insert_user_roles_rows]. unfold user_roles_violation.
    destruct (Hfk row (or_introl eq_refl)) as (H1 & H2 & H3).
    rewrite H1, H2, H3. cbn [negb].
    destruct (existsb _ (user_roles d)) eqn:E.
    + apply existsb_exists in E as (ur & Hur & E). apply andb_prop in E as [E1 E2].
      apply Nat.eqb_eq in E1, E2. exfalso. apply (Hnew row ur); auto. now left.
    + inversion Hnd as [|? ? Hnotin Hnd']; subst.
      rewrite IH.
      * rewrite set_user_roles_twice. cbn [user_roles set_user_roles].
        now rewrite <- app_assoc.
      * intros row' Hin. apply Hfk. now right.
      * assumption.
      * intros row' ur Hin Hur [Ea Eb]. cbn [user_roles set_user_roles] in Hur.
        apply in_app_or in Hur as [Hur|[<-|[]]].
        -- apply (Hnew row' ur); auto. now right.
        -- apply Hnotin. apply in_map_iff. exists row'.
           split; [congruence | assumption].
Qed.

Lemma granted_rows_role_ids user_id t : forall ids granted,
  List.length ids = List.length granted ->
  map ur_role_id (granted_rows user_id t ids granted) = map r_id granted.
Proof.
  unfold granted_rows. induction ids as [|i ids IH]; intros [|g granted] H;
    simpl in *; try discriminate; auto. rewrite IH; auto.
Qed.

Lemma granted_rows_keys user_id t : forall ids granted,
  List.length ids = List.length granted ->
  map (fun row => (ur_user_id row, ur_role_id row)) (granted_rows user_id t ids granted)
  = map (fun r => (user_id, r_id r)) granted.
Proof.
  unfold granted_rows. induction ids as [|i ids IH]; intros [|g granted] H;
    simpl in *; try discriminate; auto. rewrite IH; auto.
Qed.

Lemma NoDup_keys (user_id : uuid) (granted : list role) :
  NoDup (map r_id granted) -> NoDup (map (fun r => (user_id, r_id r)) granted).
Proof.
  induction granted as [|g l IH]; simpl; intros H; constructor;
    inversion H as [|? ? Hn Hl]; subst; auto.
  intros C. apply Hn. apply in_map_iff in C as (r & E & Hr).
  injection E as E. rewrite <- E. now apply in_map.
Qed.

Lemma granted_rows_In user_id t ids granted row :
  In row (granted_rows user_id t ids granted) ->
  ur_user_id row = user_id /\ ur_assigned_by row = None
  /\ ur_is_active row = Some true /\ exists r, In r granted /\ ur_role_id row = r_id r.
Proof.
  unfold granted_rows. intros H. apply in_map_iff in H as ([i r] & <- & H).
  apply in_combine_r in H. simpl. eauto 6.
Qed.

Lemma invited_roles_In d names r :
  In r (invited_roles d names) <-> In r (roles d) /\ In (Some (r_name r)) names.
Proof.
  unfold invited_roles. rewrite in_flat_map. split.
  - intros (n & Hn & H). apply filter_In in H as [H E].
    destruct n as [n|]; simpl in E; [|discriminate].
    apply String.eqb_eq in E. subst. auto.
  - intros [H1 H2]. exists (Some (r_name r)). split; auto.
    apply filter_In. split; auto. simpl. apply String.eqb_refl.
Qed.


Lemma user_exists_verified u user_id l :
  existsb (fun au => au_id au =? u)
          (map (fun au => if au_id au =? user_id then verified au else au) l)
  = existsb (fun au => au_id au =? u) l.
Proof.
  induction l as [|a l IH]; simpl; auto. rewrite IH.
  now destruct (au_id a =? user_id).
Qed.

Lemma row_triggers_untouched user_id l : forall acc,
  untouched_by_verification acc
    (fold_left (fun acc au =>
                  if au_id au =? user_id
                  then handle_user_verification au (verified au) acc
                  else acc) l acc).
Proof.
  induction l as [|a l IH]; intros acc; simpl.
  - repeat split.
  - destruct (IH (if au_id a =? user_id
                  then handle_user_verification a (verified a) acc else acc))
      as (H1 & H2 & H3 & H4).
    assert (U : untouched_by_verification acc
                  (if au_id a =? user_id
                   then handle_user_verification a (verified a) acc else acc)).
    { unfold untouched_by_verification, handle_user_verification.
      destruct (au_id a =? user_id); [destruct (_ && _)|]; repeat split. }
    destruct U as (U1 & U2 & U3 & U4).
    split; [congruence|]. split; [congruence|]. split; [congruence|].
    intros u. now rewrite H4, U4.
Qed.

(** A matching invitation belongs to an identity that exists. *)
Lemma matching_invitation_user user_id token s d inv :
  matching_invitation user_id token s d = Some inv -> user_exists d user_id = true.
Proof.
  unfold matching_invitation. intros H. apply find_some in H as [_ H].
  destruct (find (fun au => au_id au =? user_id) (auth_users d)) as [au|] eqn:E.
  - apply find_some in E as [E1 E2]. apply existsb_exists. eauto.
  - simpl in H. discriminate.
Qed.

Lemma update_user_invitations_accepted_run id s d :
  exists d1, update_user_invitations_accepted id s d = Done (tt, d1)
             /\ untouched_by_verification d d1.
Proof. eexists. split; [reflexivity|]. repeat split. Qed.

Lemma update_auth_users_email_verified_run user_id s d :
  exists d2, update_auth_users_email_verified user_id s d = Done (tt, d2)
             /\ untouched_by_verification d d2.
Proof.
  eexists. split; [reflexivity|].
  destruct (row_triggers_untouched user_id (auth_users d)
              (set_auth_users
                 (map (fun au => if au_id au =? user_id then verified au else au)
                      (auth_users d)) d)) as (H1 & H2 & H3 & H4).
  unfold untouched_by_verification.
  cbn [roles user_roles role_transitions refresh_auth_users_view set_auth_users_view].
  rewrite H1, H2, H3. repeat split.
  unfold user_exists in *. cbn [auth_users refresh_auth_users_view set_auth_users_view].
  intros u. rewrite H4. cbn [auth_users set_auth_users]. apply user_exists_verified.
Qed.

(** Conversely, a batch that went in had no two rows, old or new, with the
    same (user_id, role_id). *)
Lemma insert_user_roles_rows_done rows : forall d d',
  insert_user_roles_rows rows d = Done d' ->
  NoDup (map (fun row => (ur_user_id row, ur_role_id row)) rows)
  /\ (forall row ur, In row rows -> In ur (user_roles d) ->
        ~ (ur_user_id ur = ur_user_id row /\ ur_role_id ur = ur_role_id row)).
Proof.
  induction rows as [|row rest IH]; intros d d' H.
  - split; [constructor | intros row ur []].
  - cbn [insert_user_roles_rows] in H.
    destruct (user_roles_violation d row) as [e|] eqn:V; [discriminate|].
    apply IH in H as [Hnd Hnew]. cbn [user_roles set_user_roles] in Hnew.
    assert (Hrow : forall ur, In ur (user_roles d) ->
                     ~ (ur_user_id ur = ur_user_id row /\ ur_role_id ur = ur_role_id row)).
    { intros ur Hur [Ea Eb]. unfold user_roles_violation in V.
      destruct (existsb _ (user_roles d)) eqn:E; [discriminate|].
      assert (existsb (fun ur0 => (ur_user_id ur0 =? ur_user_id row)
                                  && (ur_role_id ur0 =? ur_role_id row))
                      (user_roles d) = true); [|congruence].
      apply existsb_exists. exists ur. split; auto.
      rewrite Ea, Eb. now rewrite !Nat.eqb_refl. }
    split.
    + cbn [map]. constructor; auto. intros C.
      apply in_map_iff in C as (row' & E & Hin). injection E as Ea Eb.
      apply (Hnew row' row Hin); [apply in_or_app; right; now left | auto].
    + intros row' ur [<-|Hin] Hur; [now apply Hrow|].
      apply (Hnew row' ur Hin). apply in_or_app. now left.
Qed.

(** Every call that returns true found its invitation and could insert
    its grants: the hypotheses under which the call is described below
    are those of every successful call. *)
Lemma verify_user_email_true_inv s d user_id verification_token out d' :
  rpc (R := unit) (verify_user_email user_id verification_token) s d
  = (Done (true, out), d') ->
  exists v_invitation,
    matching_invitation user_id verification_token s d = Some v_invitation
    /\ NoDup (map r_id (invited_roles d (ui_roles v_invitation)))
    /\ (forall ur, In ur (user_roles d) -> ur_user_id ur = user_id ->
          ~ In (ur_role_id ur) (map r_id (invited_roles d (ui_roles v_invitation)))).
Proof.
  unfold verify_user_email. sql_run verify_user_email_variables. pg_run.
  destruct (matching_invitation user_id verification_token s d) as [inv|] eqn:Hm;
    [|intros H; inversion H].
  destruct (update_user_invitations_accepted_run (ui_id inv) s d)
    as (d1 & -> & R1 & U1 & T1 & E1).
  destruct (update_auth_users_email_verified_run user_id s d1)
    as (d2 & -> & R2 & U2 & T2 & E2).
  assert (G : invited_roles d2 (ui_roles inv) = invited_roles d (ui_roles inv)).
  { unfold invited_roles. now rewrite R2, R1. }
  rewrite G, draw_many_run. cbn [Nat.add]. unfold insert_user_roles.
  destruct (insert_user_roles_rows _ d2) as [d3|e] eqn:Hins; [|intros H; inversion H].
  intros _. exists inv. split; auto.
  apply insert_user_roles_rows_done in Hins as [Hnd Hnew].
  set (granted := invited_roles d (ui_roles inv)) in *.
  rewrite granted_rows_keys in Hnd by now rewrite length_map, length_seq.
  split.
  - rewrite <- (map_map r_id (pair user_id)) in Hnd. now apply NoDup_map_inv in Hnd.
  - intros ur Hur Eu Hin. apply in_map_iff in Hin as (r & Er & Hr).
    destruct (In_nth _ _ r Hr) as (i & Hi & Hnth).
    set (row := {| ur_id := entropy s i; ur_user_id := user_id; ur_role_id := r_id r;
                   ur_assigned_by := None; ur_assigned_at := Some (now s);
                   ur_expires_at := None; ur_is_active := Some true |}).
    apply (Hnew row ur).
    + unfold granted_rows. apply in_map_iff. exists (entropy s i, r). split; auto.
      replace (entropy s i, r)
        with (nth i (combine (map (entropy s) (seq 0 (List.length granted))) granted)
                  (entropy s 0, r)).
      * apply nth_In. rewrite length_combine, length_map, length_seq. lia.
      * rewrite combine_nth by now rewrite length_map, length_seq.
        rewrite Hnth, (map_nth (entropy s) (seq 0 (List.length granted)) 0 i).
        now rewrite seq_nth.
    + now rewrite U2, U1.
    + simpl. split; congruence.
Qed.



(** * Further properties of the code *)

(** ** More on verse rotation *)

Lemma history_of_insert u d row :
  history_of u (set_verse_history (verse_history d ++ [row]) d) =
  if vh_user_id row =? u then history_of u d ++ [row] else history_of u d.
Proof.
  unfold history_of. simpl. rewrite filter_app. simpl.
  destruct (vh_user_id row =? u); [reflexivity | now rewrite app_nil_r].
Qed.

Lemma history_of_delete_other u u' d :
  u' <> u ->
  history_of u' (set_verse_history
                   (filter (fun h => negb (vh_user_id h =? u)) (verse_history d)) d)
  = history_of u' d.
Proof.
  intros N. unfold history_of. simpl.
  induction (verse_history d) as [|h l IH]; simpl; auto.
  destruct (vh_user_id h =? u) eqn:E; simpl.
  - apply Nat.eqb_eq in E. destruct (vh_user_id h =? u') eqn:E'; auto.
    apply Nat.eqb_eq in E'. congruence.
  - destruct (vh_user_id h =? u'); simpl; now rewrite IH.
Qed.

Lemma only_verse_history_differs_set x d :
  only_verse_history_differs d (set_verse_history x d).
Proof. repeat split. Qed.

Lemma only_verse_history_differs_refl d : only_verse_history_differs d d.
Proof. repeat split. Qed.

(** X1.  A call of [get_daily_verse], whatever its outcome, changes no
    table but [verse_history]; and in [verse_history] the rows of every
    user other than the caller are left as they were, in the same order. *)
Theorem get_daily_verse_touches_only_callers_history :
  forall (s : session) (d d' : DB) (o : outcome (verse_pick * list text)),
    rpc get_daily_verse s d = (o, d') ->
    only_verse_history_differs d d'
    /\ forall u, auth_uid s <> Some u -> history_of u d' = history_of u d.
Proof.
  intros s d d' o. rewrite get_daily_verse_rpc.
  destruct (auth_uid s) as [w|].
  2:{ intros H; inversion H; subst. split; [apply only_verse_history_differs_refl|auto]. }
  destruct (random_row (entropy s 0) _) as [v|].
  - destruct (insert_verse_history _ _ _ _ _) as [[[] d1]|e] eqn:E;
      intros H; inversion H; subst; clear H.
    + apply insert_verse_history_done in E as [_ ->].
      split; [apply only_verse_history_differs_set|].
      intros u Hu. rewrite history_of_insert. simpl.
      destruct (w =? u) eqn:E; auto. apply Nat.eqb_eq in E. congruence.
    + split; [apply only_verse_history_differs_refl|auto].
  - destruct (random_row (entropy s 1) _) as [v|].
    2:{ intros H; inversion H; subst. split; [apply only_verse_history_differs_refl|auto]. }
    destruct (insert_verse_history _ _ _ _ _) as [[[] d1]|e] eqn:E;
      intros H; inversion H; subst; clear H.
    + apply insert_verse_history_done in E as [_ ->].
      split; [repeat split|].
      intros u Hu. rewrite history_of_insert. simpl.
      destruct (w =? u) eqn:E; [apply Nat.eqb_eq in E; congruence|].
      apply history_of_delete_other. congruence.
    + split; [apply only_verse_history_differs_refl|auto].
Qed.

(** Alice is shown a verse while sam has one row of history. *)
Lemma get_daily_verse_touches_only_callers_history_witness :
  let d := set_verse_history
             [{| vh_id := 90; vh_user_id := 2; vh_verse_id := 21; vh_shown_at := None |}]
             (sample_db [] []) in
  let d' := snd (rpc get_daily_verse (session_of (Some 1) 100) d) in
  only_verse_history_differs d d' /\ history_of 2 d' = history_of 2 d.
Proof.
  intros d d'.
  destruct (get_daily_verse_touches_only_callers_history
              (session_of (Some 1) 100) d d'
              (fst (rpc get_daily_verse (session_of (Some 1) 100) d)))
    as [H1 H2].
  - reflexivity.
  - split; [exact H1|]. apply H2. simpl. discriminate.
Defined.

Lemma NoDup_map_filter {A B} (f : A -> B) (p : A -> bool) l :
  NoDup (map f l) -> NoDup (map f (filter p l)).
Proof.
  induction l as [|a l IH]; simpl; intros H; [constructor|].
  inversion H as [|? ? Hn Hl]; subst.
  destruct (p a); simpl; auto. constructor; auto.
  intros C. apply Hn. apply in_map_iff in C as (x & E & Hx).
  apply filter_In in Hx as [Hx _]. rewrite <- E. now apply in_map.
Qed.

Lemma history_unique_insert id u x s d d' :
  history_unique d -> insert_verse_history id u x s d = Done (tt, d') -> history_unique d'.
Proof.
  unfold history_unique. intros Hu H.
  apply insert_verse_history_done in H as [Hn ->]. simpl.
  rewrite map_app. simpl. apply NoDup_app; auto.
  - constructor; [intros []|constructor].
  - intros p Hp [<-|[]]. apply Hn. apply In_shown_ids.
    apply in_map_iff in Hp as (h & E & Hh). injection E as E1 E2. eauto.
Qed.

Lemma history_references_insert id u x s d d' :
  history_references d -> insert_verse_history id u x s d = Done (tt, d') ->
  history_references d'.
Proof.
  unfold history_references, insert_verse_history. intros Hr.
  destruct (existsb _ (verse_history d)); [discriminate|].
  destruct (user_exists d u) eqn:Eu; [|discriminate].
  destruct (verse_exists d x) eqn:Ev; [|discriminate].
  simpl. intros H. injection H as <-. intros h Hh. simpl in Hh.
  apply in_app_or in Hh as [Hh|[<-|[]]]; [now apply Hr | simpl; auto].
Qed.

Lemma history_integrity_delete u d :
  history_unique d -> history_references d ->
  history_unique (set_verse_history
                    (filter (fun h => negb (vh_user_id h =? u)) (verse_history d)) d)
  /\ history_references (set_verse_history
                    (filter (fun h => negb (vh_user_id h =? u)) (verse_history d)) d).
Proof.
  unfold history_unique, history_references. intros Hu Hr. split.
  - simpl. now apply NoDup_map_filter.
  - intros h Hh. simpl in Hh. apply filter_In in Hh as [Hh _]. now apply Hr.
Qed.

Lemma get_daily_verse_keeps_integrity s d o d' :
  rpc get_daily_verse s d = (o, d') ->
  history_unique d -> history_references d ->
  history_unique d' /\ history_references d'.
Proof.
  rewrite get_daily_verse_rpc. intros H Hu Hr.
  destruct (auth_uid s) as [w|]; [|inversion H; subst; auto].
  destruct (random_row (entropy s 0) _) as [v|].
  - destruct (insert_verse_history _ _ _ _ _) as [[[] d1]|e] eqn:E;
      inversion H; subst; auto.
    split; [eapply history_unique_insert | eapply history_references_insert]; eauto.
  - destruct (random_row (entropy s 1) _) as [v|]; [|inversion H; subst; auto].
    destruct (insert_verse_history _ _ _ _ _) as [[[] d1]|e] eqn:E;
      inversion H; subst; auto.
    destruct (history_integrity_delete w d Hu Hr) as [Hu' Hr'].
    split; [eapply history_unique_insert | eapply history_references_insert]; eauto.
Qed.

(** X2.  Over any sequence of calls of [get_daily_verse], by whichever
    callers and with whichever outcomes, [verse_history] keeps
    UNIQUE(user_id, verse_id) and every row of it keeps referring to an
    identity of [auth.users] and to a verse of [bible_verses]: the reset
    of a user's history and the rows the calls insert never break them. *)
Theorem daily_verse_calls_keep_history_integrity :
  forall (calls : list session) (d d' : DB)
         (evs : list (session * outcome (verse_pick * list text))),
    daily_verse_calls calls d = (evs, d') ->
    history_unique d -> history_references d ->
    history_unique d' /\ history_references d'.
Proof.
  induction calls as [|s rest IH]; intros d d' evs H Hu Hr; simpl in H.
  - inversion H; subst; auto.
  - destruct (rpc get_daily_verse s d) as [o d1] eqn:E1.
    destruct (daily_verse_calls rest d1) as [evs1 d2] eqn:E2.
    inversion H; subst; clear H.
    destruct (get_daily_verse_keeps_integrity s d o d1 E1 Hu Hr) as [Hu1 Hr1].
    eapply IH; eauto.
Qed.

(** Alice, sam, alice again and an anonymous caller, from an empty history. *)
Lemma daily_verse_calls_keep_history_integrity_witness :
  let calls := [session_of (Some 1) 100; session_of (Some 2) 150;
                session_of (Some 1) 200; session_of None 250] in
  let d' := snd (daily_verse_calls calls (sample_db [] [])) in
  history_unique d' /\ history_references d'.
Proof.
  intros calls d'.
  apply (daily_verse_calls_keep_history_integrity calls (sample_db [] []) d'
           (fst (daily_verse_calls calls (sample_db [] [])))).
  - reflexivity.
  - constructor.
  - intros h [].
Defined.

(** X3.  When the caller's id is not in [auth.users] (a token that outlived
    its identity) and there is a verse, [get_daily_verse] fails on the
    foreign key of [verse_history.user_id]: the handler re-raises that
    error, not one of the function's own messages, and the database is
    unchanged, also when the call had already deleted history. *)
Theorem get_daily_verse_unknown_caller :
  forall (s : session) (d : DB) (u : uuid),
    auth_uid s = Some u ->
    user_exists d u = false ->
    bible_verses d <> [] ->
    rpc get_daily_verse s d
    = (Raised (foreign_key_violation "verse_history" "verse_history_user_id_fkey"), d).
Proof.
  intros s d u Hu He Hn. rewrite get_daily_verse_rpc, Hu.
  destruct (random_row (entropy s 0) _) as [v|] eqn:E1.
  - apply random_row_In, filter_In in E1 as [_ E1]. apply unshown_iff in E1.
    unfold insert_verse_history.
    destruct (existsb _ (verse_history d)) eqn:E.
    + apply unique_test_shown in E. contradiction.
    + now rewrite He.
  - destruct (random_row_some (entropy s 1) _ Hn) as [v ->].
    unfold insert_verse_history.
    set (dx := set_verse_history _ d).
    destruct (existsb _ (verse_history dx)) eqn:E.
    + apply unique_test_shown in E. unfold dx in E.
      rewrite shown_ids_delete_same in E. destruct E.
    + unfold user_exists in *. cbn [auth_users dx set_verse_history]. now rewrite He.
Qed.

(** A caller whose id, 7, is not in [auth.users]. *)
Lemma get_daily_verse_unknown_caller_witness :
  rpc get_daily_verse (session_of (Some 7) 100) (sample_db [] [])
  = (Raised (foreign_key_violation "verse_history" "verse_history_user_id_fkey"),
     sample_db [] []).
Proof.
  apply (get_daily_verse_unknown_caller (session_of (Some 7) 100) (sample_db [] []) 7).
  - reflexivity.
  - reflexivity.
  - discriminate.
Defined.

Lemma get_daily_verse_renamed_rpc s d :
  rpc get_daily_verse_renamed s d =
  let uid := auth_uid s in
  match random_row (entropy s 0) (filter (unshown_to d uid) (bible_verses d)) with
  | Some v =>
      match insert_verse_history_values (entropy s 1) uid (Some (bv_id v)) s d with
      | Done (_, d') => (Done (tt, [Some (bv_verse_text v)]), d')
      | Raised e => (Raised e, d)
      end
  | None =>
      let dx := set_verse_history
                  (filter (fun vh => negb (sql_eq Nat.eqb (Some (vh_user_id vh)) uid))
                          (verse_history d)) d in
      let again := random_row (entropy s 1) (bible_verses d) in
      match insert_verse_history_values (entropy s 2) uid (option_map bv_id again) s dx
      with
      | Done (_, d') => (Done (tt, [option_map bv_verse_text again]), d')
      | Raised e => (Raised e, d)
      end
  end.
Proof.
  unfold get_daily_verse_renamed, delete_verse_history_of. pg_run.
  destruct (random_row (entropy s 0) _) as [v|].
  - destruct (insert_verse_history_values _ _ _ _ _) as [[[] d']|e]; reflexivity.
  - cbn [bible_verses set_verse_history].
    destruct (insert_verse_history_values _ _ _ _ _) as [[[] d']|e]; reflexivity.
Qed.

(** X4.  The last redefinition of [get_daily_verse] differs from the one
    before it only where that one failed in the INSERT.  For a caller
    with an id and a verse table that is not empty the two return the
    same rows, raise the same errors and leave the same database.  With
    no authenticated caller the earlier definition raises the NOT NULL
    violation of [verse_history.user_id], and with an empty verse table
    that of [verse_history.verse_id], where the last one raises 'User not
    authenticated' and 'No verses available'. *)
Theorem get_daily_verse_fix_changes_only_errors :
  forall (s : session) (d : DB),
    (forall u, auth_uid s = Some u -> bible_verses d <> [] ->
       rpc get_daily_verse_renamed s d = as_nullable_rows (rpc get_daily_verse s d))
    /\ (auth_uid s = None ->
        rpc get_daily_verse_renamed s d
        = (Raised (not_null_violation "verse_history" "user_id"), d))
    /\ (forall u, auth_uid s = Some u -> bible_verses d = [] ->
        rpc get_daily_verse_renamed s d
        = (Raised (not_null_violation "verse_history" "verse_id"), d)).
Proof.
  intros s d. rewrite get_daily_verse_renamed_rpc. cbv zeta. split; [|split].
  - intros u Hu Hn. rewrite get_daily_verse_rpc, Hu.
    change (filter (unshown_to d (Some u)) (bible_verses d))
      with (filter (unshown d u) (bible_verses d)).
    destruct (random_row (entropy s 0) _) as [v|].
    + cbn [insert_verse_history_values].
      destruct (insert_verse_history _ _ _ _ _) as [[[] d']|e]; reflexivity.
    + destruct (random_row_some (entropy s 1) _ Hn) as [v ->].
      cbn [insert_verse_history_values option_map].
      change (filter (fun vh => negb (sql_eq Nat.eqb (Some (vh_user_id vh)) (Some u)))
                     (verse_history d))
        with (filter (fun h => negb (vh_user_id h =? u)) (verse_history d)).
      destruct (insert_verse_history _ _ _ _ _) as [[[] d']|e]; reflexivity.
  - intros ->. destruct (random_row (entropy s 0) _); reflexivity.
  - intros u -> ->. simpl. now rewrite !random_row_nil.
Qed.

(** Alice over the seeded verses; an anonymous caller; alice over an
    empty verse table. *)
Lemma get_daily_verse_fix_changes_only_errors_witness :
  let no_verses := {| auth_users := [alice]; roles := []; user_roles := [];
                      role_transitions := []; user_invitations := [];
                      bible_verses := []; verse_history := [];
                      auth_users_view := [] |} in
  rpc get_daily_verse_renamed (session_of (Some 1) 100) (sample_db [] [])
  = as_nullable_rows (rpc get_daily_verse (session_of (Some 1) 100) (sample_db [] []))
  /\ rpc get_daily_verse_renamed (session_of None 100) (sample_db [] [])
     = (Raised (not_null_violation "verse_history" "user_id"), sample_db [] [])
  /\ rpc get_daily_verse_renamed (session_of (Some 1) 100) no_verses
     = (Raised (not_null_violation "verse_history" "verse_id"), no_verses).
Proof.
  intros no_verses. split; [|split].
  - apply (proj1 (get_daily_verse_fix_changes_only_errors
                    (session_of (Some 1) 100) (sample_db [] [])) 1).
    + reflexivity.
    + discriminate.
  - apply (proj1 (proj2 (get_daily_verse_fix_changes_only_errors
                           (session_of None 100) (sample_db [] [])))).
    reflexivity.
  - apply (proj2 (proj2 (get_daily_verse_fix_changes_only_errors
                           (session_of (Some 1) 100) no_verses)) 1).
    + reflexivity.
    + reflexivity.
Defined.

(** X5.  [get_daily_verse] as the migration 'Verse Tracking System'
    first defines it raises on every call, for every caller and every
    database, and changes nothing: its first SELECT compares [vh.user_id]
    with an unqualified [user_id], which names both the variable and a
    column of [verse_history]. *)
Theorem get_daily_verse_tracking_always_ambiguous :
  forall (s : session) (d : DB),
    rpc get_daily_verse_tracking s d = (Raised (ambiguous_column "user_id"), d).
Proof.
  intros s d. unfold get_daily_verse_tracking.
  sql_run get_daily_verse_tracking_variables. reflexivity.
Qed.

Lemma firstn_skipn_nth_error {A} (l : list A) : forall k x,
  nth_error l k = Some x -> firstn 1 (skipn k l) = [x].
Proof.
  induction l as [|a l IH]; intros [|k] x H; simpl in *; try discriminate.
  - now injection H as ->.
  - now apply IH.
Qed.

(** X6.  [get_random_verse] never raises and never writes.  Over an empty
    verse table it returns no row; otherwise it returns exactly one row,
    the text of a verse of the table. *)
Theorem get_random_verse_one_row :
  forall (s : session) (d : DB),
    exists rows,
      rpc get_random_verse s d = (Done (tt, rows), d)
      /\ (bible_verses d = [] -> rows = [])
      /\ (bible_verses d <> [] ->
          exists v, In v (bible_verses d) /\ rows = [bv_verse_text v]).
Proof.
  intros s d. unfold get_random_verse. pg_run. cbn [app].
  eexists. split; [reflexivity|]. split.
  - intros ->. simpl. now rewrite skipn_nil.
  - intros Hn.
    destruct (random_row_some (entropy s 0) _ Hn) as [v Hv].
    exists v. split; [now apply random_row_In in Hv|].
    apply firstn_skipn_nth_error. now apply map_nth_error.
Qed.

(** The seeded verses, and an empty verse table. *)
Lemma get_random_verse_one_row_witness :
  (exists v, In v seeded_verses
             /\ rpc get_random_verse (session_of None 100) (sample_db [] [])
                = (Done (tt, [bv_verse_text v]), sample_db [] []))
  /\ rpc get_random_verse (session_of None 100)
         (set_verse_history [] {| auth_users := []; roles := []; user_roles := [];
                                  role_transitions := []; user_invitations := [];
                                  bible_verses := []; verse_history := [];
                                  auth_users_view := [] |})
     = (Done (tt, []),
        set_verse_history [] {| auth_users := []; roles := []; user_roles := [];
                                role_transitions := []; user_invitations := [];
                                bible_verses := []; verse_history := [];
                                auth_users_view := [] |}).
Proof.
  split.
  - destruct (get_random_verse_one_row (session_of None 100) (sample_db [] []))
      as (rows & H1 & _ & H3).
    destruct H3 as (v & Hv & ->); [discriminate|].
    exists v. split; [exact Hv | exact H1].
  - destruct (get_random_verse_one_row (session_of None 100)
                (set_verse_history [] {| auth_users := []; roles := []; user_roles := [];
                                         role_transitions := []; user_invitations := [];
                                         bible_verses := []; verse_history := [];
                                         auth_users_view := [] |}))
      as (rows & H1 & H2 & _).
    rewrite H1, (H2 eq_refl). reflexivity.
Defined.

(** ** More on the access checks *)

(** X7.  A role that [has_role] grants at some time it grants at every
    earlier time, on the same database: an expiry can only take a role
    away as time passes.  And it grants nothing to a NULL user id. *)
Theorem has_role_holds_at_earlier_times :
  forall (R : Type) (role_name : text) (user_id : option uuid) (s s' : session) (d : DB),
    (now s' <= now s)%Z ->
    rpc (R := R) (has_role user_id role_name) s d = (Done (true, []), d) ->
    rpc (R := R) (has_role user_id role_name) s' d = (Done (true, []), d)
    /\ user_id <> None.
Proof.
  intros R name [u|] s s' d Hle H.
  - split; [|discriminate].
    apply has_role_true_iff in H as (ur & r & H1 & H2 & H3 & H4 & H5 & H6 & H7).
    apply has_role_true_iff. exists ur, r. repeat split; auto.
    destruct H7 as [H7|(t & H7 & Ht)]; [now left|right].
    exists t. split; auto. lia.
  - exfalso. unfold has_role in H. rewrite rpc_query in H. injection H as H.
    apply existsb_exists in H as (ur & _ & H). apply existsb_exists in H as (r & _ & H).
    repeat (apply andb_prop in H as [H ?]). simpl in *. discriminate.
Qed.

(** Alice holds 'admin' until time 200: the check at time 100 passes, and
    so does the check at time 50. *)
Lemma has_role_holds_at_earlier_times_witness :
  rpc (R := unit) (has_role (Some 1) "admin") (session_of (Some 1) 50)
      (sample_db [assignment 31 1 10 (Some 200%Z)] [])
  = (Done (true, []), sample_db [assignment 31 1 10 (Some 200%Z)] [])
  /\ Some 1 <> None.
Proof.
  apply (has_role_holds_at_earlier_times unit "admin" (Some 1)
           (session_of (Some 1) 100) (session_of (Some 1) 50)
           (sample_db [assignment 31 1 10 (Some 200%Z)] [])).
  - simpl. lia.
  - reflexivity.
Defined.

(** X8.  Whoever passes [has_role(auth.uid(), 'admin')] at some time
    passes [has_admin_access()], on the same database and at any time:
    the second check is the first without the test of the expiry. *)
Theorem has_role_admin_implies_has_admin_access :
  forall (R : Type) (s s' : session) (d : DB),
    auth_uid s' = auth_uid s ->
    rpc (R := R) (has_role (auth_uid s) "admin") s d = (Done (true, []), d) ->
    rpc (R := R) has_admin_access s' d = (Done (true, []), d).
Proof.
  intros R s s' d He H. apply effective_admin_has_access in H.
  apply has_admin_access_true_iff in H as (ur & r & H).
  apply has_admin_access_true_iff. exists ur, r. now rewrite He.
Qed.

(** Alice holds 'admin' without expiry. *)
Lemma has_role_admin_implies_has_admin_access_witness :
  rpc (R := unit) has_admin_access (session_of (Some 1) 300)
      (sample_db [assignment 31 1 10 None] [])
  = (Done (true, []), sample_db [assignment 31 1 10 None] []).
Proof.
  apply (has_role_admin_implies_has_admin_access unit
           (session_of (Some 1) 100) (session_of (Some 1) 300)
           (sample_db [assignment 31 1 10 None] [])).
  - reflexivity.
  - reflexivity.
Defined.

(** X9.  [get_users] never writes; an anonymous caller is always denied;
    and the rows a successful call returns are the stored rows of the
    materialized view, whatever the tables hold by then. *)
Theorem get_users_reads_the_stored_rows :
  forall (s : session) (d : DB),
    (auth_uid s = None ->
     rpc get_users s d = (Raised (raise_exception "Access denied"), d))
    /\ snd (rpc get_users s d) = d
    /\ (forall rows, fst (rpc get_users s d) = Done (tt, rows) -> rows = auth_users_view d).
Proof.
  intros s d. rewrite !get_users_gate. unfold has_admin_access. rewrite !rpc_query.
  cbn [user_roles roles set_auth_users_view auth_users_view].
  repeat split.
  - intros ->. simpl.
    replace (existsb _ (user_roles d)) with false; auto.
    symmetry. apply not_true_iff_false. intros H.
    apply existsb_exists in H as (ur & _ & H). apply existsb_exists in H as (r & _ & H).
    repeat (apply andb_prop in H as [H ?]). simpl in *. discriminate.
  - destruct (existsb _ (user_roles d)); reflexivity.
  - destruct (existsb _ (user_roles d)); simpl; intros rows H; now inversion H.
Qed.

(** An anonymous caller, and alice as an admin. *)
Lemma get_users_reads_the_stored_rows_witness :
  rpc get_users (session_of None 100) (sample_db [] [])
  = (Raised (raise_exception "Access denied"), sample_db [] [])
  /\ exists rows,
       fst (rpc get_users (session_of (Some 1) 100)
              (sample_db [assignment 31 1 10 None] [])) = Done (tt, rows)
       /\ rows = auth_users_view (sample_db [assignment 31 1 10 None] []).
Proof.
  split.
  - apply (proj1 (get_users_reads_the_stored_rows
                    (session_of None 100) (sample_db [] []))).
    reflexivity.
  - exists (auth_users_view (sample_db [assignment 31 1 10 None] [])).
    split; [reflexivity|].
    apply (proj2 (proj2 (get_users_reads_the_stored_rows
                           (session_of (Some 1) 100)
                           (sample_db [assignment 31 1 10 None] [])))).
    reflexivity.
Defined.

(** X10.  What the row-level security of [user_roles] lets a SELECT see:
    every row for a caller that [has_role] finds to be an admin,
    otherwise exactly the caller's own rows, and no row without an
    authenticated caller.  The SELECT changes nothing. *)
Theorem select_user_roles_visibility :
  forall (R : Type) (s : session) (d : DB),
    exists rows,
      rpc (R := R) select_user_roles s d = (Done (rows, []), d)
      /\ (rpc (R := R) (has_role (auth_uid s) "admin") s d = (Done (true, []), d) ->
          rows = user_roles d)
      /\ (rpc (R := R) (has_role (auth_uid s) "admin") s d = (Done (false, []), d) ->
          forall ur, In ur rows <-> In ur (user_roles d) /\ auth_uid s = Some (ur_user_id ur))
      /\ (auth_uid s = None -> rows = []).
Proof.
  intros R s d. eexists.
  split; [unfold select_user_roles, has_role; pg_run; reflexivity|].
  unfold has_role. rewrite !rpc_query.
  set (admin := existsb _ (user_roles d)).
  split; [|split].
  - intros H. injection H as ->. simpl.
    induction (user_roles d) as [|a l IH]; simpl; congruence.
  - intros H. injection H as ->. simpl. intros ur. rewrite filter_In.
    split; intros [H1 H2]; split; auto.
    + destruct (auth_uid s) as [u|]; simpl in H2; [|discriminate].
      apply Nat.eqb_eq in H2. now subst.
    + rewrite H2. simpl. apply Nat.eqb_refl.
  - intros Hu.
    assert (admin = false) as ->.
    { unfold admin. apply not_true_iff_false. intros H.
      apply existsb_exists in H as (ur & _ & H). apply existsb_exists in H as (r & _ & H).
      repeat (apply andb_prop in H as [H ?]). rewrite Hu in *. simpl in *. discriminate. }
    rewrite Hu. simpl. apply filter_nil_iff. auto.
Qed.

(** Alice holds 'user' and sam holds 'admin': sam sees both rows, alice
    her own, an anonymous caller none. *)
Lemma select_user_roles_visibility_witness :
  let d := sample_db [assignment 31 1 12 None; assignment 32 2 10 None] [] in
  rpc (R := unit) select_user_roles (session_of (Some 2) 100) d
  = (Done (user_roles d, []), d)
  /\ (exists rows,
        rpc (R := unit) select_user_roles (session_of (Some 1) 100) d
        = (Done (rows, []), d)
        /\ forall ur, In ur rows <-> In ur (user_roles d) /\ Some 1 = Some (ur_user_id ur))
  /\ rpc (R := unit) select_user_roles (session_of None 100) d = (Done ([], []), d).
Proof.
  intros d. split; [|split].
  - destruct (select_user_roles_visibility unit (session_of (Some 2) 100) d)
      as (rows & H1 & H2 & _).
    rewrite H1, (H2 eq_refl). reflexivity.
  - destruct (select_user_roles_visibility unit (session_of (Some 1) 100) d)
      as (rows & H1 & _ & H3 & _).
    exists rows. split; [exact H1|]. apply H3. reflexivity.
  - destruct (select_user_roles_visibility unit (session_of None 100) d)
      as (rows & H1 & _ & _ & H4).
    rewrite H1, (H4 eq_refl). reflexivity.
Defined.

(** ** More on the stored view *)

Lemma left_join_rows_In {B} (l : list B) (o : option B) :
  In o (left_join_rows l) <-> (l = [] /\ o = None) \/ (exists b, In b l /\ o = Some b).
Proof.
  unfold left_join_rows. destruct l as [|a l].
  - simpl. split.
    + intros [<-|[]]. now left.
    + intros [[_ ->]|(b & [] & _)]. now left.
  - rewrite in_map_iff. split.
    + intros (b & <- & H). right. eauto.
    + intros [[H _]|(b & H & ->)]; [discriminate|eauto].
Qed.

Lemma insert_sorted_In x y xs : In y (insert_sorted x xs) <-> y = x \/ In y xs.
Proof.
  induction xs as [|a xs IH]; simpl.
  - intuition.
  - destruct (text_le x a); simpl; rewrite ?IH; intuition.
Qed.

Lemma array_agg_distinct_In x xs : In x (array_agg_distinct xs) <-> In x xs.
Proof.
  unfold array_agg_distinct. rewrite <- (nodup_In option_text_dec xs x).
  induction (nodup option_text_dec xs) as [|a l IH]; simpl; [tauto|].
  rewrite insert_sorted_In, IH. intuition.
Qed.

Lemma insert_sorted_NoDup x xs :
  ~ In x xs -> NoDup xs -> NoDup (insert_sorted x xs).
Proof.
  induction xs as [|a xs IH]; simpl; intros Hx Hnd.
  - constructor; [intros []|constructor].
  - destruct (text_le x a).
    + constructor; auto.
    + inversion Hnd as [|? ? Ha Hxs]; subst. constructor.
      * rewrite insert_sorted_In. intros [->|H]; [apply Hx; now left | contradiction].
      * apply IH; auto.
Qed.

Lemma array_agg_distinct_NoDup xs : NoDup (array_agg_distinct xs).
Proof.
  unfold array_agg_distinct.
  pose proof (NoDup_nodup option_text_dec xs) as H.
  induction (nodup option_text_dec xs) as [|a l IH]; simpl; [constructor|].
  inversion H as [|? ? Ha Hl]; subst. apply insert_sorted_NoDup; auto.
  intros C. apply Ha. revert C. clear.
  induction l as [|b l IH]; simpl; auto.
  rewrite insert_sorted_In. intros [->|C]; auto.
Qed.

Lemma view_roles_In d row :
  In row (auth_users_view_query d) ->
  forall name,
    In (Some name) (v_roles row) <->
    exists ur r,
      In ur (user_roles d) /\ ur_user_id ur = v_id row
      /\ ur_is_active ur = Some true
      /\ In r (roles d) /\ r_id r = ur_role_id ur /\ r_name r = name.
Proof.
  intros H. unfold auth_users_view_query in H.
  apply in_map_iff in H as (au & <- & Hau). cbn [v_roles v_id].
  unfold array_remove_null.
  intros name. rewrite filter_In, array_agg_distinct_In, in_map_iff. split.
  - intros [(o & E & Ho) _]. destruct o as [r|]; [|discriminate].
    injection E as E. apply in_flat_map in Ho as (our & Hour & Hr).
    apply left_join_rows_In in Hr as [[_ C]|(r' & Hr & E')]; [discriminate|].
    injection E' as <-.
    destruct our as [ur|]; [|destruct Hr].
    apply filter_In in Hr as [Hr Hc]. apply andb_prop in Hc as [Hc1 Hc2].
    apply Nat.eqb_eq in Hc1.
    unfold joined_user_roles in Hour.
    apply left_join_rows_In in Hour as [[_ C]|(ur' & Hur & E')]; [discriminate|].
    injection E' as <-. apply filter_In in Hur as [Hur Hu]. apply Nat.eqb_eq in Hu.
    exists ur, r. repeat split; auto.
    destruct (ur_is_active ur) as [[|]|]; simpl in Hc2; congruence.
  - intros (ur & r & Hur & Hu & Ha & Hr & Hid & Hn). split; [|reflexivity].
    exists (Some r). split; [simpl; now rewrite Hn|].
    apply in_flat_map. exists (Some ur). split.
    + unfold joined_user_roles. apply left_join_rows_In. right. exists ur.
      split; auto. apply filter_In. split; auto. now apply Nat.eqb_eq.
    + apply left_join_rows_In. right. exists r. split; auto.
      apply filter_In. split; auto. rewrite Hid, Ha. simpl.
      now rewrite Nat.eqb_refl.
Qed.

(** X11.  In every row of the view as a refresh computes it, [roles] has
    no duplicate and no NULL, and holds exactly the names of the roles
    that an assignment of that user with [is_active = true] refers to:
    neither the expiry of the assignment nor inactive assignments
    matter. *)
Theorem auth_users_view_roles :
  forall (d : DB) (row : auth_users_view_row),
    In row (auth_users_view_query d) ->
    NoDup (v_roles row)
    /\ ~ In None (v_roles row)
    /\ forall name,
         In (Some name) (v_roles row) <->
         exists ur r,
           In ur (user_roles d) /\ ur_user_id ur = v_id row
           /\ ur_is_active ur = Some true
           /\ In r (roles d) /\ r_id r = ur_role_id ur /\ r_name r = name.
Proof.
  intros d row H. split; [|split].
  - unfold auth_users_view_query in H.
    apply in_map_iff in H as (au & <- & Hau).
    apply NoDup_filter, array_agg_distinct_NoDup.
  - unfold auth_users_view_query in H.
    apply in_map_iff in H as (au & <- & Hau).
    intros C. apply filter_In in C as [_ C]. discriminate.
  - now apply view_roles_In.
Qed.

(** Alice's row when she holds 'admin' and 'user'. *)
Lemma auth_users_view_roles_witness :
  let d := sample_db [assignment 31 1 10 None; assignment 32 1 12 None] [] in
  let row := hd alice_row (auth_users_view_query d) in
  NoDup (v_roles row)
  /\ ~ In None (v_roles row)
  /\ forall name,
       In (Some name) (v_roles row) <->
       exists ur r,
         In ur (user_roles d) /\ ur_user_id ur = v_id row
         /\ ur_is_active ur = Some true
         /\ In r (roles d) /\ r_id r = ur_role_id ur /\ r_name r = name.
Proof.
  intros d row. apply (auth_users_view_roles d row).
  left. reflexivity.
Defined.

(** X12.  The view with the join condition on [ur.is_active] lists every
    identity of [auth.users].  The view of the migration 'User Management
    System Enhancement', which filters [ur.is_active = true OR
    ur.is_active IS NULL] after the joins, lists an identity exactly when
    it has no assignment at all or an assignment that is not inactive: an
    identity all of whose assignments are inactive is missing from it. *)
Theorem auth_users_view_listed_identities :
  forall (d : DB) (au : auth_user),
    In au (auth_users d) ->
    (exists row, In row (auth_users_view_query d) /\ v_id row = au_id au)
    /\ ((exists row, In row (auth_users_view_query_enhancement d) /\ v_id row = au_id au)
        <-> assignments_of d (au_id au) = []
            \/ exists ur, In ur (assignments_of d (au_id au)) /\ not_inactive ur = true).
Proof.
  intros d au Hau. split.
  - eexists. split; [apply in_map; exact Hau | reflexivity].
  - unfold auth_users_view_query_enhancement. split.
    + intros (row & Hrow & Hid). apply in_flat_map in Hrow as (au' & Hau' & Hrow).
      destruct (filter _ _) as [|k kept] eqn:K; [destruct Hrow|].
      destruct Hrow as [<-|[]]. cbn [v_id] in Hid. rewrite <- Hid.
      assert (Hk : In k (k :: kept)) by now left.
      rewrite <- K in Hk. apply filter_In in Hk as [Hk Hf].
      apply in_flat_map in Hk as (our & Hour & Hk).
      apply in_map_iff in Hk as (r & <- & _). cbn [fst] in Hf.
      unfold joined_user_roles in Hour.
      apply left_join_rows_In in Hour as [[E _]|(ur & Hur & ->)].
      * now left.
      * right. exists ur. split; auto.
    + intros H.
      match goal with
      | |- exists row, In row (flat_map ?F _) /\ _ =>
          assert (Hr : exists row, In row (F au) /\ v_id row = au_id au)
      end.
      { cbv beta zeta.
        match goal with
        | |- exists row, In row match filter ?f ?j with _ => _ end /\ _ =>
            assert (Hex : exists k, In k (filter f j))
        end.
        { unfold joined_user_roles. fold (assignments_of d (au_id au)).
          destruct H as [E|(ur & Hur & Ha)].
          - rewrite E. simpl. exists (None, None). now left.
          - destruct (left_join_rows
                        (filter (fun r => r_id r =? ur_role_id ur) (roles d)))
              as [|r rs] eqn:L.
            { unfold left_join_rows in L. destruct (filter _ (roles d)); discriminate. }
            exists (Some ur, r). apply filter_In. split; [|exact Ha].
            apply in_flat_map. exists (Some ur). split.
            + apply left_join_rows_In. right. eauto.
            + rewrite L. now left. }
        destruct Hex as [k Hk].
        destruct (filter _ _) as [|k' kept]; [destruct Hk|].
        eexists. split; [left; reflexivity | reflexivity]. }
      destruct Hr as (row & Hin & Hid). exists row. split; auto.
      apply in_flat_map. exists au. split; auto.
Qed.

(** Alice's only assignment is inactive, sam has none. *)
Lemma auth_users_view_listed_identities_witness :
  let d := sample_db [{| ur_id := 31; ur_user_id := 1; ur_role_id := 12;
                         ur_assigned_by := None; ur_assigned_at := Some 0%Z;
                         ur_expires_at := None; ur_is_active := Some false |}] [] in
  (exists row, In row (auth_users_view_query d) /\ v_id row = au_id alice)
  /\ ((exists row, In row (auth_users_view_query_enhancement d) /\ v_id row = au_id alice)
      <-> assignments_of d (au_id alice) = []
          \/ exists ur, In ur (assignments_of d (au_id alice)) /\ not_inactive ur = true).
Proof.
  intros d. apply (auth_users_view_listed_identities d alice).
  left. reflexivity.
Defined.

(** ** More on role assignment *)

(** The database the block leaves when it finds the user and the role. *)
Lemma assign_admin_role_run {R} s d u r :
  select_user_id_by_email "sam@reachloud.com" d = Some u ->
  select_role_id_by_name "admin" d = Some r ->
  exists d',
    rpc (R := R) assign_admin_role s d = (Done (tt, []), d')
    /\ roles d' = roles d /\ auth_users d' = auth_users d
    /\ In {| ur_id := entropy s 0; ur_user_id := u; ur_role_id := r;
             ur_assigned_by := None; ur_assigned_at := Some (now s);
             ur_expires_at := None; ur_is_active := Some true |} (user_roles d')
    /\ view_fresh d'.
Proof.
  intros Eu Er. unfold assign_admin_role.
  sql_run assign_admin_role_variables. pg_run. rewrite Eu, Er.
  apply select_user_id_exists in Eu. apply select_role_id_exists in Er.
  unfold delete_user_roles, insert_user_roles, insert_user_roles_rows,
    user_roles_violation, insert_role_transitions.
  cbn [user_roles refresh_auth_users_view set_auth_users_view set_user_roles
       ur_user_id ur_role_id ur_assigned_by
       rt_user_id rt_old_role_id rt_new_role_id rt_changed_by].
  rewrite no_assignment_after_delete.
  unfold user_exists, role_exists in *.
  cbn [auth_users roles set_user_roles set_auth_users_view refresh_auth_users_view].
  rewrite Eu, Er. cbn [negb].
  cbn [auth_users roles set_user_roles set_auth_users_view refresh_auth_users_view].
  rewrite Eu, Er. cbn [negb].
  eexists. split; [reflexivity|].
  split; [reflexivity|]. split; [reflexivity|]. split; [|reflexivity].
  cbn [user_roles set_role_transitions set_auth_users_view set_user_roles].
  apply in_or_app. right. now left.
Qed.

Lemma select_role_id_by_name_In name d r :
  select_role_id_by_name name d = Some r ->
  exists x, In x (roles d) /\ r_id x = r /\ r_name x = name.
Proof.
  unfold select_role_id_by_name. destruct (find _ _) as [x|] eqn:E; [|discriminate].
  intros H. injection H as <-. apply find_some in E as [E1 E2].
  apply String.eqb_eq in E2. eauto.
Qed.

(** X13.  When an identity has the address sam@reachloud.com and a role is
    named 'admin', the block succeeds, and afterwards that identity
    passes [has_admin_access()] and [has_role(auth.uid(), 'admin')] at
    any time, and the stored view is up to date. *)
Theorem assign_admin_role_makes_admin :
  forall (R : Type) (s later : session) (d : DB) (u r : uuid),
    select_user_id_by_email "sam@reachloud.com" d = Some u ->
    select_role_id_by_name "admin" d = Some r ->
    auth_uid later = Some u ->
    exists d',
      rpc (R := R) assign_admin_role s d = (Done (tt, []), d')
      /\ rpc (R := R) has_admin_access later d' = (Done (true, []), d')
      /\ rpc (R := R) (has_role (auth_uid later) "admin") later d' = (Done (true, []), d')
      /\ view_fresh d'.
Proof.
  intros R s later d u r Eu Er Hl.
  destruct (assign_admin_role_run (R := R) s d u r Eu Er) as (d' & Hrun & Hr & _ & Hin & Hv).
  apply select_role_id_by_name_In in Er as (x & Hx & Hid & Hn).
  exists d'. split; auto. split; [|split; auto].
  - apply has_admin_access_true_iff. eexists. exists x. split; [exact Hin|].
    rewrite Hr. repeat split; auto.
  - rewrite Hl. apply has_role_true_iff. eexists. exists x. split; [exact Hin|].
    rewrite Hr. repeat split; auto.
Qed.

(** The block run at time 100 on the sample database; sam calls at 500. *)
Lemma assign_admin_role_makes_admin_witness :
  exists d',
    rpc (R := unit) assign_admin_role (session_of None 100) (sample_db [] [])
    = (Done (tt, []), d')
    /\ rpc (R := unit) has_admin_access (session_of (Some 2) 500) d' = (Done (true, []), d')
    /\ rpc (R := unit) (has_role (auth_uid (session_of (Some 2) 500)) "admin")
           (session_of (Some 2) 500) d' = (Done (true, []), d')
    /\ view_fresh d'.
Proof.
  apply (assign_admin_role_makes_admin unit (session_of None 100)
           (session_of (Some 2) 500) (sample_db [] []) 2 10).
  - reflexivity.
  - reflexivity.
  - reflexivity.
Defined.

(** ** More on invitations *)

Lemma not_admin_gate {R} (m : PG R unit) s d :
  rpc (R := R) has_admin_access s d = (Done (false, []), d) ->
  rpc (admin <- has_admin_access ;;
       (if negb admin then raise (raise_exception "Access denied") else ret tt) ;;
       m) s d
  = (Raised (raise_exception "Access denied"), d).
Proof. intros H. now rewrite admin_gate, H. Qed.

(** X14.  For a caller none of whose assignments with [is_active = true]
    refers to a role named 'admin', [invite_users] and
    [bulk_create_users] raise 'Access denied', whatever the emails and
    roles, and leave the database unchanged. *)
Theorem bulk_procedures_deny_non_admin :
  forall (s : session) (d : DB) (emails role_names : text_array),
    (forall ur r, In ur (user_roles d) -> In r (roles d) ->
                  r_id r = ur_role_id ur -> auth_uid s = Some (ur_user_id ur) ->
                  r_name r = "admin" -> ur_is_active ur <> Some true) ->
    rpc (invite_users emails role_names) s d
    = (Raised (raise_exception "Access denied"), d)
    /\ rpc (bulk_create_users emails role_names) s d
       = (Raised (raise_exception "Access denied"), d).
Proof.
  intros s d emails rs Hno.
  assert (H : forall R, rpc (R := R) has_admin_access s d = (Done (false, []), d)).
  { intros R. unfold has_admin_access. rewrite rpc_query. do 2 f_equal. f_equal.
    apply not_true_iff_false. intros C.
    assert (C' : rpc (R := R) has_admin_access s d = (Done (true, []), d)).
    { unfold has_admin_access. rewrite rpc_query. now rewrite C. }
    apply has_admin_access_true_iff in C' as (ur & r & H1 & H2 & H3 & H4 & H5 & H6).
    now apply (Hno ur r). }
  split; apply not_admin_gate, H.
Qed.

(** Alice with no assignment at all. *)
Lemma bulk_procedures_deny_non_admin_witness :
  rpc (invite_users [Some "new@example.com"] [Some "user"])
      (session_of (Some 1) 100) (sample_db [] [])
  = (Raised (raise_exception "Access denied"), sample_db [] [])
  /\ rpc (bulk_create_users [Some "new@example.com"] [Some "user"])
         (session_of (Some 1) 100) (sample_db [] [])
     = (Raised (raise_exception "Access denied"), sample_db [] []).
Proof.
  apply (bulk_procedures_deny_non_admin (session_of (Some 1) 100) (sample_db [] [])
           [Some "new@example.com"] [Some "user"]).
  intros ur r [].
Defined.

(** X15.  No call of [bulk_create_users] changes the database, for no
    caller and no arguments; and when the call returns rows, every one of
    them has the status 'error'. *)
Theorem bulk_create_users_never_writes :
  forall (s : session) (d : DB) (user_emails user_roles : text_array),
    snd (rpc (bulk_create_users user_emails user_roles) s d) = d
    /\ forall rows, fst (rpc (bulk_create_users user_emails user_roles) s d)
                    = Done (tt, rows) ->
                    Forall (fun row => status row = "error") rows.
Proof.
  intros s d emails rs. unfold bulk_create_users. rewrite admin_gate.
  destruct (rpc (R := bulk_create_users_row) has_admin_access s d) as [[[[|] o]|e] d0] eqn:E;
    try (split; [reflexivity | intros rows H; discriminate]).
  unfold rpc. rewrite bulk_create_users_loop. cbn [st_db st_out fst snd app].
  split; [reflexivity|]. intros rows H. injection H as <-.
  apply Forall_forall. intros row Hrow. apply in_map_iff in Hrow as (e & <- & _).
  reflexivity.
Qed.

(** Alice, an admin, creates two users. *)
Lemma bulk_create_users_never_writes_witness :
  let d := sample_db [assignment 31 1 10 None] [] in
  let call := rpc (bulk_create_users [Some "new@example.com"; Some "alice@example.com"]
                     [Some "user"]) (session_of (Some 1) 100) d in
  snd call = d
  /\ exists rows, fst call = Done (tt, rows)
                  /\ Forall (fun row => status row = "error") rows.
Proof.
  intros d call.
  destruct (bulk_create_users_never_writes (session_of (Some 1) 100) d
              [Some "new@example.com"; Some "alice@example.com"] [Some "user"])
    as [H1 H2].
  split; [exact H1|].
  eexists. split; [vm_compute; reflexivity|].
  apply H2. vm_compute. reflexivity.
Defined.

(** ** More on invitations and their verification *)

(** X16.  [invite_users] inserts only into [user_invitations], which has
    no refresh trigger.  So after an admin's successful call, the listing
    [get_users] returns is still the one stored before the call, although
    in a rebuilt view every identity with an invited address would have
    [has_pending_invitation] set. *)
Theorem invite_users_leaves_listing_stale :
  forall (s : session) (d : DB) (es : list text) (role_names : text_array),
    rpc (R := user_invitation) has_admin_access s d = (Done (true, []), d) ->
    inviter_ok s d ->
    let d' := set_user_invitations
                (user_invitations d ++ invitation_rows s role_names 0 es) d in
    rpc (invite_users (map Some es) role_names) s d
    = (Done (tt, invitation_rows s role_names 0 es), d')
    /\ rpc get_users s d' = (Done (tt, auth_users_view d), d')
    /\ forall row e,
         In row (auth_users_view_query d') -> In e es -> v_email row = Some e ->
         v_has_pending_invitation row = true.
Proof.
  intros s d es rn Hadmin Hok d'. split; [|split].
  - unfold invite_users. rewrite admin_gate, Hadmin. unfold rpc.
    rewrite invite_users_loop_addresses by exact Hok. reflexivity.
  - rewrite get_users_gate.
    assert (A : rpc (R := auth_users_view_row) has_admin_access s d'
                = (Done (true, []), d')).
    { apply has_admin_access_true_iff.
      apply has_admin_access_true_iff in Hadmin. exact Hadmin. }
    now rewrite A.
  - intros row e Hrow He Hmail.
    destruct (view_row_origin d' row (or_introl Hrow)) as (au & _ & Em & ->).
    apply view_has_pending_invitation_iff.
    assert (Hex : forall n, exists ui, In ui (invitation_rows s rn n es)
                                       /\ ui_email ui = e /\ ui_status ui = "pending").
    { clear - He. induction es as [|a l IH]; [destruct He|].
      intros n. destruct He as [->|He].
      - eexists. split; [left; reflexivity|]. split; reflexivity.
      - destruct (IH He (S (S n))) as (ui & H1 & H2). exists ui. split; auto.
        now right. }
    destruct (Hex 0) as (ui & H1 & H2 & H3). exists ui. split; [|split; auto].
    + unfold d'. cbn [user_invitations set_user_invitations]. apply in_or_app. now right.
    + rewrite H2, <- Em. now symmetry.
Qed.

(** Alice, an admin, invites sam's address: the listing she then gets is
    the one from before, while sam's row of a rebuilt view has the flag. *)
Lemma invite_users_leaves_listing_stale_witness :
  let d := sample_db [assignment 31 1 10 None] [] in
  let s := session_of (Some 1) 100 in
  let es := ["sam@reachloud.com"] in
  let d' := set_user_invitations
              (user_invitations d ++ invitation_rows s [Some "user"] 0 es) d in
  rpc (invite_users (map Some es) [Some "user"]) s d
  = (Done (tt, invitation_rows s [Some "user"] 0 es), d')
  /\ rpc get_users s d' = (Done (tt, auth_users_view d), d')
  /\ v_has_pending_invitation (nth 1 (auth_users_view_query d') alice_row) = true
  /\ v_has_pending_invitation (nth 1 (auth_users_view d') alice_row) = false.
Proof.
  intros d s es d'.
  assert (Hok : inviter_ok s d).
  { intros u H. injection H as <-. reflexivity. }
  destruct (invite_users_leaves_listing_stale s d es [Some "user"] eq_refl Hok)
    as (H1 & H2 & H3).
  split; [exact H1|]. split; [exact H2|]. split; [|reflexivity].
  apply (H3 (nth 1 (auth_users_view_query d') alice_row) "sam@reachloud.com").
  - right. left. reflexivity.
  - left. reflexivity.
  - reflexivity.
Defined.

Lemma handle_user_verification_only_view OLD NEW acc :
  exists y, handle_user_verification OLD NEW acc = set_auth_users_view y acc.
Proof.
  unfold handle_user_verification. destruct (_ && _).
  - eexists. reflexivity.
  - exists (auth_users_view acc). now destruct acc.
Qed.

Lemma row_triggers_only_view user_id l : forall acc,
  exists x,
    fold_left (fun acc au =>
                 if au_id au =? user_id
                 then handle_user_verification au (verified au) acc
                 else acc) l acc
    = set_auth_users_view x acc.
Proof.
  induction l as [|a l IH]; intros acc; simpl.
  - exists (auth_users_view acc). now destruct acc.
  - destruct (au_id a =? user_id); [|apply IH].
    destruct (handle_user_verification_only_view a (verified a) acc) as [y ->].
    destruct (IH (set_auth_users_view y acc)) as [x ->].
    exists x. reflexivity.
Qed.

Lemma user_exists_after_updates u user_id inv d :
  user_exists
    (set_auth_users
       (map (fun au => if au_id au =? user_id then verified au else au) (auth_users d))
       (set_user_invitations
          (map (fun ui => if ui_id ui =? ui_id inv then with_status "accepted" ui else ui)
               (user_invitations d)) d)) u
  = user_exists d u.
Proof. unfold user_exists. cbn [auth_users set_auth_users]. apply user_exists_verified. Qed.

(** The run of [verify_user_email] when it finds its invitation and the
    grants can be inserted. *)
Lemma verify_user_email_found {R} s d user_id token inv :
  matching_invitation user_id token s d = Some inv ->
  NoDup (map r_id (invited_roles d (ui_roles inv))) ->
  (forall ur, In ur (user_roles d) -> ur_user_id ur = user_id ->
              ~ In (ur_role_id ur) (map r_id (invited_roles d (ui_roles inv)))) ->
  rpc (R := R) (verify_user_email user_id token) s d
  = (Done (true, []), after_verification user_id inv (grants_of user_id inv s d) d).
Proof.
  intros Hm Hnd Hnew.
  pose proof (matching_invitation_user _ _ _ _ _ Hm) as Hu.
  unfold verify_user_email. sql_run verify_user_email_variables. pg_run.
  rewrite Hm.
  unfold update_user_invitations_accepted, update_auth_users_email_verified.
  cbn [auth_users set_user_invitations].
  match goal with
  | |- context [fold_left ?f ?l ?acc] =>
      destruct (row_triggers_only_view user_id l acc) as [x ->]
  end.
  set (z := set_auth_users _ (set_user_invitations _ d)).
  change (invited_roles (refresh_auth_users_view (set_auth_users_view x z)) (ui_roles inv))
    with (invited_roles d (ui_roles inv)).
  rewrite draw_many_run. cbn [Nat.add]. unfold insert_user_roles.
  fold (grants_of user_id inv s d).
  rewrite insert_user_roles_rows_ok.
  - reflexivity.
  - intros row Hrow. apply granted_rows_In in Hrow as (-> & -> & _ & r & Hr & ->).
    split; [|split; auto].
    + change (user_exists (refresh_auth_users_view (set_auth_users_view x z)) user_id)
        with (user_exists z user_id).
      unfold z. now rewrite user_exists_after_updates.
    + apply (role_exists_In d). now apply invited_roles_In in Hr.
  - unfold grants_of. rewrite granted_rows_keys by now rewrite length_map, length_seq.
    now apply NoDup_keys.
  - intros row ur Hrow Hur [Ea Eb].
    apply granted_rows_In in Hrow as (Er & _ & _ & r & Hr & Ei).
    apply (Hnew ur Hur); [congruence|]. rewrite Eb, Ei. now apply in_map.
Qed.

Lemma find_none_iff {A} (f : A -> bool) l :
  find f l = None <-> forall x, In x l -> f x = false.
Proof.
  split.
  - intros H x Hx. now apply (find_none f l H).
  - induction l as [|a l IH]; simpl; auto. intros H.
    rewrite (H a (or_introl eq_refl)). apply IH. auto.
Qed.

Lemma verify_user_email_not_found {R} s d user_id token :
  matching_invitation user_id token s d = None ->
  rpc (R := R) (verify_user_email user_id token) s d = (Done (false, []), d).
Proof.
  intros Hm. unfold verify_user_email. sql_run verify_user_email_variables. pg_run.
  now rewrite Hm.
Qed.

Lemma matching_invitation_none user_id token s d :
  user_exists d user_id = false
  \/ (forall ui, In ui (user_invitations d) ->
                 ui_invitation_token ui = token ->
                 (ui_expires_at ui <= now s)%Z \/ ui_status ui <> "pending") ->
  matching_invitation user_id token s d = None.
Proof.
  intros H. unfold matching_invitation. apply find_none_iff. intros ui Hui.
  destruct H as [H|H].
  - destruct (find (fun au => au_id au =? user_id) (auth_users d)) as [au|] eqn:E.
    + apply find_some in E as [E1 E2].
      assert (user_exists d user_id = true) by (apply existsb_exists; eauto).
      congruence.
    + reflexivity.
  - destruct (String.eqb (ui_invitation_token ui) token) eqn:Et;
      [|now rewrite andb_false_r].
    apply String.eqb_eq in Et. destruct (H ui Hui Et) as [Hx|Hx].
    + replace (now s <? ui_expires_at ui)%Z with false; [now rewrite andb_false_r|].
      symmetry. apply Z.ltb_ge. exact Hx.
    + replace (String.eqb (ui_status ui) "pending") with false;
        [now rewrite andb_false_r|].
      symmetry. apply String.eqb_neq. exact Hx.
Qed.

(** X17.  [verify_user_email] returns false and changes nothing when the
    user id is not in [auth.users], and when every invitation that
    carries the token has expired or is no longer pending. *)
Theorem verify_user_email_refuses :
  forall (R : Type) (s : session) (d : DB) (user_id : uuid) (verification_token : text),
    user_exists d user_id = false
    \/ (forall ui, In ui (user_invitations d) ->
                   ui_invitation_token ui = verification_token ->
                   (ui_expires_at ui <= now s)%Z \/ ui_status ui <> "pending") ->
    rpc (R := R) (verify_user_email user_id verification_token) s d
    = (Done (false, []), d).
Proof.
  intros R s d user_id token H.
  apply verify_user_email_not_found, matching_invitation_none, H.
Qed.

(** An id that is not in [auth.users]; and alice at time 100 with the
    invitation that expired at 50. *)
Lemma verify_user_email_refuses_witness :
  rpc (R := unit) (verify_user_email 7 "c0ffee") (session_of (Some 7) 100)
      (sample_db [] [fresh_invitation])
  = (Done (false, []), sample_db [] [fresh_invitation])
  /\ rpc (R := unit) (verify_user_email 1 "5f2c") (session_of (Some 1) 100)
         (sample_db [] [stale_invitation])
     = (Done (false, []), sample_db [] [stale_invitation]).
Proof.
  split.
  - apply (verify_user_email_refuses unit (session_of (Some 7) 100)
             (sample_db [] [fresh_invitation]) 7 "c0ffee").
    left. reflexivity.
  - apply (verify_user_email_refuses unit (session_of (Some 1) 100)
             (sample_db [] [stale_invitation]) 1 "5f2c").
    right. intros ui [<-|[]] _. left. simpl. lia.
Defined.

(** X18.  A token is used once.  When [verify_user_email] finds an
    invitation whose existing roles are distinct and not yet held by the
    user, it returns true; and when no other pending invitation carries
    the same token, a second call with the same arguments, at any time,
    returns false and changes nothing. *)
Theorem verify_user_email_single_use :
  forall (R : Type) (s again : session) (d : DB) (user_id : uuid)
         (verification_token : text) (v_invitation : user_invitation),
    matching_invitation user_id verification_token s d = Some v_invitation ->
    NoDup (map r_id (invited_roles d (ui_roles v_invitation))) ->
    (forall ur, In ur (user_roles d) -> ur_user_id ur = user_id ->
                ~ In (ur_role_id ur) (map r_id (invited_roles d (ui_roles v_invitation)))) ->
    (forall ui, In ui (user_invitations d) ->
                ui_invitation_token ui = verification_token ->
                ui_status ui = "pending" -> ui_id ui = ui_id v_invitation) ->
    exists d',
      rpc (R := R) (verify_user_email user_id verification_token) s d
      = (Done (true, []), d')
      /\ rpc (R := R) (verify_user_email user_id verification_token) again d'
         = (Done (false, []), d').
Proof.
  intros R s again d user_id token inv Hm Hnd Hnew Honly.
  exists (after_verification user_id inv (grants_of user_id inv s d) d).
  split; [apply verify_user_email_found; assumption|].
  apply verify_user_email_not_found, matching_invitation_none. right.
  intros ui Hui Ht. right.
  unfold after_verification in Hui.
  cbn [user_invitations refresh_auth_users_view set_auth_users_view set_user_roles
       set_auth_users set_user_invitations] in Hui.
  apply in_map_iff in Hui as (ui0 & E & Hui0).
  destruct (ui_id ui0 =? ui_id inv) eqn:Ei; subst ui.
  - simpl. discriminate.
  - intros Hp. apply Nat.eqb_neq in Ei. apply Ei. now apply Honly.
Qed.

(** Alice accepts her invitation at time 100 and presents the token
    again at time 200. *)
Lemma verify_user_email_single_use_witness :
  exists d',
    rpc (R := unit) (verify_user_email 1 "c0ffee") (session_of (Some 1) 100)
        (sample_db [] [fresh_invitation])
    = (Done (true, []), d')
    /\ rpc (R := unit) (verify_user_email 1 "c0ffee") (session_of (Some 1) 200) d'
       = (Done (false, []), d').
Proof.
  apply (verify_user_email_single_use unit (session_of (Some 1) 100)
           (session_of (Some 1) 200) (sample_db [] [fresh_invitation]) 1 "c0ffee"
           fresh_invitation).
  - reflexivity.
  - vm_compute. constructor; [intros []|constructor].
  - intros ur [].
  - intros ui [<-|[]] _ _. reflexivity.
Defined.

Lemma insert_user_roles_rows_unique_or_done rows : forall d,
  (forall row, In row rows ->
     user_exists d (ur_user_id row) = true /\ role_exists d (ur_role_id row) = true
     /\ ur_assigned_by row = None) ->
  (exists d', insert_user_roles_rows rows d = Done d')
  \/ insert_user_roles_rows rows d
     = Raised (unique_violation "user_roles_user_id_role_id_key").
Proof.
  induction rows as [|row rest IH]; intros d Hfk.
  - left. simpl. eauto.
  - cbn [insert_user_roles_rows]. unfold user_roles_violation.
    destruct (Hfk row (or_introl eq_refl)) as (H1 & H2 & H3).
    rewrite H1, H2, H3. cbn [negb].
    destruct (existsb _ (user_roles d)); [now right|].
    apply IH. intros row' Hin. apply Hfk. now right.
Qed.

(** X19.  When the invitation found lists a role the user already holds
    (in an assignment of any state), [verify_user_email] raises the
    violation of UNIQUE(user_id, role_id) on [user_roles] and the whole
    call is undone: the invitation stays pending and the identity
    unverified. *)
Theorem verify_user_email_duplicate_role :
  forall (R : Type) (s : session) (d : DB) (user_id : uuid) (verification_token : text)
         (v_invitation : user_invitation) (ur : user_role),
    matching_invitation user_id verification_token s d = Some v_invitation ->
    In ur (user_roles d) ->
    ur_user_id ur = user_id ->
    In (ur_role_id ur) (map r_id (invited_roles d (ui_roles v_invitation))) ->
    rpc (R := R) (verify_user_email user_id verification_token) s d
    = (Raised (unique_violation "user_roles_user_id_role_id_key"), d).
Proof.
  intros R s d user_id token inv ur Hm Hur Hu Hin.
  pose proof (matching_invitation_user _ _ _ _ _ Hm) as Hex.
  unfold verify_user_email. sql_run verify_user_email_variables. pg_run.
  rewrite Hm.
  unfold update_user_invitations_accepted, update_auth_users_email_verified.
  cbn [auth_users set_user_invitations].
  match goal with
  | |- context [fold_left ?f ?l ?acc] =>
      destruct (row_triggers_only_view user_id l acc) as [x ->]
  end.
  set (z := set_auth_users _ (set_user_invitations _ d)).
  change (invited_roles (refresh_auth_users_view (set_auth_users_view x z)) (ui_roles inv))
    with (invited_roles d (ui_roles inv)).
  rewrite draw_many_run. cbn [Nat.add]. unfold insert_user_roles.
  fold (grants_of user_id inv s d).
  set (d2 := refresh_auth_users_view (set_auth_users_view x z)).
  destruct (insert_user_roles_rows_unique_or_done (grants_of user_id inv s d) d2)
    as [[d3 Hd]| ->]; [| |reflexivity].
  - intros row Hrow. apply granted_rows_In in Hrow as (-> & -> & _ & r & Hr & ->).
    split; [|split; auto].
    + change (user_exists d2 user_id) with (user_exists z user_id).
      unfold z. now rewrite user_exists_after_updates.
    + apply (role_exists_In d). now apply invited_roles_In in Hr.
  - exfalso. apply insert_user_roles_rows_done in Hd as [_ Hnew].
    apply in_map_iff in Hin as (r & Er & Hr).
    set (granted := invited_roles d (ui_roles inv)) in *.
    destruct (In_nth _ _ r Hr) as (i & Hi & Hnth).
    apply (Hnew {| ur_id := entropy s i; ur_user_id := user_id; ur_role_id := r_id r;
                   ur_assigned_by := None; ur_assigned_at := Some (now s);
                   ur_expires_at := None; ur_is_active := Some true |} ur).
    + unfold grants_of, granted_rows. fold granted.
      apply in_map_iff. exists (entropy s i, r). split; auto.
      replace (entropy s i, r)
        with (nth i (combine (map (entropy s) (seq 0 (List.length granted))) granted)
                  (entropy s 0, r)).
      * apply nth_In. rewrite length_combine, length_map, length_seq. lia.
      * rewrite combine_nth by now rewrite length_map, length_seq.
        rewrite Hnth, (map_nth (entropy s) (seq 0 (List.length granted)) 0 i).
        now rewrite seq_nth.
    + exact Hur.
    + simpl. split; congruence.
Qed.

(** Alice already holds 'user', which her invitation lists. *)
Lemma verify_user_email_duplicate_role_witness :
  rpc (R := unit) (verify_user_email 1 "c0ffee") (session_of (Some 1) 100)
      (sample_db [assignment 31 1 12 None] [fresh_invitation])
  = (Raised (unique_violation "user_roles_user_id_role_id_key"),
     sample_db [assignment 31 1 12 None] [fresh_invitation]).
Proof.
  apply (verify_user_email_duplicate_role unit (session_of (Some 1) 100)
           (sample_db [assignment 31 1 12 None] [fresh_invitation]) 1 "c0ffee"
           fresh_invitation (assignment 31 1 12 None)).
  - reflexivity.
  - left. reflexivity.
  - reflexivity.
  - vm_compute. left. reflexivity.
Defined.

(** ** Verification, continued *)

Lemma jsonb_field_set o key v : jsonb_field (jsonb_set o key v) key = Some v.
Proof.
  induction o as [|[k w] o IH]; simpl.
  - now rewrite String.eqb_refl.
  - destruct (String.eqb k key) eqn:E; simpl; now rewrite E.
Qed.

Lemma jsonb_field_set_other o key v key' :
  key' <> key -> jsonb_field (jsonb_set o key v) key' = jsonb_field o key'.
Proof.
  intros Hne. induction o as [|[k w] o IH]; simpl.
  - apply String.eqb_neq in Hne. rewrite String.eqb_sym in Hne. now rewrite Hne.
  - destruct (String.eqb k key) eqn:E; simpl.
    + apply String.eqb_eq in E. subst k.
      assert (String.eqb key key' = false) as ->; [|reflexivity].
      apply String.eqb_neq. congruence.
    + now rewrite IH.
Qed.

Lemma grants_of_covers user_id inv s d r :
  In r (invited_roles d (ui_roles inv)) ->
  exists row, In row (grants_of user_id inv s d)
              /\ ur_user_id row = user_id /\ ur_role_id row = r_id r
              /\ ur_is_active row = Some true.
Proof.
  intros Hr. unfold grants_of.
  set (granted := invited_roles d (ui_roles inv)) in *.
  destruct (In_nth _ _ r Hr) as (i & Hi & Hnth).
  exists {| ur_id := entropy s i; ur_user_id := user_id; ur_role_id := r_id r;
            ur_assigned_by := None; ur_assigned_at := Some (now s);
            ur_expires_at := None; ur_is_active := Some true |}.
  split; [|simpl; auto].
  unfold granted_rows. apply in_map_iff. exists (entropy s i, r). split; auto.
  replace (entropy s i, r)
    with (nth i (combine (map (entropy s) (seq 0 (List.length granted))) granted)
              (entropy s 0, r)).
  - apply nth_In. rewrite length_combine, length_map, length_seq. lia.
  - rewrite combine_nth by now rewrite length_map, length_seq.
    rewrite Hnth, (map_nth (entropy s) (seq 0 (List.length granted)) 0 i).
    now rewrite seq_nth.
Qed.

(** X20.  What [verify_user_email] leaves when it finds an invitation
    whose existing roles are distinct and not yet held by the user: it
    returns true, with the invitation accepted; [email_verified] read as
    'true' in the metadata of the identity; the same identities with the
    same addresses; the stored view up to date, and in it the user's row
    shows [email_verified] and the name of every invited role that
    exists. *)
Theorem verify_user_email_effects :
  forall (R : Type) (s : session) (d : DB) (user_id : uuid) (verification_token : text)
         (v_invitation : user_invitation),
    matching_invitation user_id verification_token s d = Some v_invitation ->
    NoDup (map r_id (invited_roles d (ui_roles v_invitation))) ->
    (forall ur, In ur (user_roles d) -> ur_user_id ur = user_id ->
                ~ In (ur_role_id ur) (map r_id (invited_roles d (ui_roles v_invitation)))) ->
    exists d',
      rpc (R := R) (verify_user_email user_id verification_token) s d
      = (Done (true, []), d')
      /\ (forall ui, In ui (user_invitations d') -> ui_id ui = ui_id v_invitation ->
                     ui_status ui = "accepted")
      /\ (forall au, In au (auth_users d') -> au_id au = user_id ->
                     json_get_text (au_raw_user_meta_data au) "email_verified"
                     = Some "true")
      /\ map au_id (auth_users d') = map au_id (auth_users d)
      /\ map au_email (auth_users d') = map au_email (auth_users d)
      /\ view_fresh d'
      /\ forall row, In row (auth_users_view d') -> v_id row = user_id ->
           json_get_text (v_user_metadata row) "email_verified" = Some "true"
           /\ forall r, In r (invited_roles d (ui_roles v_invitation)) ->
                        In (Some (r_name r)) (v_roles row).
Proof.
  intros R s d user_id token inv Hm Hnd Hnew.
  exists (after_verification user_id inv (grants_of user_id inv s d) d).
  split; [apply verify_user_email_found; assumption|].
  assert (Hver : forall au, In au (auth_users (after_verification user_id inv
                                   (grants_of user_id inv s d) d)) ->
                  au_id au = user_id ->
                  json_get_text (au_raw_user_meta_data au) "email_verified" = Some "true").
  { intros au Hau Hid. unfold after_verification in Hau.
    cbn [auth_users refresh_auth_users_view set_auth_users_view set_user_roles
         set_auth_users set_user_invitations] in Hau.
    apply in_map_iff in Hau as (au0 & E & Hau0).
    destruct (au_id au0 =? user_id) eqn:Ei; subst au.
    - unfold verified, with_raw_user_meta_data, json_get_text.
      cbn [au_raw_user_meta_data]. now rewrite jsonb_field_set.
    - apply Nat.eqb_neq in Ei. contradiction. }
  split; [|split; [exact Hver|split; [|split; [|split]]]].
  - intros ui Hui Hid. unfold after_verification in Hui.
    cbn [user_invitations refresh_auth_users_view set_auth_users_view set_user_roles
         set_auth_users set_user_invitations] in Hui.
    apply in_map_iff in Hui as (ui0 & E & Hui0).
    destruct (ui_id ui0 =? ui_id inv) eqn:Ei; subst ui.
    + reflexivity.
    + apply Nat.eqb_neq in Ei. contradiction.
  - unfold after_verification.
    cbn [auth_users refresh_auth_users_view set_auth_users_view set_user_roles
         set_auth_users set_user_invitations].
    rewrite map_map. apply map_ext. intros au. now destruct (au_id au =? user_id).
  - unfold after_verification.
    cbn [auth_users refresh_auth_users_view set_auth_users_view set_user_roles
         set_auth_users set_user_invitations].
    rewrite map_map. apply map_ext. intros au. now destruct (au_id au =? user_id).
  - reflexivity.
  - intros row Hrow Hid.
    set (d' := after_verification user_id inv (grants_of user_id inv s d) d) in *.
    change (auth_users_view d') with (auth_users_view_query d') in Hrow.
    split.
    + pose proof Hrow as Hrow'. unfold auth_users_view_query in Hrow'.
      apply in_map_iff in Hrow' as (au & <- & Hau). cbn [v_user_metadata].
      apply Hver; auto.
    + intros r Hr. apply (view_roles_In d' row Hrow).
      destruct (grants_of_covers user_id inv s d r Hr) as (ur & H1 & H2 & H3 & H4).
      exists ur, r. split; [|split; [congruence|split; [exact H4|split; [|split]]]].
      * unfold d', after_verification.
        cbn [user_roles refresh_auth_users_view set_auth_users_view set_user_roles].
        apply in_or_app. now right.
      * apply invited_roles_In in Hr as [Hr _]. exact Hr.
      * now symmetry.
      * reflexivity.
Qed.

(** Alice accepts her invitation: her row of the listing. *)
Lemma verify_user_email_effects_witness :
  exists d',
    rpc (R := unit) (verify_user_email 1 "c0ffee") (session_of (Some 1) 100)
        (sample_db [] [fresh_invitation])
    = (Done (true, []), d')
    /\ map ui_status (user_invitations d') = ["accepted"]
    /\ json_get_text (v_user_metadata (hd alice_row (auth_users_view d'))) "email_verified"
       = Some "true"
    /\ In (Some "user") (v_roles (hd alice_row (auth_users_view d')))
    /\ view_fresh d'.
Proof.
  destruct (verify_user_email_effects unit (session_of (Some 1) 100)
              (sample_db [] [fresh_invitation]) 1 "c0ffee" fresh_invitation)
    as (d' & H1 & H2 & H3 & H4 & H5 & H6 & H7).
  - reflexivity.
  - vm_compute. constructor; [intros []|constructor].
  - intros ur [].
  - exists d'. split; [exact H1|].
    assert (E : d' = after_verification 1 fresh_invitation
                       (grants_of 1 fresh_invitation (session_of (Some 1) 100)
                                  (sample_db [] [fresh_invitation]))
                       (sample_db [] [fresh_invitation])).
    { vm_compute in H1. injection H1 as <-. reflexivity. }
    assert (Hrow : In (hd alice_row (auth_users_view d')) (auth_users_view d')
                   /\ v_id (hd alice_row (auth_users_view d')) = 1).
    { rewrite E. split; [left; reflexivity | reflexivity]. }
    destruct (H7 _ (proj1 Hrow) (proj2 Hrow)) as [Hm Hr].
    split; [rewrite E; reflexivity|].
    split; [exact Hm|].
    split; [|exact H6].
    apply (Hr {| r_id := 12; r_name := "user";
                 r_description := Some "Standard user access"; r_level := 10 |}).
    vm_compute. left. reflexivity.
Defined.

Lemma find_app_last {A} (f : A -> bool) l x :
  (forall y, In y l -> f y = false) -> f x = true -> find f (l ++ [x]) = Some x.
Proof.
  intros Hl Hx. induction l as [|a l IH]; simpl.
  - now rewrite Hx.
  - rewrite (Hl a (or_introl eq_refl)). apply IH. intros y Hy. apply Hl. now right.
Qed.

(** X21.  An invitation round trip, under the four conditions it needs.
    An admin invites the address of an existing identity; that identity
    holds none of the invited roles; the invited names pick no role
    twice (a repeated role makes the INSERT of [verify_user_email]
    violate UNIQUE(user_id, role_id)); and no earlier invitation carries
    the token generated for the new one (the lookup would find the
    earlier one first).  Then the token of the returned invitation,
    presented for that identity less than seven days later, is accepted:
    [verify_user_email] returns true and the identity's assignments are
    the former ones followed by one per invited role that exists. *)
Theorem invite_then_verify :
  forall (s later : session) (d : DB) (e : text) (role_names : text_array)
         (user_id : uuid),
    rpc (R := user_invitation) has_admin_access s d = (Done (true, []), d) ->
    inviter_ok s d ->
    user_exists d user_id = true ->
    (forall au, In au (auth_users d) -> au_id au = user_id -> au_email au = Some e) ->
    (forall ui, In ui (user_invitations d) ->
                ui_invitation_token ui <> encode_hex 64 (N.of_nat (entropy s 1))) ->
    (now later < now s + interval_7_days)%Z ->
    NoDup (map r_id (invited_roles d role_names)) ->
    (forall ur, In ur (user_roles d) -> ur_user_id ur = user_id ->
                ~ In (ur_role_id ur) (map r_id (invited_roles d role_names))) ->
    exists v_invitation d1 d2,
      rpc (invite_users [Some e] role_names) s d = (Done (tt, [v_invitation]), d1)
      /\ rpc (R := unit)
             (verify_user_email user_id (ui_invitation_token v_invitation)) later d1
         = (Done (true, []), d2)
      /\ map ur_role_id (assignments_of d2 user_id)
         = map ur_role_id (assignments_of d user_id) ++ map r_id (invited_roles d role_names).
Proof.
  intros s later d e rn user_id Hadmin Hok Hex Hmail Htok Hlater Hnd Hnew.
  set (inv := {| ui_id := entropy s 0; ui_email := e; ui_invited_by := auth_uid s;
                 ui_roles := rn; ui_status := "pending";
                 ui_invitation_token := encode_hex 64 (N.of_nat (entropy s 1));
                 ui_expires_at := (now s + interval_7_days)%Z;
                 ui_created_at := Some (now s) |}).
  set (d1 := set_user_invitations (user_invitations d ++ [inv]) d).
  assert (Hm : matching_invitation user_id (ui_invitation_token inv) later d1 = Some inv).
  { unfold matching_invitation. change (auth_users d1) with (auth_users d).
    destruct (find (fun au => au_id au =? user_id) (auth_users d)) as [au|] eqn:E.
    - apply find_some in E as [E1 E2]. apply Nat.eqb_eq in E2.
      rewrite (Hmail au E1 E2).
      change (user_invitations d1) with (user_invitations d ++ [inv]).
      apply find_app_last.
      + intros ui Hui.
        assert (String.eqb (ui_invitation_token ui) (ui_invitation_token inv) = false) as ->.
        { apply String.eqb_neq. now apply Htok. }
        now rewrite andb_false_r.
      + cbn [inv ui_email ui_invitation_token ui_status ui_expires_at sql_eq].
        rewrite !String.eqb_refl. simpl. now apply Z.ltb_lt.
    - exfalso. unfold user_exists in Hex. apply existsb_exists in Hex as (au & H1 & H2).
      now rewrite (find_none _ _ E au H1) in H2. }
  exists inv, d1,
    (after_verification user_id inv (grants_of user_id inv later d1) d1).
  split; [|split].
  - unfold invite_users. rewrite admin_gate, Hadmin. unfold rpc.
    change [Some e] with (map Some [e]).
    rewrite invite_users_loop_addresses by exact Hok. reflexivity.
  - apply verify_user_email_found; auto.
  - unfold assignments_of, after_verification.
    cbn [user_roles refresh_auth_users_view set_auth_users_view set_user_roles
         set_auth_users set_user_invitations d1].
    rewrite filter_app, map_app. f_equal.
    unfold grants_of. change (invited_roles d1 (ui_roles inv)) with (invited_roles d rn).
    set (granted := invited_roles d rn).
    rewrite <- (granted_rows_role_ids user_id (now later)
                  (map (entropy later) (seq 0 (List.length granted))) granted)
      by now rewrite length_map, length_seq.
    f_equal. apply forallb_filter_id. apply forallb_forall. intros row Hrow.
    apply granted_rows_In in Hrow as (-> & _). apply Nat.eqb_refl.
Qed.

(** Alice, an admin, invites sam as a 'user' at time 100; sam presents
    the token of the invitation at time 5000. *)
Lemma invite_then_verify_witness :
  let d := sample_db [assignment 31 1 10 None] [] in
  exists v_invitation d1 d2,
    rpc (invite_users [Some "sam@reachloud.com"] [Some "user"]) (session_of (Some 1) 100) d
    = (Done (tt, [v_invitation]), d1)
    /\ rpc (R := unit)
           (verify_user_email 2 (ui_invitation_token v_invitation))
           (session_of (Some 2) 5000) d1
       = (Done (true, []), d2)
    /\ map ur_role_id (assignments_of d2 2)
       = map ur_role_id (assignments_of d 2) ++ map r_id (invited_roles d [Some "user"]).
Proof.
  intros d.
  apply (invite_then_verify (session_of (Some 1) 100) (session_of (Some 2) 5000) d
           "sam@reachloud.com" [Some "user"] 2).
  - reflexivity.
  - intros u H. injection H as <-. reflexivity.
  - reflexivity.
  - intros au [<-|[<-|[]]] H; [discriminate H | reflexivity].
  - intros ui [].
  - vm_compute. reflexivity.
  - vm_compute. constructor; [intros []|constructor].
  - intros ur [<-|[]] H. discriminate H.
Defined.

(** ** Storage buckets *)

Lemma existsb_app_last {A} (f : A -> bool) l x :
  f x = true -> existsb f (l ++ [x]) = true.
Proof. intros H. rewrite existsb_app. simpl. rewrite H. apply orb_true_r. Qed.

Lemma bucket_public_absent id buckets :
  existsb (fun b => String.eqb (b_id b) id) buckets = false ->
  bucket_public id buckets = false.
Proof.
  unfold bucket_public. induction buckets as [|b l IH]; simpl; auto.
  intros H. apply orb_false_elim in H as [H1 H2]. rewrite H1. simpl. auto.
Qed.

(** X22.  The block [IF NOT EXISTS (...) THEN INSERT ... END IF] never
    raises and can be run again without effect.  It leaves a bucket of
    that id; when one existed nothing changes, so a bucket that was
    private stays private, and otherwise a public bucket is added. *)
Theorem create_bucket_if_missing_rerunnable :
  forall (id : text) (buckets : list bucket),
    exists after,
      create_bucket_if_missing id buckets = Done after
      /\ create_bucket_if_missing id after = Done after
      /\ existsb (fun b => String.eqb (b_id b) id) after = true
      /\ (existsb (fun b => String.eqb (b_id b) id) buckets = true -> after = buckets)
      /\ (existsb (fun b => String.eqb (b_id b) id) buckets = false ->
          after = buckets ++ [{| b_id := id; b_name := id; b_public := Some true |}]).
Proof.
  intros id buckets. unfold create_bucket_if_missing, insert_bucket.
  destruct (existsb _ buckets) eqn:E; cbn [negb].
  - exists buckets. rewrite E. cbn [negb]. repeat split; auto. discriminate.
  - eexists. split; [reflexivity|].
    assert (H : existsb (fun b => String.eqb (b_id b) id)
                  (buckets ++ [{| b_id := id; b_name := id; b_public := Some true |}])
                = true).
    { apply existsb_app_last. simpl. apply String.eqb_refl. }
    rewrite H. cbn [negb]. repeat split; auto. discriminate.
Qed.

(** A private bucket of that id, and no bucket at all. *)
Lemma create_bucket_if_missing_rerunnable_witness :
  let existing := {| b_id := "book-covers"; b_name := "book-covers";
                    b_public := Some false |} in
  create_bucket_if_missing "book-covers" [existing] = Done [existing]
  /\ create_bucket_if_missing "book-covers" []
     = Done [{| b_id := "book-covers"; b_name := "book-covers"; b_public := Some true |}].
Proof.
  intros existing. split.
  - destruct (create_bucket_if_missing_rerunnable "book-covers" [existing])
      as (after & H1 & _ & _ & H4 & _).
    rewrite H1, (H4 eq_refl). reflexivity.
  - destruct (create_bucket_if_missing_rerunnable "book-covers" [])
      as (after & H1 & _ & _ & _ & H5).
    rewrite H1, (H5 eq_refl). reflexivity.
Defined.

Lemma publish_idempotent id buckets :
  let publish := fun b => if String.eqb (b_id b) id
                          then {| b_id := b_id b; b_name := b_name b;
                                  b_public := Some true |}
                          else b in
  map publish (map publish buckets) = map publish buckets.
Proof.
  intros publish. rewrite map_map. apply map_ext. intros b. unfold publish.
  destruct (String.eqb (b_id b) id) eqn:E; cbn [b_id]; now rewrite E.
Qed.

(** X23.  The block [IF NOT EXISTS (...) THEN INSERT ... ELSE UPDATE ...
    SET public = true END IF] never raises, can be run again without
    effect, and always leaves the bucket public.  It adds a bucket only
    when none of that id existed, and every bucket of another id is left
    as it was. *)
Theorem create_or_publish_bucket_publishes :
  forall (id : text) (buckets : list bucket),
    exists after,
      create_or_publish_bucket id buckets = Done after
      /\ create_or_publish_bucket id after = Done after
      /\ bucket_public id after = true
      /\ map b_id after
         = map b_id buckets
           ++ (if existsb (fun b => String.eqb (b_id b) id) buckets then [] else [id])
      /\ forall b, In b buckets -> b_id b <> id -> In b after.
Proof.
  intros id buckets. unfold create_or_publish_bucket, insert_bucket.
  destruct (existsb _ buckets) eqn:E; cbn [negb].
  - eexists. split; [reflexivity|].
    assert (H : existsb (fun b => String.eqb (b_id b) id)
                  (map (fun b => if String.eqb (b_id b) id
                                 then {| b_id := b_id b; b_name := b_name b;
                                         b_public := Some true |}
                                 else b) buckets) = true).
    { apply existsb_exists in E as (b & Hb & Eb). apply existsb_exists.
      eexists. split; [apply in_map; exact Hb|]. cbv beta. rewrite Eb. exact Eb. }
    rewrite H. cbn [negb]. split; [|split; [|split]].
    + f_equal. apply publish_idempotent.
    + apply existsb_exists in E as (b & Hb & Eb). apply existsb_exists.
      eexists. split; [apply in_map; exact Hb|]. cbv beta. rewrite Eb.
      cbn [b_id b_public is_true]. now rewrite Eb.
    + rewrite app_nil_r, map_map. apply map_ext. intros b.
      now destruct (String.eqb (b_id b) id).
    + intros b Hb Hne. apply in_map_iff. exists b. split; auto.
      apply String.eqb_neq in Hne. now rewrite Hne.
  - eexists. split; [reflexivity|].
    assert (H : existsb (fun b => String.eqb (b_id b) id)
                  (buckets ++ [{| b_id := id; b_name := id; b_public := Some true |}])
                = true).
    { apply existsb_app_last. simpl. apply String.eqb_refl. }
    rewrite H. cbn [negb]. split; [|split; [|split]].
    + f_equal. rewrite map_app. cbn [map b_id]. rewrite String.eqb_refl.
      f_equal. rewrite <- (map_id buckets) at 2. apply map_ext_in. intros b Hb.
      assert (String.eqb (b_id b) id = false) as ->; [|reflexivity].
      destruct (String.eqb (b_id b) id) eqn:Eb; auto.
      assert (existsb (fun b => String.eqb (b_id b) id) buckets = true)
        by (apply existsb_exists; eauto). congruence.
    + apply existsb_app_last. cbn [b_id b_public is_true]. now rewrite String.eqb_refl.
    + now rewrite map_app.
    + intros b Hb _. apply in_or_app. now left.
Qed.

(** A private bucket of that id beside another bucket. *)
Lemma create_or_publish_bucket_publishes_witness :
  let existing := {| b_id := "profile-pictures"; b_name := "profile-pictures";
                    b_public := Some false |} in
  let other := {| b_id := "book-covers"; b_name := "book-covers";
                  b_public := Some false |} in
  exists after,
    create_or_publish_bucket "profile-pictures" [other; existing] = Done after
    /\ bucket_public "profile-pictures" after = true
    /\ In other after.
Proof.
  intros existing other.
  destruct (create_or_publish_bucket_publishes "profile-pictures" [other; existing])
    as (after & H1 & _ & H3 & _ & H5).
  exists after. split; [exact H1|]. split; [exact H3|].
  apply H5; [left; reflexivity | discriminate].
Defined.

(** X24.  The migration 'Add profile pictures support' inserts the bucket
    as private and cannot be run twice: a second run violates the primary
    key.  After it, the guarded block of the later migration leaves the
    bucket private; only a create-or-publish block makes it public. *)
Theorem profile_pictures_bucket_stays_private_until_published :
  forall (buckets created : list bucket),
    add_profile_pictures_bucket buckets = Done created ->
    bucket_public "profile-pictures" created = false
    /\ add_profile_pictures_bucket created = Raised (unique_violation "buckets_pkey")
    /\ create_bucket_if_missing "profile-pictures" created = Done created
    /\ exists published,
         create_or_publish_bucket "profile-pictures" created = Done published
         /\ bucket_public "profile-pictures" published = true.
Proof.
  intros buckets created H. unfold add_profile_pictures_bucket, insert_bucket in H.
  destruct (existsb _ buckets) eqn:E; [discriminate|]. injection H as <-.
  assert (Hex : existsb (fun b => String.eqb (b_id b) "profile-pictures")
                  (buckets ++ [{| b_id := "profile-pictures"; b_name := "profile-pictures";
                                  b_public := Some false |}]) = true).
  { now apply existsb_app_last. }
  split; [|split; [|split]].
  - unfold bucket_public. rewrite existsb_app. fold (bucket_public "profile-pictures" buckets).
    rewrite (bucket_public_absent _ _ E). reflexivity.
  - unfold add_profile_pictures_bucket, insert_bucket. now rewrite Hex.
  - unfold create_bucket_if_missing. now rewrite Hex.
  - unfold create_or_publish_bucket. rewrite Hex. cbn [negb].
    eexists. split; [reflexivity|].
    unfold bucket_public. rewrite map_app, existsb_app. cbn [map existsb].
    rewrite String.eqb_refl. cbn [b_id b_public is_true String.eqb Ascii.eqb Bool.eqb andb orb].
    apply orb_true_r.
Qed.

(** The first migration on a store without buckets. *)
Lemma profile_pictures_bucket_stays_private_until_published_witness :
  let created := [{| b_id := "profile-pictures"; b_name := "profile-pictures";
                     b_public := Some false |}] in
  bucket_public "profile-pictures" created = false
  /\ add_profile_pictures_bucket created = Raised (unique_violation "buckets_pkey")
  /\ create_bucket_if_missing "profile-pictures" created = Done created
  /\ exists published,
       create_or_publish_bucket "profile-pictures" created = Done published
       /\ bucket_public "profile-pictures" published = true.
Proof.
  intros created.
  apply (profile_pictures_bucket_stays_private_until_published [] created).
  reflexivity.
Defined.

(** ** The application code *)

Lemma getDailyVerse_of_done s d v b d' :
  rpc get_daily_verse s d = (Done (pick_of v b, [bv_verse_text v]), d') ->
  getDailyVerse s d = match bv_verse_text v with
                      | EmptyString => None
                      | _ => Some (bv_verse_text v)
                      end.
Proof. intros H. unfold getDailyVerse. now rewrite H. Qed.

(** X25.  [getDailyVerse] returns null when nobody is signed in and when
    the verse table is empty: the error of the procedure is swallowed.
    What it returns otherwise is the text, not empty, of a verse of the
    table, and that verse is then in the caller's history.  For a caller
    who exists, over a table that is not empty and has no empty text, it
    does not return null. *)
Theorem getDailyVerse_null_or_recorded :
  forall (s : session) (d : DB),
    (auth_uid s = None \/ bible_verses d = [] -> getDailyVerse s d = None)
    /\ (forall verse, getDailyVerse s d = Some verse ->
          verse <> EmptyString
          /\ exists u v,
               auth_uid s = Some u /\ In v (bible_verses d) /\ bv_verse_text v = verse
               /\ In (bv_id v) (shown_ids u (snd (rpc get_daily_verse s d))))
    /\ (forall u, auth_uid s = Some u -> user_exists d u = true ->
          bible_verses d <> [] ->
          (forall v, In v (bible_verses d) -> bv_verse_text v <> EmptyString) ->
          getDailyVerse s d <> None).
Proof.
  intros s d. split; [|split].
  - intros H. unfold getDailyVerse. rewrite get_daily_verse_rpc.
    destruct (auth_uid s) as [u|]; [|reflexivity].
    destruct H as [H|H]; [discriminate|]. rewrite H. simpl.
    now rewrite !random_row_nil.
  - intros verse H. unfold getDailyVerse in H.
    destruct (rpc get_daily_verse s d) as [[[p out]|e] d'] eqn:E; [|discriminate].
    cbn [fst] in H. destruct out as [|t [|? ?]]; try discriminate.
    assert (Hv : verse = t /\ t <> EmptyString).
    { destruct t; [discriminate|]. injection H as <-. split; [reflexivity|discriminate]. }
    destruct Hv as [-> Hne]. split; [exact Hne|].
    destruct (auth_uid s) as [u|] eqn:Hu.
    2:{ rewrite get_daily_verse_rpc, Hu in E. discriminate. }
    destruct (get_daily_verse_step s d u p [t] d' Hu E)
      as ((v & Hv & Hp & Ho) & _ & _ & _ & Hshown).
    injection Ho as Ho. exists u, v. repeat split; auto.
    cbn [snd].
    assert (Hsel : selected_verse_id p = bv_id v) by (rewrite Hp; reflexivity).
    destruct (history_reset p); destruct Hshown as [_ ->]; rewrite Hsel.
    + now left.
    + apply in_or_app. right. now left.
  - intros u Hu Hex Hn Htxt.
    destruct (filter (unshown d u) (bible_verses d)) as [|x l] eqn:Ef.
    + destruct (get_daily_verse_exhausted s d u Hu Hex Hn Ef) as (v & d' & Hv & Hrun).
      rewrite (getDailyVerse_of_done _ _ _ _ _ Hrun).
      apply random_row_In in Hv. specialize (Htxt v Hv).
      destruct (bv_verse_text v); [contradiction|discriminate].
    + destruct (get_daily_verse_unshown s d u Hu Hex) as (v & d' & Hv & _ & Hrun).
      { rewrite Ef. discriminate. }
      rewrite (getDailyVerse_of_done _ _ _ _ _ Hrun).
      specialize (Htxt v Hv).
      destruct (bv_verse_text v); [contradiction|discriminate].
Qed.

(** An anonymous caller; alice over the seeded verses. *)
Lemma getDailyVerse_null_or_recorded_witness :
  getDailyVerse (session_of None 100) (sample_db [] []) = None
  /\ getDailyVerse (session_of (Some 1) 100) (sample_db [] []) <> None.
Proof.
  split.
  - apply (proj1 (getDailyVerse_null_or_recorded (session_of None 100) (sample_db [] []))).
    left. reflexivity.
  - apply (proj2 (proj2 (getDailyVerse_null_or_recorded
                           (session_of (Some 1) 100) (sample_db [] []))) 1).
    + reflexivity.
    + reflexivity.
    + discriminate.
    + intros v [<-|[<-|[<-|[]]]]; discriminate.
Defined.

(** *** trim and split *)

Lemma trim_start_decompose s :
  exists a, s = a ++ JS.trim_start s /\ forallb JS.is_white_space a = true.
Proof.
  induction s as [|c s (a & E & Ha)]; simpl.
  - exists []. auto.
  - destruct (JS.is_white_space c) eqn:Ec.
    + exists (c :: a). simpl. rewrite Ec. split; [now f_equal|exact Ha].
    + exists []. auto.
Qed.

Lemma trim_start_head s c rest :
  JS.trim_start s = c :: rest -> JS.is_white_space c = false.
Proof.
  induction s as [|x s IH]; simpl; [discriminate|].
  destruct (JS.is_white_space x) eqn:Ex; auto.
  intros H. injection H as -> _. exact Ex.
Qed.

Lemma trim_start_fixed s :
  (forall c rest, s = c :: rest -> JS.is_white_space c = false) ->
  JS.trim_start s = s.
Proof.
  destruct s as [|c s]; auto. intros H. simpl. now rewrite (H c s eq_refl).
Qed.

Lemma trim_start_suffix s c rest :
  JS.trim_start s = c :: rest -> exists a, s = a ++ c :: rest.
Proof.
  intros H. destruct (trim_start_decompose s) as (a & E & _).
  exists a. now rewrite <- H.
Qed.

Lemma trim_last s front c :
  JS.trim s = front ++ [c] -> JS.is_white_space c = false.
Proof.
  unfold JS.trim. intros H.
  apply (f_equal (@rev N)) in H. rewrite rev_involutive, rev_app_distr in H.
  simpl in H. now apply trim_start_head in H.
Qed.

Lemma trim_first s c rest :
  JS.trim s = c :: rest -> JS.is_white_space c = false.
Proof.
  unfold JS.trim. intros H.
  destruct (trim_start_decompose (rev (JS.trim_start s))) as (a & E & Ha).
  apply (f_equal (@rev N)) in E. rewrite rev_involutive, rev_app_distr, H in E.
  (* trim_start s = (c :: rest) ++ rev a *)
  simpl in E. now apply trim_start_head in E.
Qed.

Lemma trim_decompose s :
  exists a b, s = a ++ JS.trim s ++ b
              /\ forallb JS.is_white_space a = true
              /\ forallb JS.is_white_space b = true.
Proof.
  destruct (trim_start_decompose s) as (a & Ea & Ha).
  destruct (trim_start_decompose (rev (JS.trim_start s))) as (b & Eb & Hb).
  exists a, (rev b). split; [|split; auto].
  - unfold JS.trim. rewrite <- rev_app_distr, <- Eb, rev_involutive. exact Ea.
  - rewrite forallb_forall in *. intros x Hx. apply Hb. now apply in_rev.
Qed.

Lemma trim_fixed s : JS.trim (JS.trim s) = JS.trim s.
Proof.
  assert (H1 : JS.trim_start (JS.trim s) = JS.trim s).
  { apply trim_start_fixed. apply trim_first. }
  unfold JS.trim at 1. rewrite H1.
  assert (H2 : JS.trim_start (rev (JS.trim s)) = rev (JS.trim s)).
  { apply trim_start_fixed. intros c rest E.
    apply (trim_last s (rev rest) c).
    apply (f_equal (@rev N)) in E. rewrite rev_involutive in E. exact E. }
  rewrite H2. apply rev_involutive.
Qed.

Lemma split_nonempty sep s : JS.split sep s <> [].
Proof.
  destruct s as [|c s]; simpl; [discriminate|].
  destruct (c =? sep)%N; [discriminate|]. destruct (JS.split sep s); discriminate.
Qed.

Lemma split_no_separator sep s : ~ In sep s -> JS.split sep s = [s].
Proof.
  induction s as [|c s IH]; simpl; auto. intros H.
  destruct (c =? sep)%N eqn:E.
  - apply N.eqb_eq in E. exfalso. apply H. now left.
  - rewrite IH by tauto. reflexivity.
Qed.

Lemma split_at_separator sep t r :
  ~ In sep t -> JS.split sep (t ++ sep :: r) = t :: JS.split sep r.
Proof.
  induction t as [|c t IH]; simpl; intros H.
  - now rewrite N.eqb_refl.
  - destruct (c =? sep)%N eqn:E.
    + apply N.eqb_eq in E. exfalso. apply H. now left.
    + rewrite IH by tauto. reflexivity.
Qed.

(** X26.  [formatVerse] on 'text|reference': the two sides of the first
    bar, each trimmed; whatever follows a second bar is dropped; without
    any bar the reference is undefined.  A part it returns has no white
    space left to trim. *)
Theorem formatVerse_text_and_reference :
  forall t r : JS.js_string,
    ~ In 124%N t -> ~ In 124%N r ->
    formatVerse (Some (t ++ 124%N :: r))
    = {| vp_text := Some (JS.trim t); vp_reference := Some (JS.trim r) |}
    /\ (forall rest, formatVerse (Some (t ++ 124%N :: r ++ 124%N :: rest))
                     = formatVerse (Some (t ++ 124%N :: r)))
    /\ (t <> [] ->
        formatVerse (Some t) = {| vp_text := Some (JS.trim t); vp_reference := None |})
    /\ (forall verse part,
          vp_text (formatVerse verse) = Some part
          \/ vp_reference (formatVerse verse) = Some part ->
          JS.trim part = part).
Proof.
  intros t r Ht Hr.
  assert (A : forall x, formatVerse (Some (t ++ 124%N :: x))
                        = {| vp_text := nth_error (map JS.trim (JS.split 124 (t ++ 124%N :: x))) 0;
                             vp_reference := nth_error (map JS.trim (JS.split 124 (t ++ 124%N :: x))) 1 |}).
  { intros x. unfold formatVerse. destruct (t ++ 124%N :: x) eqn:E; [|reflexivity].
    now destruct t. }
  split; [|split; [|split]].
  - rewrite A, split_at_separator, split_no_separator by assumption. reflexivity.
  - intros rest. rewrite !A, !split_at_separator by assumption.
    rewrite (split_no_separator 124 r) by assumption. reflexivity.
  - intros Hne. unfold formatVerse. destruct t as [|c t]; [contradiction|].
    rewrite split_no_separator by assumption. reflexivity.
  - intros verse part H.
    assert (B : part = [] \/ exists x, part = JS.trim x).
    { unfold formatVerse in H. destruct verse as [[|c v]|].
      - left. destruct H as [H|H]; now injection H.
      - right. cbv zeta in H. cbn [vp_text vp_reference] in H.
        destruct H as [H|H]; apply nth_error_In, in_map_iff in H as (x & E & _); eauto.
      - left. destruct H as [H|H]; now injection H. }
    destruct B as [->|(x & ->)]; [reflexivity | apply trim_fixed].
Qed.

(** "a | b " and "a" *)
Lemma formatVerse_text_and_reference_witness :
  formatVerse (Some [97; 32; 124; 32; 98; 32]%N)
  = {| vp_text := Some [97%N]; vp_reference := Some [98%N] |}
  /\ formatVerse (Some [97%N]) = {| vp_text := Some [97%N]; vp_reference := None |}.
Proof.
  destruct (formatVerse_text_and_reference [97; 32]%N [32; 98; 32]%N)
    as (H1 & _ & H3 & _).
  - simpl. intros [H|[H|[]]]; discriminate H.
  - simpl. intros [H|[H|[H|[]]]]; discriminate H.
  - split; [exact H1|].
    destruct (formatVerse_text_and_reference [97]%N []) as (_ & _ & H & _).
    + simpl. intros [H|[]]; discriminate H.
    + intros [].
    + apply H. discriminate.
Defined.

(** X27.  [toggleRole] flips the selection of that role and of no other,
    leaves the emails of the form alone, never introduces a duplicate,
    and, for a role that was not selected, is undone by a second
    toggle. *)
Theorem toggleRole_flips_one_role :
  forall (role : text) (prev : BulkUserForm),
    (In role (form_roles (toggleRole role prev)) <-> ~ In role (form_roles prev))
    /\ (forall r, r <> role ->
          (In r (form_roles (toggleRole role prev)) <-> In r (form_roles prev)))
    /\ form_emails (toggleRole role prev) = form_emails prev
    /\ (NoDup (form_roles prev) -> NoDup (form_roles (toggleRole role prev)))
    /\ (~ In role (form_roles prev) -> toggleRole role (toggleRole role prev) = prev).
Proof.
  intros role prev. unfold toggleRole. cbn [form_roles form_emails].
  destruct (existsb (String.eqb role) (form_roles prev)) eqn:E.
  - assert (Hin : In role (form_roles prev)).
    { apply existsb_exists in E as (x & Hx & Ex). apply String.eqb_eq in Ex. now subst. }
    split; [|split; [|split; [|split]]].
    + rewrite filter_In. split; [|tauto].
      intros [_ H]. rewrite String.eqb_refl in H. discriminate.
    + intros r Hr. rewrite filter_In. split; [tauto|]. intros H. split; auto.
      apply String.eqb_neq in Hr. now rewrite Hr.
    + reflexivity.
    + apply NoDup_filter.
    + tauto.
  - assert (Hnin : ~ In role (form_roles prev)).
    { intros H. apply not_true_iff_false in E. apply E. apply existsb_exists.
      exists role. split; auto. apply String.eqb_refl. }
    split; [|split; [|split; [|split]]].
    + split; [tauto|]. intros _. apply in_or_app. right. now left.
    + intros r Hr. rewrite in_app_iff. simpl. intuition congruence.
    + reflexivity.
    + intros Hnd. apply NoDup_app; auto.
      * constructor; [intros []|constructor].
      * intros x Hx [<-|[]]. contradiction.
    + intros _.
      assert (Ex : existsb (String.eqb role) (form_roles prev ++ [role]) = true).
      { rewrite existsb_app. simpl. rewrite String.eqb_refl. apply orb_true_r. }
      rewrite Ex, filter_app. simpl. rewrite String.eqb_refl. simpl.
      rewrite app_nil_r.
      rewrite forallb_filter_id; [destruct prev; reflexivity|].
      apply forallb_forall. intros x Hx.
      apply negb_true_iff. apply String.eqb_neq. congruence.
Qed.

(** The initial form, with 'user' selected. *)
Lemma toggleRole_flips_one_role_witness :
  let prev := {| form_emails := []; form_roles := ["user"] |} in
  toggleRole "admin" (toggleRole "admin" prev) = prev
  /\ NoDup (form_roles (toggleRole "admin" prev)).
Proof.
  intros prev.
  destruct (toggleRole_flips_one_role "admin" prev) as (_ & _ & _ & H4 & H5).
  split.
  - apply H5. simpl. intros [H|[]]. discriminate H.
  - apply H4. simpl. constructor; [intros []|constructor].
Defined.

(** *** Regular expressions *)

Lemma nullable_matches r : JS.nullable r = true <-> JS.matches r [].
Proof.
  split.
  - induction r; simpl; intros H; try discriminate.
    + constructor.
    + apply andb_prop in H as [H1 H2].
      apply (JS.matches_seq r1 r2 [] []); auto.
    + apply orb_prop in H as [H|H]; [apply JS.matches_left | apply JS.matches_right]; auto.
    + constructor.
  - intros H. remember [] as s eqn:Es. induction H; simpl; auto; try discriminate.
    + apply app_eq_nil in Es as [-> ->]. now rewrite IHmatches1, IHmatches2.
    + now rewrite IHmatches.
    + rewrite IHmatches; auto. apply orb_true_r.
Qed.

Lemma after_unit_matches c r : forall s,
  JS.matches (JS.after_unit c r) s <-> JS.matches r (c :: s).
Proof.
  split.
  - revert s. induction r; simpl; intros s H.
    + inversion H.
    + inversion H.
    + destruct (accepts c) eqn:E; inversion H; subst. now constructor.
    + destruct (JS.nullable r1) eqn:En.
      * inversion H as [| |? ? ? ? ? ?| ? ? ? H1 | ? ? ? H1 | |]; subst.
        -- inversion H1; subst.
           change (c :: s1 ++ s2) with ((c :: s1) ++ s2). constructor; auto.
        -- change (c :: s) with ([] ++ c :: s). constructor; auto.
           now apply nullable_matches.
      * inversion H; subst.
        change (c :: s1 ++ s2) with ((c :: s1) ++ s2). constructor; auto.
    + inversion H; subst; [apply JS.matches_left | apply JS.matches_right]; auto.
    + inversion H; subst.
      change (c :: s1 ++ s2) with ((c :: s1) ++ s2). constructor; auto.
  - intros H. remember (c :: s) as cs eqn:E. revert c s E.
    induction H; intros c0 s0 E; simpl; try discriminate.
    + injection E as -> <-. rewrite H. constructor.
    + destruct s1 as [|x s1'].
      * simpl in E. subst s2.
        assert (En : JS.nullable r1 = true) by now apply nullable_matches.
        rewrite En. apply JS.matches_right. now apply IHmatches2.
      * simpl in E. injection E as -> <-.
        destruct (JS.nullable r1).
        -- apply JS.matches_left. constructor; auto.
        -- constructor; auto.
    + apply JS.matches_left. auto.
    + apply JS.matches_right. auto.
    + destruct s1 as [|x s1'].
      * simpl in E. now apply IHmatches2.
      * simpl in E. injection E as -> <-. constructor; auto.
Qed.

Lemma test_matches s : forall r, JS.test r s = true <-> JS.matches r s.
Proof.
  induction s as [|c s IH]; intros r.
  - apply nullable_matches.
  - unfold JS.test. simpl. fold (JS.test (JS.after_unit c r) s).
    rewrite IH. apply after_unit_matches.
Qed.

Lemma matches_seq_inv r1 r2 s :
  JS.matches (JS.Seq r1 r2) s <->
  exists s1 s2, s = s1 ++ s2 /\ JS.matches r1 s1 /\ JS.matches r2 s2.
Proof.
  split.
  - intros H. inversion H; subst. eauto.
  - intros (s1 & s2 & -> & H1 & H2). now constructor.
Qed.

Lemma matches_unit_inv p s :
  JS.matches (JS.Unit p) s <-> exists c, s = [c] /\ p c = true.
Proof.
  split.
  - intros H. inversion H; subst. eauto.
  - intros (c & -> & H). now constructor.
Qed.

Lemma matches_star_unit p s :
  JS.matches (JS.Star (JS.Unit p)) s <-> forallb p s = true.
Proof.
  split.
  - intros H. remember (JS.Star (JS.Unit p)) as r eqn:Er.
    induction H; try discriminate; auto.
    injection Er as ->. apply matches_unit_inv in H as (c & -> & Hc). simpl.
    rewrite IHmatches2 by reflexivity. now rewrite Hc.
  - induction s as [|c s IH]; simpl; intros H; [constructor|].
    apply andb_prop in H as [H1 H2].
    change (c :: s) with ([c] ++ s). constructor; [now constructor | auto].
Qed.

Lemma matches_plus_unit p s :
  JS.matches (JS.Plus (JS.Unit p)) s <-> s <> [] /\ forallb p s = true.
Proof.
  unfold JS.Plus. split.
  - intros H. apply matches_seq_inv in H as (s1 & s2 & -> & H1 & H2).
    apply matches_unit_inv in H1 as (c & -> & Hc).
    apply matches_star_unit in H2. simpl. rewrite Hc, H2. split; [discriminate|auto].
  - intros [Hne H]. destruct s as [|c s]; [contradiction|].
    simpl in H. apply andb_prop in H as [H1 H2].
    change (c :: s) with ([c] ++ s). constructor; [now constructor|].
    now apply matches_star_unit.
Qed.

Lemma not_space_or_at_count s :
  forallb not_space_or_at s = true -> count_occ N.eq_dec s 64%N = 0.
Proof.
  induction s as [|c s IH]; simpl; auto. intros H.
  apply andb_prop in H as [H1 H2]. unfold not_space_or_at in H1.
  apply andb_prop in H1 as [_ H1]. apply negb_true_iff, N.eqb_neq in H1.
  destruct (N.eq_dec c 64); [contradiction|auto].
Qed.

Lemma not_space_or_at_no_space s :
  forallb not_space_or_at s = true ->
  forallb (fun c => negb (JS.is_white_space c)) s = true.
Proof.
  induction s as [|c s IH]; simpl; auto. intros H.
  apply andb_prop in H as [H1 H2]. unfold not_space_or_at in H1.
  apply andb_prop in H1 as [H1 _]. now rewrite H1, IH.
Qed.

(** X28.  What [emailRegex] accepts: exactly the strings made of a name,
    an '@', a domain, a '.' and an ending, the three parts not empty and
    without white space or '@'.  So an accepted string has exactly one
    '@' and no white space. *)
Theorem emailRegex_accepts :
  forall s : JS.js_string,
    (JS.test emailRegex s = true <->
     exists name domain ending,
       s = name ++ 64%N :: domain ++ 46%N :: ending
       /\ name <> [] /\ domain <> [] /\ ending <> []
       /\ forallb not_space_or_at (name ++ domain ++ ending) = true)
    /\ (JS.test emailRegex s = true ->
        count_occ N.eq_dec s 64%N = 1
        /\ forallb (fun c => negb (JS.is_white_space c)) s = true).
Proof.
  intros s.
  assert (A : JS.test emailRegex s = true <->
     exists name domain ending,
       s = name ++ 64%N :: domain ++ 46%N :: ending
       /\ name <> [] /\ domain <> [] /\ ending <> []
       /\ forallb not_space_or_at (name ++ domain ++ ending) = true).
  { rewrite test_matches. unfold emailRegex. split.
    - intros H.
      apply matches_seq_inv in H as (a & s1 & -> & Ha & H).
      apply matches_seq_inv in H as (x & s2 & -> & Hx & H).
      apply matches_seq_inv in H as (b & s3 & -> & Hb & H).
      apply matches_seq_inv in H as (y & c & -> & Hy & Hc).
      apply matches_unit_inv in Hx as (x0 & -> & Ex). apply N.eqb_eq in Ex. subst x0.
      apply matches_unit_inv in Hy as (y0 & -> & Ey). apply N.eqb_eq in Ey. subst y0.
      apply matches_plus_unit in Ha as [Ha1 Ha2].
      apply matches_plus_unit in Hb as [Hb1 Hb2].
      apply matches_plus_unit in Hc as [Hc1 Hc2].
      exists a, b, c. repeat split; auto.
      rewrite !forallb_app. now rewrite Ha2, Hb2, Hc2.
    - intros (a & b & c & -> & Ha & Hb & Hc & H).
      rewrite !forallb_app in H.
      apply andb_prop in H as [H1 H]. apply andb_prop in H as [H2 H3].
      constructor; [now apply matches_plus_unit|].
      change (64%N :: b ++ 46%N :: c) with ([64%N] ++ b ++ [46%N] ++ c).
      constructor; [now constructor|].
      constructor; [now apply matches_plus_unit|].
      constructor; [now constructor|]. now apply matches_plus_unit. }
  split; [exact A|].
  intros H. apply A in H as (a & b & c & -> & _ & _ & _ & H).
  rewrite !forallb_app in H.
  apply andb_prop in H as [H1 H]. apply andb_prop in H as [H2 H3].
  split.
  - rewrite count_occ_app. simpl. rewrite count_occ_app. simpl.
    rewrite !not_space_or_at_count by assumption. reflexivity.
  - rewrite forallb_app. simpl. rewrite forallb_app. simpl.
    now rewrite !not_space_or_at_no_space.
Qed.

(** "a@b.c" *)
Lemma emailRegex_accepts_witness :
  count_occ N.eq_dec [97; 64; 98; 46; 99]%N 64%N = 1
  /\ forallb (fun c => negb (JS.is_white_space c)) [97; 64; 98; 46; 99]%N = true.
Proof.
  apply (proj2 (emailRegex_accepts [97; 64; 98; 46; 99]%N)).
  reflexivity.
Defined.

(** *** The checks of the bulk invitation screen *)

Lemma split_pieces sep s :
  forall piece, In piece (JS.split sep s) ->
    ~ In sep piece /\ forall c, In c piece -> In c s.
Proof.
  induction s as [|c s IH]; simpl; intros piece H.
  - destruct H as [<-|[]]. split; [intros []|intros ? []].
  - destruct (c =? sep)%N eqn:E.
    + destruct H as [<-|H]; [split; [intros []|intros ? []]|].
      destruct (IH piece H) as [H1 H2]. split; auto.
    + destruct (JS.split sep s) as [|p ps] eqn:Es.
      * destruct H as [<-|[]]. apply N.eqb_neq in E. split.
        -- intros [C|[]]. congruence.
        -- intros x [<-|[]]. now left.
      * destruct H as [<-|H].
        -- destruct (IH p (or_introl eq_refl)) as [H1 H2]. apply N.eqb_neq in E. split.
           ++ intros [C|C]; [congruence|contradiction].
           ++ intros x [<-|Hx]; [now left | right; auto].
        -- destruct (IH piece (or_intror H)) as [H1 H2]. split; auto.
Qed.

Lemma trim_In s c : In c (JS.trim s) -> In c s.
Proof.
  intros H. destruct (trim_decompose s) as (a & b & E & _).
  rewrite E. apply in_or_app. right. apply in_or_app. now left.
Qed.

Lemma trim_blank s : forallb JS.is_white_space s = true -> JS.trim s = [].
Proof.
  intros H. unfold JS.trim.
  assert (E : JS.trim_start s = []).
  { induction s as [|c s IH]; simpl in *; auto.
    apply andb_prop in H as [H1 H2]. rewrite H1. auto. }
  now rewrite E.
Qed.

(** X29.  What [handleCreateUsers] checks before it contacts the server.
    The addresses it goes on with are not none, and each of them is not
    empty, trimmed, on one line and accepted by [emailRegex].  A form of
    white space only is refused for want of an address, and one line that
    [emailRegex] rejects makes it refuse the whole form. *)
Theorem handleCreateUsers_checks_before_submitting :
  forall form : BulkUserForm,
    (forall emails, handleCreateUsers_checks form = Submitted emails ->
       emails <> []
       /\ forall email, In email emails ->
            email <> [] /\ JS.trim email = email /\ ~ In 10%N email
            /\ JS.test emailRegex email = true)
    /\ ((forall c, In c (form_emails form) -> JS.is_white_space c = true) ->
        handleCreateUsers_checks form
        = Refused "Please enter at least one email address")
    /\ (forall email, In email (entered_emails form) ->
          JS.test emailRegex email = false ->
          handleCreateUsers_checks form
          = Refused "One or more email addresses are invalid").
Proof.
  intros form. unfold handleCreateUsers_checks. cbv zeta.
  assert (Hent : forall email, In email (entered_emails form) ->
            email <> [] /\ JS.trim email = email /\ ~ In 10%N email).
  { intros email H. unfold entered_emails in H. apply filter_In in H as [H Hl].
    apply in_map_iff in H as (line & <- & Hline). split; [|split].
    - intros C. rewrite C in Hl. discriminate.
    - apply trim_fixed.
    - intros C. apply trim_In in C. now apply (split_pieces 10%N _ _ Hline). }
  split; [|split].
  - intros emails H.
    destruct (List.length (entered_emails form) =? 0) eqn:El; [discriminate|].
    destruct (validateEmails (entered_emails form)) eqn:Ev; [|discriminate].
    cbn [negb] in H. injection H as <-. split.
    + intros C. rewrite C in El. discriminate.
    + intros email Hin. destruct (Hent email Hin) as (H1 & H2 & H3).
      repeat split; auto.
      unfold validateEmails in Ev. rewrite forallb_forall in Ev.
      specialize (Ev email Hin). now rewrite H2 in Ev.
  - intros Hblank.
    assert (E : entered_emails form = []).
    { unfold entered_emails. apply filter_nil_iff. intros email H.
      apply in_map_iff in H as (line & <- & Hline).
      rewrite trim_blank; [reflexivity|].
      apply forallb_forall. intros c Hc. apply Hblank.
      now apply (split_pieces 10%N _ _ Hline). }
    now rewrite E.
  - intros email Hin Hbad.
    destruct (List.length (entered_emails form) =? 0) eqn:El.
    + apply Nat.eqb_eq, length_zero_iff_nil in El. rewrite El in Hin. destruct Hin.
    + assert (Ev : validateEmails (entered_emails form) = false).
      { apply not_true_iff_false. intros C. unfold validateEmails in C.
        rewrite forallb_forall in C. specialize (C email Hin).
        destruct (Hent email Hin) as (_ & H2 & _). rewrite H2 in C. congruence. }
      now rewrite Ev.
Qed.

(** Two lines, " a@b.c " and an empty one; then a blank form; then
    "a@b" on a line. *)
Lemma handleCreateUsers_checks_before_submitting_witness :
  (let form := {| form_emails := [32; 97; 64; 98; 46; 99; 32; 10]%N;
                  form_roles := ["user"] |} in
   [[97; 64; 98; 46; 99]%N] <> []
   /\ forall email, In email [[97; 64; 98; 46; 99]%N] ->
        email <> [] /\ JS.trim email = email /\ ~ In 10%N email
        /\ JS.test emailRegex email = true)
  /\ handleCreateUsers_checks {| form_emails := [32; 10; 9]%N; form_roles := ["user"] |}
     = Refused "Please enter at least one email address"
  /\ handleCreateUsers_checks {| form_emails := [97; 64; 98]%N; form_roles := ["user"] |}
     = Refused "One or more email addresses are invalid".
Proof.
  split; [|split].
  - intros form.
    apply (proj1 (handleCreateUsers_checks_before_submitting form)).
    reflexivity.
  - apply (proj1 (proj2 (handleCreateUsers_checks_before_submitting
                           {| form_emails := [32; 10; 9]%N; form_roles := ["user"] |}))).
    simpl. intros c [<-|[<-|[<-|[]]]]; reflexivity.
  - apply (proj2 (proj2 (handleCreateUsers_checks_before_submitting
                           {| form_emails := [97; 64; 98]%N; form_roles := ["user"] |}))
             [97; 64; 98]%N).
    + left. reflexivity.
    + reflexivity.
Defined.

(** *** The roles of the screen and the roles of the database *)

Lemma toggleRole_roles role prev :
  In role AVAILABLE_ROLES ->
  NoDup (form_roles prev) -> incl (form_roles prev) AVAILABLE_ROLES ->
  NoDup (form_roles (toggleRole role prev))
  /\ incl (form_roles (toggleRole role prev)) AVAILABLE_ROLES.
Proof.
  intros Hr Hnd Hin. unfold toggleRole. cbn [form_roles].
  destruct (existsb (String.eqb role) (form_roles prev)) eqn:E.
  - split; [apply NoDup_filter; exact Hnd|].
    intros x Hx. apply filter_In in Hx as [Hx _]. now apply Hin.
  - split.
    + apply NoDup_app; auto.
      * constructor; [intros []|constructor].
      * intros x Hx [<-|[]]. apply not_true_iff_false in E. apply E.
        apply existsb_exists. exists role. split; auto. apply String.eqb_refl.
    + intros x Hx. apply in_app_or in Hx as [Hx|[<-|[]]]; auto.
Qed.

Lemma form_after_roles actions : forall prev,
  (forall role, In (PressRole role) actions -> In role AVAILABLE_ROLES) ->
  NoDup (form_roles prev) -> incl (form_roles prev) AVAILABLE_ROLES ->
  NoDup (form_roles (fold_left form_step actions prev))
  /\ incl (form_roles (fold_left form_step actions prev)) AVAILABLE_ROLES.
Proof.
  induction actions as [|a actions IH]; intros prev Ha Hnd Hin; simpl; auto.
  assert (Ha' : forall role, In (PressRole role) actions -> In role AVAILABLE_ROLES).
  { intros role H. apply Ha. now right. }
  destruct a as [role|emails]; simpl.
  - destruct (toggleRole_roles role prev) as [H1 H2]; auto.
    apply Ha. now left.
  - apply IH; auto.
Qed.

(** X30.  The screen starts with 'user' selected and offers 'admin',
    'editor' and 'user'.  Whatever the user presses, the selection has no
    duplicate and stays among the three.  But the CHECK on [roles] admits
    no role named 'editor': the assignments [verify_user_email] inserts
    for an invitation with the roles of the screen are for 'admin' or
    'user' only, and none at all for a selection of 'editor' alone. *)
Theorem screen_roles_granted_are_admin_or_user :
  forall (actions : list form_action),
    (forall role, In (PressRole role) actions -> In role AVAILABLE_ROLES) ->
    let form := form_after actions in
    NoDup (form_roles form)
    /\ incl (form_roles form) AVAILABLE_ROLES
    /\ forall (d : DB) (s : session) (user_id : uuid) (v_invitation : user_invitation),
         roles_valid d ->
         ui_roles v_invitation = map Some (form_roles form) ->
         (forall row, In row (grants_of user_id v_invitation s d) ->
            exists r, In r (roles d) /\ r_id r = ur_role_id row
                      /\ (r_name r = "admin" \/ r_name r = "user"))
         /\ (form_roles form = ["editor"] -> grants_of user_id v_invitation s d = []).
Proof.
  intros actions Ha form.
  destruct (form_after_roles actions initial_form Ha) as [Hnd Hin].
  { simpl. constructor; [intros []|constructor]. }
  { intros x [<-|[]]. simpl. auto. }
  fold (form_after actions) in Hnd, Hin. fold form in Hnd, Hin.
  split; [exact Hnd|]. split; [exact Hin|].
  intros d s user_id inv Hvalid Hroles.
  assert (Hgranted : forall r, In r (invited_roles d (ui_roles inv)) ->
                      In r (roles d) /\ (r_name r = "admin" \/ r_name r = "user")).
  { intros r Hr. apply invited_roles_In in Hr as [Hr Hn]. split; [exact Hr|].
    rewrite Hroles in Hn. apply in_map_iff in Hn as (name & E & Hname).
    injection E as ->. apply Hin in Hname.
    specialize (Hvalid r Hr).
    destruct Hname as [E|[E|[E|[]]]]; [left; now symmetry | | right; now symmetry].
    rewrite <- E in Hvalid. discriminate Hvalid. }
  split.
  - intros row Hrow. unfold grants_of in Hrow.
    apply granted_rows_In in Hrow as (_ & _ & _ & r & Hr & E).
    destruct (Hgranted r Hr) as [H1 H2]. exists r. auto.
  - intros E. unfold grants_of.
    destruct (invited_roles d (ui_roles inv)) as [|r l] eqn:Er; [reflexivity|].
    exfalso. assert (Hr : In r (invited_roles d (ui_roles inv))) by (rewrite Er; now left).
    apply invited_roles_In in Hr as [Hr Hn]. rewrite Hroles, E in Hn.
    destruct Hn as [Hn|[]]. injection Hn as Hn.
    specialize (Hvalid r Hr). rewrite <- Hn in Hvalid. discriminate Hvalid.
Qed.

(** The user selects 'editor' and deselects 'user'; the database has the
    seeded roles. *)
Lemma screen_roles_granted_are_admin_or_user_witness :
  let form := form_after [PressRole "editor"; PressRole "user"] in
  let editor_invitation :=
    {| ui_id := 63; ui_email := "alice@example.com"; ui_invited_by := Some 2;
       ui_roles := [Some "editor"]; ui_status := "pending";
       ui_invitation_token := "decaf"; ui_expires_at := interval_7_days;
       ui_created_at := Some 0%Z |} in
  form_roles form = ["editor"]
  /\ grants_of 1 editor_invitation (session_of (Some 1) 100)
       (sample_db [] [editor_invitation]) = [].
Proof.
  intros form editor_invitation. split; [reflexivity|].
  destruct (screen_roles_granted_are_admin_or_user
              [PressRole "editor"; PressRole "user"]) as (_ & _ & H).
  - intros role [E|[E|[]]]; injection E as <-; simpl; auto.
  - destruct (H (sample_db [] [editor_invitation]) (session_of (Some 1) 100) 1
                editor_invitation) as [_ H2].
    + intros r [<-|[<-|[<-|[<-|[]]]]]; reflexivity.
    + reflexivity.
    + apply H2. reflexivity.
Defined.
